(** * NanoClaw safe backup: a shallow embedding of [src/backup-safe.ts]

    The module captures the SQLite store, compresses and encrypts the
    snapshot, ships it to a blob store, prunes old artifacts and restores
    the latest one.  The development below translates the TypeScript
    functions into Rocq, one definition per source function, and proves the
    properties stated about them.

    Conventions.
    - A [Buffer] is a [list byte].
    - A JavaScript string is a sequence of UTF-16 code units.  The backup
      key, whose characters are counted and then encoded, and the decoded
      file header are kept as [list N] ([jsstring]); path names, blob
      keys, the token and messages, which the program only concatenates
      and compares, are kept as Rocq strings.
    - Instants are integer milliseconds since the epoch ([Z]).
    - Effects (file system, blob store, clock, random bytes) are threaded
      through an explicit [World]; exceptions are the [Err] results of a
      state-and-error monad. *)

From Stdlib Require Import ZArith NArith QArith List Ascii String Sorted Lia.
From Stdlib.Strings Require Import Byte.
From stdpp Require Import gmap strings list pretty.

Local Open Scope Z_scope.

(** ** Buffers *)

Abbreviation bytes := (list byte).

#[global] Instance byte_eq_decision : EqDecision byte := Byte.byte_eq_dec.

Definition byte_of_N (n : N) : byte :=
  match Byte.of_N (n mod 256)%N with
  | Some b => b
  | None => x00
  end.

(** [buf.slice(start)] and [buf.slice(start, end)] for non-negative
    indices: out-of-range indices are clamped, never an error. *)
Definition buf_slice (start stop : nat) (buf : bytes) : bytes :=
  take (stop - start)%nat (drop start buf).

Definition buf_slice_from (start : nat) (buf : bytes) : bytes :=
  drop start buf.

(** ** JavaScript strings *)

Abbreviation jsstring := (list N).

(** The code units of a source literal (all literals of the module are
    ASCII). *)
Definition js_lit (s : string) : jsstring :=
  map (fun c => N.of_nat (nat_of_ascii c)) (list_ascii_of_string s).

(** [s.padEnd(targetLength, padString)] *)
Definition padEnd (targetLength : nat) (padString : jsstring) (s : jsstring)
  : jsstring :=
  let missing := (targetLength - length s)%nat in
  s ++ take missing (concat (replicate missing padString)).

(** [s.slice(0, stop)] on a string. *)
Definition str_slice0 (stop : nat) (s : jsstring) : jsstring := take stop s.

(** Truthiness of a string, and [a || b] on strings where the left operand
    may be [undefined]. *)
Definition js_or (a : option jsstring) (b : jsstring) : jsstring :=
  match a with
  | Some ((_ :: _) as s) => s
  | _ => b
  end.

Definition is_high_surrogate (u : N) : bool := ((0xD800 <=? u) && (u <? 0xDC00))%N.
Definition is_low_surrogate (u : N) : bool := ((0xDC00 <=? u) && (u <? 0xE000))%N.

Definition utf8_of_code_point (cp : N) : bytes :=
  if (cp <? 0x80)%N then [byte_of_N cp]
  else if (cp <? 0x800)%N then
    [byte_of_N (N.lor 0xC0 (N.shiftr cp 6));
     byte_of_N (N.lor 0x80 (N.land cp 0x3F))]
  else if (cp <? 0x10000)%N then
    [byte_of_N (N.lor 0xE0 (N.shiftr cp 12));
     byte_of_N (N.lor 0x80 (N.land (N.shiftr cp 6) 0x3F));
     byte_of_N (N.lor 0x80 (N.land cp 0x3F))]
  else
    [byte_of_N (N.lor 0xF0 (N.shiftr cp 18));
     byte_of_N (N.lor 0x80 (N.land (N.shiftr cp 12) 0x3F));
     byte_of_N (N.lor 0x80 (N.land (N.shiftr cp 6) 0x3F));
     byte_of_N (N.lor 0x80 (N.land cp 0x3F))].

(** [Buffer.from(s)]: the UTF-8 encoding of a string.  A surrogate pair
    is one code point; an unpaired surrogate is encoded as U+FFFD. *)
Fixpoint Buffer_from (s : jsstring) : bytes :=
  match s with
  | [] => []
  | u :: rest =>
      if is_high_surrogate u then
        match rest with
        | lo :: rest' =>
            if is_low_surrogate lo then
              utf8_of_code_point
                (0x10000 + (u - 0xD800) * 0x400 + (lo - 0xDC00))%N
                ++ Buffer_from rest'
            else utf8_of_code_point 0xFFFD ++ Buffer_from rest
        | [] => utf8_of_code_point 0xFFFD
        end
      else if is_low_surrogate u then
        utf8_of_code_point 0xFFFD ++ Buffer_from rest
      else utf8_of_code_point u ++ Buffer_from rest
  end.

(** ** Configuration

    [readEnvFile] lives in [env.ts]; its result for the two keys the module
    asks for is the record below ([None] is an absent key). *)

Record Env := {
  BACKUP_KEY : option jsstring;
  BLOB_READ_WRITE_TOKEN : option string;
}.

Definition BACKUP_PREFIX : string := "nanoclaw-backup".

Definition DEFAULT_KEY_LITERAL : string := "nanoclaw-backup-key-32-chars!".

(** [getBackupKey] *)
Definition getBackupKey (env : Env) : bytes :=
  Buffer_from
    (js_or (option_map (fun k => str_slice0 32 (padEnd 32 (js_lit "0") k))
                       (BACKUP_KEY env))
           (js_lit DEFAULT_KEY_LITERAL)).

(** [getBlobToken] *)
Definition getBlobToken (env : Env) : string :=
  match BLOB_READ_WRITE_TOKEN env with
  | Some ((String _ _) as t) => t
  | _ => EmptyString
  end.

(** [!token] *)
Definition token_missing (token : string) : bool :=
  match token with
  | EmptyString => true
  | String _ _ => false
  end.


(** ** [buf.toString('utf8')]

    Decoding replaces every ill-formed sequence by U+FFFD (one replacement
    per maximal ill-formed prefix) and yields UTF-16 code units. *)

Record Utf8Pending := {
  pending_needed : nat;   (* continuation bytes still expected *)
  pending_cp : N;         (* bits collected so far *)
  pending_lower : N;      (* admissible range of the next byte *)
  pending_upper : N;
}.

Definition utf8_lead (b : N) : N + Utf8Pending :=
  if (b <? 0x80)%N then inl b
  else if ((0xC2 <=? b) && (b <=? 0xDF))%N then
    inr {| pending_needed := 1; pending_cp := N.land b 0x1F;
           pending_lower := 0x80; pending_upper := 0xBF |}
  else if ((0xE0 <=? b) && (b <=? 0xEF))%N then
    inr {| pending_needed := 2; pending_cp := N.land b 0xF;
           pending_lower := if (b =? 0xE0)%N then 0xA0%N else 0x80%N;
           pending_upper := if (b =? 0xED)%N then 0x9F%N else 0xBF%N |}
  else if ((0xF0 <=? b) && (b <=? 0xF4))%N then
    inr {| pending_needed := 3; pending_cp := N.land b 0x7;
           pending_lower := if (b =? 0xF0)%N then 0x90%N else 0x80%N;
           pending_upper := if (b =? 0xF4)%N then 0x8F%N else 0xBF%N |}
  else inl 0xFFFD%N.

Fixpoint utf8_decode_from (st : option Utf8Pending) (bs : bytes) : list N :=
  match bs with
  | [] => match st with None => [] | Some _ => [0xFFFD%N] end
  | b :: rest =>
      let n := Byte.to_N b in
      let restart :=
        match utf8_lead n with
        | inl c => c :: utf8_decode_from None rest
        | inr s => utf8_decode_from (Some s) rest
        end in
      match st with
      | None => restart
      | Some s =>
          if ((pending_lower s <=? n) && (n <=? pending_upper s))%N then
            let cp := N.lor (N.shiftl (pending_cp s) 6) (N.land n 0x3F) in
            match pending_needed s with
            | S (S k) =>
                utf8_decode_from
                  (Some {| pending_needed := S k; pending_cp := cp;
                           pending_lower := 0x80; pending_upper := 0xBF |})
                  rest
            | _ => cp :: utf8_decode_from None rest
            end
          else 0xFFFD%N :: restart
      end
  end.

Definition utf16_of_code_point (cp : N) : jsstring :=
  if (cp <? 0x10000)%N then [cp]
  else [(0xD800 + N.shiftr (cp - 0x10000) 10)%N;
        (0xDC00 + N.land (cp - 0x10000) 0x3FF)%N].

Definition toString_utf8 (buf : bytes) : jsstring :=
  flat_map utf16_of_code_point (utf8_decode_from None buf).

(** [s.startsWith(prefix)] *)
Definition startsWith (s pre : jsstring) : bool :=
  bool_decide (take (length pre) s = pre).

(** [pathname.endsWith(suffix)] on path names. *)
Fixpoint endsWith (s suffix : string) : bool :=
  if String.eqb s suffix then true
  else match s with
       | EmptyString => false
       | String _ s' => endsWith s' suffix
       end.

(** ** Errors and results *)

(** The fallible calls the module makes to its collaborators. *)
Inductive Call :=
| CList (pre : string)           (* list({ prefix }) *)
| CPut (pathname : string)       (* put(pathname, body) *)
| CDel (pathname : string)       (* del(pathname) *)
| CFetch (url : string)          (* fetch(url) *)
| CSqliteOpen (path : string)    (* new Database(path) *)
| CVacuumInto (dst : string)     (* VACUUM INTO dst *)
| CRead (path : string)          (* fs.readFileSync *)
| CUnlink (path : string)        (* fs.unlinkSync *)
| CCopy (src dst : string)       (* fs.copyFileSync *)
| CWrite (path : string).        (* fs.writeFileSync *)

Inductive Error :=
| TokenNotConfigured             (* 'BLOB_READ_WRITE_TOKEN not configured' *)
| NoBackupFound                  (* 'No backup found' *)
| BackupNotFound (target : string) (* `Backup not found: ${targetFile}` *)
| ChecksumMismatch               (* 'Backup checksum mismatch! ...' *)
| InvalidSqliteFormat            (* 'Invalid SQLite file format' *)
| CryptoInvalidKeyLength         (* node:crypto, 'Invalid key length' *)
| CryptoInvalidIV                (* node:crypto, 'Invalid initialization vector' *)
| CryptoInvalidTagLength (n : nat) (* node:crypto, 'Invalid authentication tag length' *)
| CryptoAuthFailed               (* node:crypto, 'unable to authenticate data' *)
| ZlibError                      (* the gunzip stream's 'error' event *)
| JsonSyntaxError                (* response.json() *)
| CallFailed (c : Call).         (* a collaborator rejected the call *)

Inductive Res (A : Type) :=
| Ok (a : A)
| Err (e : Error).
Arguments Ok {A} a.
Arguments Err {A} e.

Definition res_bind {A B} (r : Res A) (k : A -> Res B) : Res B :=
  match r with
  | Ok a => k a
  | Err e => Err e
  end.

(** ** The metadata record *)

Record BackupMetadata := {
  version : string;
  timestamp : string;
  size : nat;
  checksum : string;
  sqliteVersion : string;
}.

(** ** The runtime libraries

    The module calls into [node:crypto], [node:zlib], the JSON codec, the
    [Date] formatter and SQLite.  Their algorithms are not part of this
    repository; the class lists the operations the module relies on. *)

Class NodeLib := {
  (** AES-256-GCM keystream transform for a key and an IV (encryption and
      decryption of the payload are the same counter-mode transform). *)
  gcm_ctr : bytes -> bytes -> bytes -> bytes;
  (** The full authentication tag of a ciphertext under a key and an IV. *)
  gcm_tag : bytes -> bytes -> bytes -> bytes;
  (** [createHash('sha256').update(b).digest('hex')] *)
  sha256_hex : bytes -> string;
  (** The complete output of a [createGzip({ level: 9 })] stream. *)
  gzip9 : bytes -> bytes;
  (** The complete output of a [createGunzip()] stream, [None] when the
      stream emits 'error'. *)
  gunzip : bytes -> option bytes;
  (** [JSON.stringify(metadata, null, 2)] as the bytes put in the store. *)
  JSON_stringify : BackupMetadata -> bytes;
  (** [response.json()]: [None] is a syntax error, [Some None] a falsy
      value, [Some (Some m)] the value read as a [BackupMetadata]. *)
  JSON_parse : bytes -> option (option BackupMetadata);
  (** [new Date(t).toISOString()] *)
  toISOString : Z -> string;
  (** Local wall-clock time minus UTC, in milliseconds, at an instant. *)
  local_offset : Z -> Z;
  (** The image [VACUUM INTO] writes for a database file. *)
  sqlite_image : bytes -> bytes;
}.

(** What the libraries guarantee and the proofs use. *)
Definition gcm_ctr_involutive `{NodeLib} : Prop :=
  forall key iv data, gcm_ctr key iv (gcm_ctr key iv data) = data.

Definition gcm_tag_full_length `{NodeLib} : Prop :=
  forall key iv data, length (gcm_tag key iv data) = 16%nat.

Definition gunzip_gzip9 `{NodeLib} : Prop :=
  forall b, gunzip (gzip9 b) = Some b.

(** ** The crypto codec *)

Section Codec.
Context `{NodeLib}.

(** [createCipheriv('aes-256-gcm', key, iv)] and [createDecipheriv]:
    for an authenticated mode the IV may have any length but zero
    ('Invalid initialization vector'), which is tested first; the key
    must then have the cipher's 32 bytes ('Invalid key length'
    otherwise). *)
Definition aes256gcm_init (key iv : bytes) : Res unit :=
  if (length iv =? 0)%nat then Err CryptoInvalidIV
  else if negb (length key =? 32)%nat then Err CryptoInvalidKeyLength
  else Ok tt.

(** Tag lengths [decipher.setAuthTag] admits in GCM mode when no
    [authTagLength] option was given to [createDecipheriv]: 128, 120, 112,
    104, 96, 64 and 32 bits (Node.js DEP0090; the option exists to
    restrict the accepted tags to one length, and the module does not
    pass it).  [decipher.final] then
    compares the tag with that many leading bytes of the computed tag. *)
Definition valid_gcm_tag_length (n : nat) : bool :=
  ((n =? 4) || (n =? 8) || ((12 <=? n) && (n <=? 16)))%nat.

(** The body of [encrypt] once the nonce is drawn and the key read. *)
Definition encrypt_with (key iv buffer : bytes) : Res bytes :=
  res_bind (aes256gcm_init key iv) (fun _ =>
  let encrypted := gcm_ctr key iv buffer in
  let authTag := gcm_tag key iv encrypted in
  Ok (iv ++ authTag ++ encrypted)).

(** The body of [decrypt] once the key is read. *)
Definition decrypt_with (key encrypted : bytes) : Res bytes :=
  let iv := buf_slice 0 16 encrypted in
  let authTag := buf_slice 16 32 encrypted in
  let data := buf_slice_from 32 encrypted in
  res_bind (aes256gcm_init key iv) (fun _ =>
  if negb (valid_gcm_tag_length (length authTag))
  then Err (CryptoInvalidTagLength (length authTag))
  else if bool_decide
            (authTag = take (length authTag) (gcm_tag key iv data))
  then Ok (gcm_ctr key iv data)
  else Err CryptoAuthFailed).

(** [sha256] *)
Definition sha256 (buffer : bytes) : string := sha256_hex buffer.

End Codec.

(** ** The world the module runs in *)

(** How the next fallible call ends: it completes, it fails without
    effect, or (for a call that writes a file) it fails after [k] bytes. *)
Inductive Outcome :=
| Done
| Fails
| FailsAfter (k : nat).

Record Event := {
  ev_call : Call;
  ev_ok : bool;
}.

Record Blob := {
  pathname : string;
  url : string;
  uploadedAt : Z;
  content : bytes;
}.

Inductive LogLevel := Info | Warn | LogError.

Record World := {
  env : Env;                       (* what readEnvFile returns *)
  files : gmap string bytes;       (* the local file system *)
  blobs : list Blob;               (* the blob store, in listing order *)
  clock : Z;                       (* Date.now() *)
  entropy : list bytes;            (* what randomBytes will draw *)
  oracle : list Outcome;           (* how the next fallible calls end *)
  trace : list Event;              (* the fallible calls made so far *)
  logs : list (LogLevel * string); (* the logger's records *)
}.

Definition with_files (f : gmap string bytes) (w : World) : World :=
  {| env := env w; files := f; blobs := blobs w; clock := clock w;
     entropy := entropy w; oracle := oracle w; trace := trace w;
     logs := logs w |}.

Definition with_blobs (b : list Blob) (w : World) : World :=
  {| env := env w; files := files w; blobs := b; clock := clock w;
     entropy := entropy w; oracle := oracle w; trace := trace w;
     logs := logs w |}.

Definition with_clock (t : Z) (w : World) : World :=
  {| env := env w; files := files w; blobs := blobs w; clock := t;
     entropy := entropy w; oracle := oracle w; trace := trace w;
     logs := logs w |}.

Definition with_entropy (r : list bytes) (w : World) : World :=
  {| env := env w; files := files w; blobs := blobs w; clock := clock w;
     entropy := r; oracle := oracle w; trace := trace w; logs := logs w |}.

Definition with_oracle (o : list Outcome) (w : World) : World :=
  {| env := env w; files := files w; blobs := blobs w; clock := clock w;
     entropy := entropy w; oracle := o; trace := trace w; logs := logs w |}.

Definition with_trace (t : list Event) (w : World) : World :=
  {| env := env w; files := files w; blobs := blobs w; clock := clock w;
     entropy := entropy w; oracle := oracle w; trace := t; logs := logs w |}.

Definition with_logs (l : list (LogLevel * string)) (w : World) : World :=
  {| env := env w; files := files w; blobs := blobs w; clock := clock w;
     entropy := entropy w; oracle := oracle w; trace := trace w; logs := l |}.

(** ** The state-and-exception monad *)

Definition M (A : Type) : Type := World -> Res A * World.

Definition ret {A} (a : A) : M A := fun w => (Ok a, w).

Definition throw {A} (e : Error) : M A := fun w => (Err e, w).

Definition bind {A B} (m : M A) (k : A -> M B) : M B :=
  fun w =>
    match m w with
    | (Ok a, w') => k a w'
    | (Err e, w') => (Err e, w')
    end.

(** [try { m } catch (err) { handler(err) }] *)
Definition try_catch {A} (m : M A) (handler : Error -> M A) : M A :=
  fun w =>
    match m w with
    | (Ok a, w') => (Ok a, w')
    | (Err e, w') => handler e w'
    end.

Definition lift {A} (r : Res A) : M A := fun w => (r, w).

Notation "'let*' x ':=' m 'in' k" := (bind m (fun x => k))
  (at level 10, x pattern, m at level 100, k at level 200).

(** [for (const x of xs) { body(x) }] *)
Fixpoint for_of {A} (xs : list A) (body : A -> M unit) : M unit :=
  match xs with
  | [] => ret tt
  | x :: rest => let* _ := body x in for_of rest body
  end.

(** ** Collaborators *)

Definition pop_outcome (w : World) : Outcome * World :=
  match oracle w with
  | [] => (Done, w)
  | o :: rest => (o, with_oracle rest w)
  end.

Definition record_call (c : Call) (ok : bool) (w : World) : World :=
  with_trace (trace w ++ [{| ev_call := c; ev_ok := ok |}]) w.

Definition failed {A} (c : Call) (w : World) : Res A * World :=
  (Err (CallFailed c), record_call c false w).

Definition get_env : M Env := fun w => (Ok (env w), w).

(** [Date.now()] and [new Date()] *)
Definition Date_now : M Z := fun w => (Ok (clock w), w).

(** [randomBytes(n)] *)
Definition randomBytes (n : nat) : M bytes :=
  fun w =>
    match entropy w with
    | [] => (Ok (replicate n x00), w)
    | r :: rest => (Ok (take n (r ++ replicate n x00)), with_entropy rest w)
    end.

(** [logger.info], [logger.warn], [logger.error] *)
Definition logger (level : LogLevel) (msg : string) : M unit :=
  fun w => (Ok tt, with_logs (logs w ++ [(level, msg)]) w).

(** *** The blob store

    [blobs] holds the store's objects in the order [list] reports them.  A
    [put] under a path name that is already taken replaces the object; a
    [del] of a path name that is not there completes without effect; a
    listing is a single page; [fetch] of a listed URL returns the stored
    bytes.  Any of the calls can be rejected by the store, as the oracle
    decides. *)

Definition store_url (p : string) : string := "blob://" +:+ p.

Definition has_prefix (pre : string) (b : Blob) : bool :=
  String.prefix pre (pathname b).

Definition named (p : string) (b : Blob) : bool :=
  String.eqb (pathname b) p.

(** [list({ prefix, token })] *)
Definition blob_list (pre : string) : M (list Blob) :=
  fun w =>
    let (o, w1) := pop_outcome w in
    match o with
    | Done => (Ok (List.filter (has_prefix pre) (blobs w1)),
               record_call (CList pre) true w1)
    | _ => failed (CList pre) w1
    end.

(** [put(pathname, body, { token, ... })] *)
Definition blob_put (p : string) (body : bytes) : M unit :=
  fun w =>
    let (o, w1) := pop_outcome w in
    match o with
    | Done =>
        let b := {| pathname := p; url := store_url p;
                    uploadedAt := clock w1; content := body |} in
        (Ok tt,
         record_call (CPut p) true
           (with_blobs
              (List.filter (fun b' => negb (named p b')) (blobs w1) ++ [b])
              w1))
    | _ => failed (CPut p) w1
    end.

(** [del(pathname, { token })]; the module passes path names only. *)
Definition blob_del (p : string) : M unit :=
  fun w =>
    let (o, w1) := pop_outcome w in
    match o with
    | Done =>
        (Ok tt,
         record_call (CDel p) true
           (with_blobs
              (List.filter (fun b => negb (named p b)) (blobs w1)) w1))
    | _ => failed (CDel p) w1
    end.

(** [fetch(url)] followed by reading the whole body. *)
Definition fetch (u : string) : M bytes :=
  fun w =>
    let (o, w1) := pop_outcome w in
    match o with
    | Done =>
        match List.find (fun b => String.eqb (url b) u) (blobs w1) with
        | Some b => (Ok (content b), record_call (CFetch u) true w1)
        | None => failed (CFetch u) w1
        end
    | _ => failed (CFetch u) w1
    end.

(** *** The file system *)

(** [fs.existsSync] *)
Definition fs_existsSync (p : string) : M bool :=
  fun w =>
    (Ok (match files w !! p with Some _ => true | None => false end), w).

(** [fs.readFileSync] *)
Definition fs_readFileSync (p : string) : M bytes :=
  fun w =>
    let (o, w1) := pop_outcome w in
    match o, files w1 !! p with
    | Done, Some d => (Ok d, record_call (CRead p) true w1)
    | _, _ => failed (CRead p) w1
    end.

(** [fs.unlinkSync] *)
Definition fs_unlinkSync (p : string) : M unit :=
  fun w =>
    let (o, w1) := pop_outcome w in
    match o, files w1 !! p with
    | Done, Some _ =>
        (Ok tt, record_call (CUnlink p) true
                  (with_files (delete p (files w1)) w1))
    | _, _ => failed (CUnlink p) w1
    end.

(** [fs.copyFileSync]: an existing destination is overwritten. *)
Definition fs_copyFileSync (src dst : string) : M unit :=
  fun w =>
    let (o, w1) := pop_outcome w in
    match o, files w1 !! src with
    | Done, Some d =>
        (Ok tt, record_call (CCopy src dst) true
                  (with_files (<[dst := d]> (files w1)) w1))
    | FailsAfter k, Some d =>
        failed (CCopy src dst) (with_files (<[dst := take k d]> (files w1)) w1)
    | _, _ => failed (CCopy src dst) w1
    end.

(** [fs.writeFileSync] *)
Definition fs_writeFileSync (p : string) (data : bytes) : M unit :=
  fun w =>
    let (o, w1) := pop_outcome w in
    match o with
    | Done =>
        (Ok tt, record_call (CWrite p) true
                  (with_files (<[p := data]> (files w1)) w1))
    | FailsAfter k =>
        failed (CWrite p) (with_files (<[p := take k data]> (files w1)) w1)
    | Fails => failed (CWrite p) w1
    end.

(** ** Calendar arithmetic of [Date] *)

Definition MS_PER_DAY : Z := 1000 * 60 * 60 * 24.

(** Day number (days since 1970-01-01) of an instant in local time. *)
Definition local_day `{NodeLib} (t : Z) : Z := (t + local_offset t) / MS_PER_DAY.

(** The civil date (year, month, day of month) of a day number in the
    proleptic Gregorian calendar. *)
Definition civil_from_days (z : Z) : Z * Z * Z :=
  let z := z + 719468 in
  let era := z / 146097 in
  let doe := z - era * 146097 in
  let yoe := (doe - doe / 1460 + doe / 36524 - doe / 146096) / 365 in
  let doy := doe - (365 * yoe + yoe / 4 - yoe / 100) in
  let mp := (5 * doy + 2) / 153 in
  let d := doy - (153 * mp + 2) / 5 + 1 in
  let m := if mp <? 10 then mp + 3 else mp - 9 in
  let y := yoe + era * 400 + (if m <=? 2 then 1 else 0) in
  (y, m, d).

(** The inverse: the day number of a civil date. *)
Definition days_from_civil (y m d : Z) : Z :=
  let y := if m <=? 2 then y - 1 else y in
  let era := y / 400 in
  let yoe := y - era * 400 in
  let doy := (153 * (if m >? 2 then m - 3 else m + 9) + 2) / 5 + d - 1 in
  let doe := yoe * 365 + yoe / 4 - yoe / 100 + doy in
  era * 146097 + doe - 719468.

(** [date.getDay()]: 0 is Sunday (1970-01-01 was a Thursday). *)
Definition getDay `{NodeLib} (t : Z) : Z := (local_day t + 4) mod 7.

(** [date.getDate()]: the day of the month, 1 to 31. *)
Definition getDate `{NodeLib} (t : Z) : Z := snd (civil_from_days (local_day t)).

(** ** The module's operations *)

Section Operations.
Context `{NodeLib}.

(** [STORE_DIR] is imported from [config.ts]. *)
Variable STORE_DIR : string.

(** [path.join(dir, name)] for a normalised [dir]. *)
Definition path_join (dir name : string) : string := dir +:+ "/" +:+ name.

Definition dbPath : string := path_join STORE_DIR "messages.db".
Definition backupPath : string := path_join STORE_DIR "messages.backup.tmp".

(** *** SQLite *)

(** [new Database(path)]: the file is created empty when absent. *)
Definition sqlite_open (p : string) : M unit :=
  fun w =>
    let (o, w1) := pop_outcome w in
    match o with
    | Done =>
        (Ok tt, record_call (CSqliteOpen p) true
                  (match files w1 !! p with
                   | Some _ => w1
                   | None => with_files (<[p := []]> (files w1)) w1
                   end))
    | _ => failed (CSqliteOpen p) w1
    end.

(** [sourceDb.exec(`VACUUM INTO '${dst}'`)]: refused when [dst] already
    holds a non-empty file. *)
Definition sqlite_vacuum_into (src dst : string) : M unit :=
  fun w =>
    let (o, w1) := pop_outcome w in
    match files w1 !! dst, files w1 !! src, o with
    | Some (_ :: _), _, _ => failed (CVacuumInto dst) w1
    | _, Some d, Done =>
        (Ok tt, record_call (CVacuumInto dst) true
                  (with_files (<[dst := sqlite_image d]> (files w1)) w1))
    | _, Some d, FailsAfter k =>
        failed (CVacuumInto dst)
               (with_files (<[dst := take k (sqlite_image d)]> (files w1)) w1)
    | _, _, _ => failed (CVacuumInto dst) w1
    end.

(** *** [encrypt] and [decrypt] *)

Definition encrypt (buffer : bytes) : M bytes :=
  let* iv := randomBytes 16 in
  let* e := get_env in
  lift (encrypt_with (getBackupKey e) iv buffer).

Definition decrypt (encrypted : bytes) : M bytes :=
  let* e := get_env in
  lift (decrypt_with (getBackupKey e) encrypted).

(** The gunzip promise of [restoreFromBackup]. *)
Definition gunzip_promise (compressed : bytes) : M bytes :=
  match gunzip compressed with
  | Some b => ret b
  | None => throw ZlibError
  end.

(** *** [createSafeBackup] *)

(** Lines 100-122: checksum, compress, encrypt, build the metadata. *)
Definition encodeBackup (backupBuffer : bytes)
  : M (bytes * BackupMetadata) :=
  let checksum := sha256 backupBuffer in
  let compressed := gzip9 backupBuffer in
  let* encrypted := encrypt compressed in
  let* now := Date_now in
  let metadata := {| version := "1.0";
                     timestamp := toISOString now;
                     size := length backupBuffer;
                     checksum := checksum;
                     sqliteVersion := "3.x" |} in
  ret (encrypted, metadata).

Definition createSafeBackup : M (bytes * BackupMetadata) :=
  try_catch
    (let* _ := sqlite_open dbPath in
     let* _ := sqlite_vacuum_into dbPath backupPath in
     let* backupBuffer := fs_readFileSync backupPath in
     let* (encrypted, metadata) := encodeBackup backupBuffer in
     let* _ := fs_unlinkSync backupPath in
     let* _ := logger Info "Backup created successfully" in
     ret (encrypted, metadata))
    (fun err =>
       let* leftover := fs_existsSync backupPath in
       let* _ := if leftover then fs_unlinkSync backupPath else ret tt in
       throw err).

(** *** [uploadBackup] *)

(** [s.split('T')[0]] *)
Fixpoint before_T (s : string) : string :=
  match s with
  | EmptyString => EmptyString
  | String c s' => if Ascii.eqb c "T" then EmptyString
                   else String c (before_T s')
  end.

Definition META_SUFFIX : string := ".meta.json".

Definition uploadBackup : M unit :=
  let* (buffer, metadata) := createSafeBackup in
  let* date := Date_now in
  let dateStr := before_T (toISOString date) in
  let* now := Date_now in
  let filename :=
    BACKUP_PREFIX +:+ "/daily/" +:+ dateStr +:+ "_" +:+ pretty now +:+ ".db" in
  let* e := get_env in
  let token := getBlobToken e in
  if token_missing token then throw TokenNotConfigured else
  let* _ := blob_put filename buffer in
  let* _ := blob_put (filename +:+ META_SUFFIX) (JSON_stringify metadata) in
  logger Info "Backup uploaded to Vercel Blob".

(** *** [restoreFromBackup] *)

(** [arr.sort(cmp)]: a stable sort; [cmp a b <= 0] keeps [a] first. *)
Fixpoint js_insert {A} (cmp : A -> A -> Z) (x : A) (l : list A) : list A :=
  match l with
  | [] => [x]
  | y :: l' => if cmp x y <=? 0 then x :: l else y :: js_insert cmp x l'
  end.

Definition js_sort {A} (cmp : A -> A -> Z) (l : list A) : list A :=
  foldr (js_insert cmp) [] l.

Definition newest_first (a b : Blob) : Z := uploadedAt b - uploadedAt a.

Definition is_meta (b : Blob) : bool := endsWith (pathname b) META_SUFFIX.

(** Lines 233-259: decrypt, decompress, verify the checksum when
    metadata is present, verify the file header. *)
Definition decodeBackup (encrypted : bytes)
           (metadata : option BackupMetadata) : M bytes :=
  let* compressed := decrypt encrypted in
  let* dbBuffer := gunzip_promise compressed in
  let* _ :=
    match metadata with
    | Some m =>
        let actualChecksum := sha256 dbBuffer in
        if negb (String.eqb actualChecksum (checksum m))
        then throw ChecksumMismatch
        else logger Info "Checksum verification passed"
    | None => ret tt
    end in
  let header := toString_utf8 (buf_slice 0 16 dbBuffer) in
  if negb (startsWith header (js_lit "SQLite format 3"))
  then throw InvalidSqliteFormat
  else ret dbBuffer.

(** Lines 261-271: keep a copy of the live file, then overwrite it. *)
Definition installBackup (dbBuffer : bytes) : M unit :=
  let* present := fs_existsSync dbPath in
  let* _ :=
    if present then
      let* now := Date_now in
      let localBackup := dbPath +:+ ".bak." +:+ pretty now in
      let* _ := fs_copyFileSync dbPath localBackup in
      logger Info "Current database backed up locally"
    else ret tt in
  let* _ := fs_writeFileSync dbPath dbBuffer in
  logger Info "Database restored successfully".

(** Lines 194-208: the key to restore.  A missing or empty [filename] is
    falsy.  The sorted array has the length of [dbBlobs], so its empty
    case below is never reached. *)
Definition resolveTarget (filename : option string) : M string :=
  match filename with
  | Some ((String _ _) as f) => ret f
  | _ =>
      let* listed := blob_list (BACKUP_PREFIX +:+ "/daily/") in
      let dbBlobs := List.filter (fun b => negb (is_meta b)) listed in
      match dbBlobs with
      | [] => throw NoBackupFound
      | _ :: _ =>
          match js_sort newest_first dbBlobs with
          | b :: _ => ret (pathname b)
          | [] => throw NoBackupFound
          end
      end
  end.

(** Lines 213-231: the artifact and, when present, its metadata. *)
Definition downloadBackup (targetFile : string)
  : M (bytes * option BackupMetadata) :=
  let* listed := blob_list targetFile in
  match listed with
  | [] => throw (BackupNotFound targetFile)
  | backupBlob :: _ =>
      let metaBlob := List.find (named (targetFile +:+ META_SUFFIX)) listed in
      let* metadata :=
        match metaBlob with
        | Some mb =>
            let* body := fetch (url mb) in
            match JSON_parse body with
            | Some m => ret m
            | None => throw JsonSyntaxError
            end
        | None => ret None
        end in
      let* encrypted := fetch (url backupBlob) in
      ret (encrypted, metadata)
  end.

Definition restoreFromBackup (filename : option string) : M unit :=
  let* e := get_env in
  let token := getBlobToken e in
  if token_missing token then throw TokenNotConfigured else
  let* targetFile := resolveTarget filename in
  let* _ := logger Info "Starting restore" in
  let* (encrypted, metadata) := downloadBackup targetFile in
  let* dbBuffer := decodeBackup encrypted metadata in
  installBackup dbBuffer.

(** *** [cleanupOldBackups] *)

(** [a < b] on quotients. *)
Definition Qltb (a b : Q) : bool := negb (Qle_bool b a).

(** [(now.getTime() - uploadDate.getTime()) / (1000 * 60 * 60 * 24)].  The
    source takes the quotient in double precision and compares it with 7,
    28 and 365 only; for whole millisecond counts those comparisons agree
    with the ones on the exact quotient, because 1/86400000 is far above
    the spacing of doubles near 365. *)
Definition ageDays (now uploadDate : Z) : Q :=
  Qmake (now - uploadDate) (Z.to_pos MS_PER_DAY).

Definition shouldKeep (now : Z) (blob : Blob) : bool :=
  let uploadDate := uploadedAt blob in
  let age := ageDays now uploadDate in
  let isWeekly := getDay uploadDate =? 0 in
  let isMonthly := getDate uploadDate =? 1 in
  Qltb age (7 # 1)
  || (isWeekly && Qltb age (28 # 1))
  || (isMonthly && Qltb age (365 # 1)).

(** The first loop: collect the keys to delete. *)
Definition collectDeletions (now : Z) (dbBlobs : list Blob) : list string :=
  fold_left
    (fun toDelete blob =>
       if negb (shouldKeep now blob)
       then toDelete ++ [pathname blob; pathname blob +:+ META_SUFFIX]
       else toDelete)
    dbBlobs [].

(** The second loop: delete them one by one. *)
Definition deleteAll (toDelete : list string) : M unit :=
  for_of toDelete (fun p =>
    try_catch
      (let* _ := blob_del p in logger Info "Deleted old backup")
      (fun err => logger Warn "Failed to delete backup")).

Definition cleanupOldBackups : M unit :=
  let* e := get_env in
  let token := getBlobToken e in
  if token_missing token then
    logger Warn "BLOB_READ_WRITE_TOKEN not configured, skipping cleanup"
  else
    let* listed := blob_list BACKUP_PREFIX in
    let dbBlobs := List.filter (fun b => negb (is_meta b)) listed in
    let* now := Date_now in
    let toDelete := collectDeletions now dbBlobs in
    let* _ := deleteAll toDelete in
    logger Info "Backup cleanup complete".

(** *** [verifyLatestBackup]

    As in [resolveTarget], the empty case of the sorted array is never
    reached. *)

Definition verifyLatestBackup : M bool :=
  let* e := get_env in
  let token := getBlobToken e in
  if token_missing token then ret false else
  try_catch
    (let* listed := blob_list (BACKUP_PREFIX +:+ "/daily/") in
     let dbBlobs := List.filter (fun b => negb (is_meta b)) listed in
     match dbBlobs with
     | [] =>
         let* _ := logger Warn "No backups found to verify" in
         ret false
     | _ :: _ =>
         match js_sort newest_first dbBlobs with
         | latest :: _ =>
             let* encrypted := fetch (url latest) in
             let* _ := decrypt encrypted in
             let* _ := logger Info "Backup verification passed" in
             ret true
         | [] => throw NoBackupFound
         end
     end)
    (fun err =>
       let* _ := logger LogError "Backup verification failed" in
       ret false).

End Operations.

(** ** The vocabulary of the statements *)

(** A code unit of the ASCII range. *)
Definition ascii_unit (u : N) : Prop := (u < 0x80)%N.

(** [k] days, in milliseconds. *)
Definition days (k : Z) : Z := k * MS_PER_DAY.

(** The calls that go to the blob store, and the ones that stay local. *)
Definition is_net_call (c : Call) : bool :=
  match c with
  | CList _ | CPut _ | CDel _ | CFetch _ => true
  | _ => false
  end.

Definition net_calls (tr : list Event) : list Event :=
  List.filter (fun e => is_net_call (ev_call e)) tr.

Definition fs_calls (tr : list Event) : list Event :=
  List.filter (fun e => negb (is_net_call (ev_call e))) tr.

(** [w'] differs from [w] by reads of the store and log records only. *)
Definition reads_only (w w' : World) : Prop :=
  env w' = env w /\ files w' = files w /\ blobs w' = blobs w /\
  clock w' = clock w /\ fs_calls (trace w') = fs_calls (trace w).

(** [w'] differs from [w] by local work only: no call to the store. *)
Definition offline (w w' : World) : Prop :=
  env w' = env w /\ blobs w' = blobs w /\ clock w' = clock w /\
  net_calls (trace w') = net_calls (trace w).

(** The trace of [w'] continues the trace of [w]. *)
Definition extends (w w' : World) : Prop :=
  exists evs, trace w' = trace w ++ evs.

(** [m] relates every world to the world it leaves, whatever it returns. *)
Definition keeps (R : relation World) {A} (m : M A) : Prop :=
  forall w, R w (snd (m w)).

(** Every error [m] can throw satisfies [P]. *)
Definition raises (P : Error -> Prop) {A} (m : M A) : Prop :=
  forall w e w', m w = (Err e, w') -> P e.

(** Trace entries of a completed and of a failed call. *)
Definition call_ok (c : Call) : Event := {| ev_call := c; ev_ok := true |}.

Definition call_failed (c : Call) : Event := {| ev_call := c; ev_ok := false |}.

(** The errors the decode step can raise. *)
Definition decode_error (e : Error) : Prop :=
  match e with
  | CryptoInvalidKeyLength | CryptoInvalidIV | CryptoInvalidTagLength _
  | CryptoAuthFailed        (* decryption *)
  | ZlibError               (* decompression *)
  | ChecksumMismatch        (* checksum cross-check *)
  | InvalidSqliteFormat     (* header magic *)
      => True
  | _ => False
  end.

(** The next fallible call completes. *)
Definition next_done (w : World) : bool :=
  match oracle w with
  | [] | Done :: _ => true
  | _ => false
  end.

(** The world once the pending outcome is consumed. *)
Definition advance (w : World) : World := with_oracle (tail (oracle w)) w.

(** The body [fetch] returns for a URL. *)
Definition body_at (w : World) (u : string) : option bytes :=
  option_map content (List.find (fun b => String.eqb (url b) u) (blobs w)).

(** [`${BACKUP_PREFIX}/daily/`] *)
Definition DAILY_PREFIX : string := BACKUP_PREFIX +:+ "/daily/".

(** The daily artifacts a listing shows: the metadata keys are left out. *)
Definition daily_artifacts (w : World) : list Blob :=
  List.filter (fun b => negb (is_meta b))
              (List.filter (has_prefix DAILY_PREFIX) (blobs w)).

(** A blob is stored under key [p]. *)
Definition stored (p : string) (bs : list Blob) : Prop :=
  exists b, In b bs /\ pathname b = p.

(** Every artifact key has its metadata key, and conversely. *)
Definition paired (bs : list Blob) : Prop :=
  forall k, endsWith k META_SUFFIX = false ->
            (stored k bs <-> stored (k +:+ META_SUFFIX) bs).

(** The object a [put] creates at the clock of [w]. *)
Definition new_blob (p : string) (body : bytes) (w : World) : Blob :=
  {| pathname := p; url := store_url p; uploadedAt := clock w;
     content := body |}.

(** The store after a successful [put]. *)
Definition put_blob (b : Blob) (bs : list Blob) : list Blob :=
  List.filter (fun b' => negb (named (pathname b) b')) bs ++ [b].

(** The store after successful [del]s of every key of [l]. *)
Definition del_blobs (l : list string) (bs : list Blob) : list Blob :=
  List.filter (fun b => negb (existsb (String.eqb (pathname b)) l)) bs.

(** A remote write (put or delete) recorded in the trace succeeded. *)
Definition write_ok (e : Event) : Prop :=
  match ev_call e with
  | CPut _ | CDel _ => ev_ok e = true
  | _ => True
  end.

Section StatementVocabulary.
Context `{NodeLib}.
Variable STORE_DIR : string.

(** The path of the safety copy a restore makes at the clock of [w]. *)
Definition safetyPath (w : World) : string :=
  dbPath STORE_DIR +:+ ".bak." +:+ pretty (clock w).

(** The retention rule as the policy words it: younger than 7 days, or
    dated on a Sunday and younger than 28 days, or dated on the 1st and
    younger than 365 days. *)
Definition keep_rule (now : Z) (blob : Blob) : Prop :=
  let age := now - uploadedAt blob in
  age < days 7
  \/ (getDay (uploadedAt blob) = 0 /\ age < days 28)
  \/ (getDate (uploadedAt blob) = 1 /\ age < days 365).

(** The keys one artifact contributes to the deletion list. *)
Definition marked (now : Z) (blob : Blob) : list string :=
  if shouldKeep now blob then []
  else [pathname blob; pathname blob +:+ META_SUFFIX].

(** What a run of lines 261-271 can do when the live file exists: both
    calls complete, or the copy fails, or the copy completes and the
    write fails. *)
Definition install_outcome (dbBuffer old : bytes) (w : World)
           (r : Res unit) (w' : World) : Prop :=
  let live := dbPath STORE_DIR in
  let safety := safetyPath w in
  match r with
  | Ok _ =>
      fs_calls (trace w') =
        fs_calls (trace w)
        ++ [call_ok (CCopy live safety); call_ok (CWrite live)] /\
      files w' = <[live := dbBuffer]> (<[safety := old]> (files w))
  | Err e =>
      (e = CallFailed (CCopy live safety) /\
       fs_calls (trace w') =
         fs_calls (trace w) ++ [call_failed (CCopy live safety)] /\
       files w' !! live = Some old)
      \/
      (e = CallFailed (CWrite live) /\
       fs_calls (trace w') =
         fs_calls (trace w)
         ++ [call_ok (CCopy live safety); call_failed (CWrite live)] /\
       files w' !! safety = Some old)
  end.

(** What makes [verifyLatestBackup] answer [true]: the token is set, the
    listing and the download complete, and the newest daily artifact
    decrypts under the key.  Nothing is said about decompression, the
    checksum or the file header. *)
Definition verify_passes (w : World) : Prop :=
  token_missing (getBlobToken (env w)) = false /\
  next_done w = true /\
  next_done (advance w) = true /\
  exists latest rest body compressed,
    js_sort newest_first (daily_artifacts w) = latest :: rest /\
    body_at w (url latest) = Some body /\
    decrypt_with (getBackupKey (env w)) body = Ok compressed.

End StatementVocabulary.

(** The scheduler's steps: an upload, a cleanup, or time passing. *)
Inductive Op :=
| OpUpload
| OpCleanup
| OpWait (ms : Z).

Definition run_op `{NodeLib} (STORE_DIR : string) (o : Op) (w : World)
  : World :=
  match o with
  | OpUpload => snd (uploadBackup STORE_DIR w)
  | OpCleanup => snd (cleanupOldBackups w)
  | OpWait ms => with_clock (clock w + ms) w
  end.

Definition run_ops `{NodeLib} (STORE_DIR : string) (ops : list Op) (w : World)
  : World :=
  fold_left (fun w o => run_op STORE_DIR o w) ops w.

(** ** More vocabulary

    Names used by the statements about single operations and about their
    composition. *)

(** The artifacts [cleanupOldBackups] looks at: every listed key under
    [BACKUP_PREFIX] that is not a metadata key. *)
Definition cleanup_listing (w : World) : list Blob :=
  List.filter (fun b => negb (is_meta b))
              (List.filter (has_prefix BACKUP_PREFIX) (blobs w)).

(** The calls that change the blob store. *)
Definition is_store_write (c : Call) : bool :=
  match c with
  | CPut _ | CDel _ => true
  | _ => false
  end.

Definition store_writes (tr : list Event) : list Event :=
  List.filter (fun e => is_store_write (ev_call e)) tr.

(** [w'] differs from [w] by no change of the store: no put, no delete. *)
Definition store_kept (w w' : World) : Prop :=
  blobs w' = blobs w /\ store_writes (trace w') = store_writes (trace w).

(** Every object carries the URL the store gave it when it was put. *)
Definition canonical_urls (bs : list Blob) : Prop :=
  forall b, In b bs -> url b = store_url (pathname b).

(** The key [uploadBackup] stores the artifact under at the clock of [w]:
    [`${BACKUP_PREFIX}/daily/${dateStr}_${Date.now()}.db`]. *)
Definition upload_key `{NodeLib} (w : World) : string :=
  BACKUP_PREFIX +:+ "/daily/" +:+ before_T (toISOString (clock w))
  +:+ "_" +:+ pretty (clock w) +:+ ".db".

(** The metadata record [createSafeBackup] builds for a snapshot taken at
    [now]. *)
Definition snapshot_metadata `{NodeLib} (now : Z) (image : bytes)
  : BackupMetadata :=
  {| version := "1.0";
     timestamp := toISOString now;
     size := length image;
     checksum := sha256 image;
     sqliteVersion := "3.x" |}.

(** The JSON text of [m] parses back to a record with the checksum of
    [m]. *)
Definition reads_back `{NodeLib} (m : BackupMetadata) : Prop :=
  exists m', JSON_parse (JSON_stringify m) = Some (Some m') /\
             checksum m' = checksum m.

Section SnapshotVocabulary.
Variable STORE_DIR : string.

(** What a snapshot may do to the local files: any path but the temporary
    file keeps its content, and the only path that can appear is the live
    database, which [new Database] creates when it is absent. *)
Definition snapshot_frame (w w' : World) : Prop :=
  forall p, p <> backupPath STORE_DIR ->
    (p <> dbPath STORE_DIR -> files w' !! p = files w !! p) /\
    (forall d, files w !! p = Some d -> files w' !! p = Some d).

End SnapshotVocabulary.

(** ** The scheduler ([src/backup-scheduler.ts])

    The callers of [uploadBackup], [cleanupOldBackups] and
    [verifyLatestBackup].  The git half of the scheduler lives in
    [git-backup.ts] and the reading of the .env file in [env.ts]; what the
    scheduler takes from them, and [parseInt], are the operations of the
    class below, about which nothing is assumed.  [startBackupScheduler]
    arms interval timers and is not modelled. *)

Record SchedulerEnv := {
  ENABLE_SQLITE_BACKUP : option string;
  SQLITE_BACKUP_INTERVAL : option string;
  GIT_BACKUP_REPO : option string;
  GIT_BACKUP_INTERVAL : option string;
}.

Record BackupConfig := {
  sqliteEnabled : bool;
  sqliteIntervalMinutes : option Z;   (* [None] is NaN *)
  gitEnabled : bool;
  gitIntervalMinutes : option Z;
}.

Record GitBackupStatus := {
  hasChanges : bool;
  lastCommit : option string;
}.

Class SchedulerDeps := {
  (** What [readEnvFile] returns for the scheduler's four keys. *)
  scheduler_env : World -> SchedulerEnv;
  (** [parseInt(s, 10)] *)
  parseInt10 : string -> option Z;
  (** [isGitBackupConfigured()] *)
  isGitBackupConfigured : M bool;
  (** [backupToGit()] *)
  backupToGit : M unit;
  (** [getGitBackupStatus()], reached through a dynamic import. *)
  getGitBackupStatus : M GitBackupStatus;
}.

(** [a || b] on strings where [a] may be [undefined]. *)
Definition str_or (a : option string) (b : string) : string :=
  match a with
  | Some ((String _ _) as s) => s
  | _ => b
  end.

(** [a === 'true'] where [a] may be [undefined]. *)
Definition is_literally_true (a : option string) : bool :=
  match a with
  | Some s => String.eqb s "true"
  | None => false
  end.

(** The object [getBackupStatus] returns. *)
Record SqliteStatus := {
  sqlite_enabled : bool;
  sqlite_verified : bool;
}.

Record GitStatus := {
  git_enabled : bool;
  git_hasChanges : bool;
  git_lastCommit : option string;
}.

Record BackupStatus := {
  status_sqlite : SqliteStatus;
  status_git : GitStatus;
}.

Section Scheduler.
Context `{NodeLib} `{SchedulerDeps}.
Variable STORE_DIR : string.

(** [getConfig] *)
Definition getConfig : M BackupConfig :=
  let* e := (fun w => (Ok (scheduler_env w), w)) in
  let sqlite := is_literally_true (ENABLE_SQLITE_BACKUP e) in
  let sqliteInterval := parseInt10 (str_or (SQLITE_BACKUP_INTERVAL e) "60") in
  let* git := isGitBackupConfigured in
  let gitInterval := parseInt10 (str_or (GIT_BACKUP_INTERVAL e) "30") in
  ret {| sqliteEnabled := sqlite;
         sqliteIntervalMinutes := sqliteInterval;
         gitEnabled := git;
         gitIntervalMinutes := gitInterval |}.

(** Lines 50-58 of [runFullBackup]: the SQLite half. *)
Definition sqliteBackupStep : M unit :=
  try_catch
    (let* _ := uploadBackup STORE_DIR in
     let* _ := cleanupOldBackups in
     logger Info "SQLite backup completed")
    (fun err => logger LogError "SQLite backup failed").

(** Lines 61-68: the git half. *)
Definition gitBackupStep : M unit :=
  try_catch
    (let* _ := backupToGit in
     logger Info "Git backup completed")
    (fun err => logger LogError "Git backup failed").

(** [runFullBackup] *)
Definition runFullBackup : M unit :=
  let* config := getConfig in
  let* _ := logger Info "Starting full backup" in
  let* _ := if sqliteEnabled config then sqliteBackupStep else ret tt in
  let* _ := if gitEnabled config then gitBackupStep else ret tt in
  logger Info "Full backup completed".

(** [getBackupStatus] *)
Definition getBackupStatus : M BackupStatus :=
  let* config := getConfig in
  let* verified :=
    if sqliteEnabled config then verifyLatestBackup else ret false in
  let* (changes, commit) :=
    if gitEnabled config then
      let* gitStatus := getGitBackupStatus in
      ret (hasChanges gitStatus, lastCommit gitStatus)
    else ret (false, None) in
  ret {| status_sqlite := {| sqlite_enabled := sqliteEnabled config;
                             sqlite_verified := verified |};
         status_git := {| git_enabled := gitEnabled config;
                          git_hasChanges := changes;
                          git_lastCommit := commit |} |}.

End Scheduler.

(** ** A small stand-in for the runtime libraries

    The instance below satisfies the guarantees listed above and computes
    inside Rocq.  It is used only to run the module on concrete worlds;
    every general theorem is stated for an arbitrary [NodeLib]. *)

Module Ref.

Definition mix (bs : bytes) : N :=
  fold_right (fun b acc => N.lxor (Byte.to_N b) acc) 0%N bs.

Definition ctr (key iv data : bytes) : bytes :=
  map (fun b => byte_of_N (N.lxor (Byte.to_N b) (mix (key ++ iv)))) data.

Definition tag (key iv data : bytes) : bytes :=
  map (fun i => byte_of_N (mix (key ++ iv ++ data) + N.of_nat i))
      (seq 0 16).

Definition digest (b : bytes) : string :=
  pretty (fold_right (fun x acc => (Byte.to_N x + 31 * acc) mod 65521)%N
                     1%N b).

Definition deflate (b : bytes) : bytes := x1f :: x8b :: b.

Definition inflate (b : bytes) : option bytes :=
  match b with
  | x1f :: x8b :: rest => Some rest
  | _ => None
  end.

Definition stringify (m : BackupMetadata) : bytes :=
  list_byte_of_string (checksum m).

Definition parse (b : bytes) : option (option BackupMetadata) :=
  match b with
  | [] => Some None
  | x7b :: _ => None
  | _ => Some (Some {| version := "1.0"; timestamp := EmptyString;
                       size := 0; checksum := string_of_list_byte b;
                       sqliteVersion := "3.x" |})
  end.

Definition pad (width : nat) (n : Z) : string :=
  let s := pretty n in
  string_of_list_ascii
    (replicate (width - String.length s) "0"%char) +:+ s.

(** [toISOString] for years 0 to 9999. *)
Definition iso (t : Z) : string :=
  let '(y, m, d) := civil_from_days (t / MS_PER_DAY) in
  let ms := t mod MS_PER_DAY in
  pad 4 y +:+ "-" +:+ pad 2 m +:+ "-" +:+ pad 2 d +:+ "T"
  +:+ pad 2 (ms / 3600000) +:+ ":" +:+ pad 2 (ms / 60000 mod 60) +:+ ":"
  +:+ pad 2 (ms / 1000 mod 60) +:+ "." +:+ pad 3 (ms mod 1000) +:+ "Z".

#[export] Instance lib : NodeLib := {|
  gcm_ctr := ctr;
  gcm_tag := tag;
  sha256_hex := digest;
  gzip9 := deflate;
  gunzip := inflate;
  JSON_stringify := stringify;
  JSON_parse := parse;
  toISOString := iso;
  local_offset := fun _ => 0;
  sqlite_image := fun d => d;
|}.

(** A 32-character key, a token, and a database image to work with. *)
Definition env0 : Env :=
  {| BACKUP_KEY := Some (js_lit "0123456789abcdef0123456789abcdef");
     BLOB_READ_WRITE_TOKEN := Some "vercel_blob_rw_token" |}.

Definition db0 : bytes :=
  list_byte_of_string "SQLite format 3" ++ [x00; x10; x00; x01; x01].

Definition db1 : bytes :=
  list_byte_of_string "SQLite format 3" ++ [x00; x20; x00; x02; x02].

(** 2026-03-15T12:00:00.000Z *)
Definition noon_2026_03_15 : Z :=
  days_from_civil 2026 3 15 * MS_PER_DAY + 12 * 3600000.

Definition world0 : World :=
  {| env := env0;
     files := {[ "store/messages.db" := db0 ]};
     blobs := [];
     clock := noon_2026_03_15;
     entropy := [];
     oracle := [];
     trace := [];
     logs := [] |}.

(** A store holding one artifact whose bytes were never produced by
    [encrypt]. *)
Definition key1 : string := "nanoclaw-backup/daily/2026-03-14_1773489600000.db".

Definition blob_at (p : string) (t : Z) (body : bytes) : Blob :=
  {| pathname := p; url := store_url p; uploadedAt := t; content := body |}.

Definition garbage : bytes := replicate 48 x2a.

Definition world_corrupt : World :=
  with_blobs [blob_at key1 (noon_2026_03_15 - MS_PER_DAY) garbage] world0.

(** The store after one successful [uploadBackup], with a live database
    that has changed since. *)
Definition world_uploaded : World :=
  with_files {[ "store/messages.db" := db1 ]}
             (snd (@uploadBackup lib "store" world0)).

(** An artifact that decrypts under the key but is not a gzip stream. *)
Definition sealed_noise : bytes :=
  match @encrypt_with lib (getBackupKey env0) (replicate 16 x07)
                      [x00; x01; x02] with
  | Ok b => b
  | Err _ => []
  end.

Definition world_undecodable : World :=
  with_blobs [blob_at key1 (noon_2026_03_15 - MS_PER_DAY) sealed_noise]
             world0.

(** A store left with a metadata record whose artifact is gone. *)
Definition world_orphan : World :=
  with_blobs [blob_at (key1 +:+ META_SUFFIX) (noon_2026_03_15 - MS_PER_DAY)
                      (list_byte_of_string "0a1b2c")]
             world0.

(** An upload during which the second [put], the one of the metadata
    record, is refused by the store. *)
Definition world_flaky : World :=
  with_oracle [Done; Done; Done; Done; Done; Fails] world0.

(** The same store seen by a process whose .env has no blob token. *)
Definition env_no_token : Env :=
  {| BACKUP_KEY := BACKUP_KEY env0; BLOB_READ_WRITE_TOKEN := None |}.

Definition world_no_token : World :=
  {| env := env_no_token;
     files := files world0;
     blobs := blobs world_corrupt;
     clock := noon_2026_03_15;
     entropy := [];
     oracle := [];
     trace := [];
     logs := [] |}.

(** The host of [world0] when its .env sets no BACKUP_KEY. *)
Definition env_no_key : Env :=
  {| BACKUP_KEY := None;
     BLOB_READ_WRITE_TOKEN := BLOB_READ_WRITE_TOKEN env0 |}.

Definition world_no_key : World :=
  {| env := env_no_key;
     files := files world0;
     blobs := [];
     clock := noon_2026_03_15;
     entropy := [];
     oracle := [];
     trace := [];
     logs := [] |}.

(** A store with a ten-day-old artifact dated on a Thursday, a one-day-old
    artifact, both with their metadata records, and the metadata record of
    an artifact that is gone; the first delete of the next cleanup is
    refused. *)
Definition key_old : string :=
  "nanoclaw-backup/daily/2026-03-05_1772712000000.db".

Definition key_gone : string :=
  "nanoclaw-backup/daily/2026-01-10_1768046400000.db".

Definition world_stale : World :=
  with_oracle [Done; Fails; Done]
    (with_blobs
       [blob_at key_old (noon_2026_03_15 - days 10) garbage;
        blob_at (key_old +:+ META_SUFFIX) (noon_2026_03_15 - days 10) [];
        blob_at key1 (noon_2026_03_15 - MS_PER_DAY) garbage;
        blob_at (key1 +:+ META_SUFFIX) (noon_2026_03_15 - MS_PER_DAY) [];
        blob_at (key_gone +:+ META_SUFFIX) (noon_2026_03_15 - days 64) []]
       world0).

(** An artifact sealed under the key whose payload is the gzip of a text
    file. *)
Definition notes : bytes := list_byte_of_string "meeting notes".

Definition sealed_notes : bytes :=
  match @encrypt_with lib (getBackupKey env0) (replicate 16 x07)
                      (deflate notes) with
  | Ok b => b
  | Err _ => []
  end.

(** The store after one successful [uploadBackup], seen from a host that
    has no database file yet. *)
Definition world_new_host : World :=
  with_files ∅ (snd (@uploadBackup lib "store" world0)).

(** A host on which an earlier run left its temporary file behind. *)
Definition world_stale_temp : World :=
  with_files (<["store/messages.backup.tmp" := garbage]> (files world0))
             world0.

(** A scheduler configuration with the SQLite backup switched on and no
    git repository. *)
#[export] Instance deps : SchedulerDeps := {|
  scheduler_env := fun _ =>
    {| ENABLE_SQLITE_BACKUP := Some "true";
       SQLITE_BACKUP_INTERVAL := None;
       GIT_BACKUP_REPO := None;
       GIT_BACKUP_INTERVAL := None |};
  parseInt10 := fun s => if String.eqb s "60" then Some 60
                         else if String.eqb s "30" then Some 30 else None;
  isGitBackupConfigured := ret false;
  backupToGit := ret tt;
  getGitBackupStatus := ret {| hasChanges := false; lastCommit := None |};
|}.

End Ref.

(** * Properties *)

(** ** The reference instance meets the library guarantees *)

Lemma byte_of_N_to_N (b : byte) : byte_of_N (Byte.to_N b) = b.
Proof.
  unfold byte_of_N.
  rewrite N.mod_small by (pose proof (Byte.to_N_bounded b); lia).
  now rewrite Byte.of_to_N.
Qed.

Lemma to_N_byte_of_N (n : N) : (n < 256)%N -> Byte.to_N (byte_of_N n) = n.
Proof.
  intros Hn. unfold byte_of_N. rewrite N.mod_small by lia.
  destruct (Byte.of_N n) eqn:E.
  - now apply Byte.to_of_N.
  - apply Byte.of_N_None_iff in E. lia.
Qed.

Lemma lxor_below_256 (a b : N) :
  (a < 256)%N -> (b < 256)%N -> (N.lxor a b < 256)%N.
Proof.
  intros Ha Hb.
  destruct (N.eq_dec (N.lxor a b) 0%N) as [E|E]; [rewrite E; lia|].
  apply N.log2_lt_pow2 with (b := 8%N); [lia|].
  eapply N.le_lt_trans; [apply N.log2_lxor|].
  apply N.max_lub_lt.
  - destruct (N.eq_dec a 0%N) as [Z|Z]; [rewrite Z; simpl; lia|].
    apply N.log2_lt_pow2; lia.
  - destruct (N.eq_dec b 0%N) as [Z|Z]; [rewrite Z; simpl; lia|].
    apply N.log2_lt_pow2; lia.
Qed.

Lemma Ref_mix_bounded (bs : bytes) : (Ref.mix bs < 256)%N.
Proof.
  induction bs as [|b bs IH]; simpl; [lia|].
  pose proof (Byte.to_N_bounded b) as Hb.
  apply lxor_below_256; lia.
Qed.

Lemma Ref_ctr_involutive : @gcm_ctr_involutive Ref.lib.
Proof.
  intros key iv data. simpl. unfold Ref.ctr.
  rewrite map_map. rewrite <- (map_id data) at 2.
  apply map_ext. intros b.
  pose proof (Ref_mix_bounded (key ++ iv)) as Hm.
  pose proof (Byte.to_N_bounded b) as Hb.
  rewrite to_N_byte_of_N by (apply lxor_below_256; lia).
  rewrite N.lxor_assoc, N.lxor_nilpotent, N.lxor_0_r.
  apply byte_of_N_to_N.
Qed.

Lemma Ref_tag_full_length : @gcm_tag_full_length Ref.lib.
Proof. intros key iv data. reflexivity. Qed.

Lemma Ref_gunzip_gzip9 : @gunzip_gzip9 Ref.lib.
Proof. intros b. reflexivity. Qed.

(** ** The encryption key *)

Lemma Buffer_from_ascii (s : jsstring) :
  Forall ascii_unit s -> Buffer_from s = map byte_of_N s.
Proof.
  induction 1 as [|u s Hu Hs IH]; [reflexivity|].
  unfold ascii_unit in Hu. cbn [Buffer_from map].
  assert (is_high_surrogate u = false) as ->.
  { unfold is_high_surrogate. apply andb_false_intro1. apply N.leb_gt. lia. }
  assert (is_low_surrogate u = false) as ->.
  { unfold is_low_surrogate. apply andb_false_intro1. apply N.leb_gt. lia. }
  unfold utf8_of_code_point.
  assert ((u <? 128)%N = true) as -> by (apply N.ltb_lt; lia).
  simpl. now rewrite IH.
Qed.

Lemma padEnd_length (n : nat) (c : N) (s : jsstring) :
  length (padEnd n [c] s) = Nat.max n (length s).
Proof.
  unfold padEnd. rewrite length_app, length_take.
  assert (length (concat (replicate (n - length s) [c])) = (n - length s)%nat)
    as ->.
  { induction (n - length s)%nat as [|m IH]; simpl; [reflexivity|].
    now rewrite IH. }
  lia.
Qed.

Lemma padEnd_ascii (n : nat) (c : N) (s : jsstring) :
  ascii_unit c -> Forall ascii_unit s -> Forall ascii_unit (padEnd n [c] s).
Proof.
  intros Hc Hs. unfold padEnd. apply Forall_app. split; [exact Hs|].
  apply Forall_take.
  induction (n - length s)%nat as [|m IH]; simpl; [constructor|].
  constructor; assumption.
Qed.

(** A supplied key made of ASCII characters yields exactly 32 bytes: the
    value is padded with '0' or truncated. *)
Lemma getBackupKey_ascii_is_32_bytes (e : Env) (k : jsstring) :
  BACKUP_KEY e = Some k ->
  Forall ascii_unit k ->
  length (getBackupKey e) = 32%nat.
Proof.
  intros Hk Hascii. unfold getBackupKey. rewrite Hk. cbn [option_map].
  set (t := str_slice0 32 (padEnd 32 (js_lit "0") k)).
  assert (length t = 32%nat) as Hlen.
  { unfold t, str_slice0. rewrite length_take.
    change (js_lit "0") with [48%N]. rewrite padEnd_length. lia. }
  assert (Forall ascii_unit t) as Ht.
  { unfold t, str_slice0. apply Forall_take.
    change (js_lit "0") with [48%N]. apply padEnd_ascii; [|exact Hascii].
    unfold ascii_unit. lia. }
  destruct t as [|u t']; [discriminate Hlen|].
  cbn [js_or]. rewrite Buffer_from_ascii by exact Ht.
  now rewrite length_map.
Qed.

Lemma getBackupKey_ascii_is_32_bytes_witness :
  length (getBackupKey Ref.env0) = 32%nat.
Proof.
  apply (getBackupKey_ascii_is_32_bytes Ref.env0
           (js_lit "0123456789abcdef0123456789abcdef")).
  - reflexivity.
  - unfold ascii_unit. repeat constructor.
Defined.

(** A supplied key with a character outside ASCII is padded to 32 code
    units and then encoded to more than 32 bytes. *)
Example getBackupKey_non_ascii :
  length (getBackupKey {| BACKUP_KEY := Some [0xE9%N];
                          BLOB_READ_WRITE_TOKEN := None |}) = 33%nat.
Proof. reflexivity. Qed.

(** C7. The derived key is claimed to have 32 bytes for every
    configuration.  With no BACKUP_KEY the key is the fallback literal,
    which has 29 characters: the derived key has 29 bytes and the cipher
    refuses it, with 'Invalid key length' for every IV that is not empty
    (an empty IV is refused first, as an invalid IV). *)
Theorem getBackupKey_without_BACKUP_KEY (token : option string) (iv : bytes) :
  let e := {| BACKUP_KEY := None; BLOB_READ_WRITE_TOKEN := token |} in
  getBackupKey e = list_byte_of_string "nanoclaw-backup-key-32-chars!" /\
  length (getBackupKey e) = 29%nat /\
  aes256gcm_init (getBackupKey e) iv =
    Err (if (length iv =? 0)%nat then CryptoInvalidIV
         else CryptoInvalidKeyLength).
Proof.
  repeat split. unfold aes256gcm_init. now destruct (length iv =? 0)%nat.
Qed.

(** ** [decrypt] on short buffers *)

Section DecryptShort.
Context `{NodeLib}.

(** Below 20 bytes the nonce is empty or the tag has an inadmissible
    length: [decrypt] always throws. *)
Lemma decrypt_with_rejects_below_20 (key encrypted : bytes) :
  (length encrypted < 20)%nat ->
  exists e, decrypt_with key encrypted = Err e.
Proof.
  intros Hlen. unfold decrypt_with.
  destruct (aes256gcm_init key (buf_slice 0 16 encrypted)) as [[]|e];
    cbn [res_bind]; [|eauto].
  assert (valid_gcm_tag_length (length (buf_slice 16 32 encrypted)) = false)
    as ->; [|cbn; eauto].
  unfold buf_slice. rewrite length_take, length_drop.
  unfold valid_gcm_tag_length.
  repeat (apply orb_false_intro || apply andb_false_intro1);
    try (apply Nat.eqb_neq; lia); apply Nat.leb_gt; lia.
Qed.

Lemma decrypt_with_truncated_tag (key iv : bytes) :
  gcm_tag_full_length ->
  length key = 32%nat ->
  length iv = 16%nat ->
  decrypt_with key (iv ++ take 4 (gcm_tag key iv [])) =
    Ok (gcm_ctr key iv []).
Proof.
  intros Htag Hkey Hiv. unfold decrypt_with, buf_slice, buf_slice_from.
  pose proof (Htag key iv []) as Ht.
  assert (length (take 4 (gcm_tag key iv [])) = 4%nat) as Ht4
    by (rewrite length_take; lia).
  rewrite drop_0.
  rewrite (take_app_length' iv) by lia.
  rewrite (drop_app_length' iv) by lia.
  replace (drop 32 (iv ++ take 4 (gcm_tag key iv []))) with (@nil byte)
    by (symmetry; apply drop_ge; rewrite length_app; lia).
  rewrite take_ge by lia.
  unfold aes256gcm_init. rewrite Hkey, Hiv. cbn [Nat.eqb negb res_bind].
  rewrite Ht4. cbn.
  now rewrite bool_decide_eq_true_2.
Qed.

End DecryptShort.

(** C10. Every buffer shorter than 32 bytes is claimed to make [decrypt]
    throw.  Buffers below 20 bytes do; a 20-byte buffer made of a 16-byte
    nonce and the first four bytes of the tag of the empty ciphertext is
    accepted, and [decrypt] returns the plaintext of the empty
    ciphertext. *)
Theorem decrypt_accepts_truncated_tag `{NodeLib} (w : World) (iv : bytes) :
  gcm_tag_full_length ->
  length (getBackupKey (env w)) = 32%nat ->
  length iv = 16%nat ->
  let key := getBackupKey (env w) in
  let input := iv ++ take 4 (gcm_tag key iv []) in
  length input = 20%nat /\
  decrypt input w = (Ok (gcm_ctr key iv []), w).
Proof.
  intros Htag Hkey Hiv key input. split.
  - unfold input. rewrite length_app, length_take, (Htag key iv []). lia.
  - unfold decrypt, bind, get_env, lift. fold key.
    unfold input. now rewrite decrypt_with_truncated_tag.
Qed.

Lemma decrypt_accepts_truncated_tag_witness :
  length (replicate 16 x00 ++ [x00; x01; x02; x03]) = 20%nat /\
  @decrypt Ref.lib (replicate 16 x00 ++ [x00; x01; x02; x03]) Ref.world0
  = (Ok [], Ref.world0).
Proof.
  apply (@decrypt_accepts_truncated_tag Ref.lib Ref.world0 (replicate 16 x00)).
  - exact Ref_tag_full_length.
  - reflexivity.
  - reflexivity.
Defined.

(** ** Encode, then decode *)

Lemma randomBytes_spec (n : nat) (w : World) :
  exists r, length r = n /\
            randomBytes n w = (Ok r, with_entropy (tail (entropy w)) w).
Proof.
  unfold randomBytes. destruct w as [e f b c [|r rest] o t l]; cbn.
  - exists (replicate n x00). split; [apply length_replicate|reflexivity].
  - exists (take n (r ++ replicate n x00)). split; [|reflexivity].
    rewrite length_take, length_app, length_replicate. lia.
Qed.

(** A buffer that begins with the SQLite magic passes the header check. *)
Lemma sqlite_header_accepted (dbBuffer : bytes) :
  take 15 dbBuffer = list_byte_of_string "SQLite format 3" ->
  startsWith (toString_utf8 (buf_slice 0 16 dbBuffer))
             (js_lit "SQLite format 3") = true.
Proof.
  intros Hmagic.
  rewrite <- (take_drop 15 dbBuffer), Hmagic.
  generalize (drop 15 dbBuffer) as rest. intros rest.
  unfold buf_slice. rewrite drop_0.
  change (list_byte_of_string "SQLite format 3")
    with ["S"%byte; "Q"%byte; "L"%byte; "i"%byte; "t"%byte; "e"%byte;
          " "%byte; "f"%byte; "o"%byte; "r"%byte; "m"%byte; "a"%byte;
          "t"%byte; " "%byte; "3"%byte].
  cbn [app take Nat.sub]. unfold toString_utf8.
  vm_compute. reflexivity.
Qed.

Section RoundTrip.
Context `{NodeLib}.
Hypothesis ctr_involutive : gcm_ctr_involutive.
Hypothesis tag_full_length : gcm_tag_full_length.
Hypothesis gunzip_inverts_gzip9 : gunzip_gzip9.

(** [decrypt] inverts [encrypt] for a 32-byte key and a 16-byte nonce. *)
Lemma decrypt_with_encrypt_with (key iv buffer : bytes) :
  length key = 32%nat ->
  length iv = 16%nat ->
  exists encrypted,
    encrypt_with key iv buffer = Ok encrypted /\
    decrypt_with key encrypted = Ok buffer.
Proof.
  intros Hkey Hiv.
  exists (iv ++ gcm_tag key iv (gcm_ctr key iv buffer)
             ++ gcm_ctr key iv buffer).
  pose proof (tag_full_length key iv (gcm_ctr key iv buffer)) as Ht.
  unfold encrypt_with, decrypt_with, aes256gcm_init.
  rewrite Hkey. cbn [Nat.eqb negb].
  split; [rewrite Hiv; reflexivity|].
  unfold buf_slice, buf_slice_from. rewrite drop_0.
  rewrite (take_app_length' iv) by lia.
  rewrite (drop_app_length' iv) by lia.
  rewrite (take_app_length' (gcm_tag _ _ _)) by lia.
  rewrite app_assoc.
  rewrite (drop_app_length' (iv ++ gcm_tag _ _ _))
    by (rewrite length_app; lia).
  rewrite Hiv, Ht. cbn [Nat.eqb res_bind].
  change (negb (valid_gcm_tag_length 16)) with false. cbv iota.
  rewrite take_ge by lia.
  rewrite bool_decide_eq_true_2 by reflexivity.
  now rewrite ctr_involutive.
Qed.

(** X22. Under a key of 32 bytes, for every buffer [B] that begins with
    the SQLite magic, encoding [B] succeeds, the metadata carries the
    SHA-256 checksum and the size of [B], and decoding the artifact with
    that metadata returns exactly [B]. *)
Theorem encode_decode_roundtrip (w : World) (B : bytes) :
  length (getBackupKey (env w)) = 32%nat ->
  take 15 B = list_byte_of_string "SQLite format 3" ->
  exists artifact metadata w1,
    encodeBackup B w = (Ok (artifact, metadata), w1) /\
    checksum metadata = sha256 B /\
    size metadata = length B /\
    forall w', env w' = env w ->
      exists w2, decodeBackup artifact (Some metadata) w' = (Ok B, w2).
Proof.
  intros Hkey Hmagic.
  destruct (randomBytes_spec 16 w) as (iv & Hiv & Hrand).
  destruct (decrypt_with_encrypt_with (getBackupKey (env w)) iv (gzip9 B)
              Hkey Hiv) as (artifact & Henc & Hdec).
  eexists artifact, _, _. split; [|split; [|split]].
  - unfold encodeBackup, encrypt, bind, get_env, lift, Date_now, ret.
    rewrite Hrand. cbn [env with_entropy]. rewrite Henc. reflexivity.
  - reflexivity.
  - reflexivity.
  - intros w' Henv. eexists.
    unfold decodeBackup, decrypt, bind, get_env, lift.
    rewrite Henv, Hdec.
    unfold gunzip_promise. rewrite gunzip_inverts_gzip9.
    cbn [ret checksum]. rewrite String.eqb_refl. cbn [negb].
    unfold logger. rewrite (sqlite_header_accepted B Hmagic).
    cbn [negb]. reflexivity.
Qed.

End RoundTrip.

Lemma encode_decode_roundtrip_witness :
  exists artifact metadata w1,
    @encodeBackup Ref.lib Ref.db0 Ref.world0 = (Ok (artifact, metadata), w1) /\
    checksum metadata = @sha256 Ref.lib Ref.db0 /\
    size metadata = length Ref.db0 /\
    forall w', env w' = env Ref.world0 ->
      exists w2,
        @decodeBackup Ref.lib artifact (Some metadata) w' = (Ok Ref.db0, w2).
Proof.
  apply (@encode_decode_roundtrip Ref.lib Ref_ctr_involutive
           Ref_tag_full_length Ref_gunzip_gzip9 Ref.world0 Ref.db0).
  - reflexivity.
  - reflexivity.
Defined.

(** C1. The round trip is claimed for every buffer, whatever the
    configuration.  With no BACKUP_KEY the key is the fallback literal of
    29 bytes: encoding throws 'Invalid key length' for every buffer, and
    decoding throws for every artifact and every metadata, so that no
    buffer makes the round trip. *)
Theorem encodeBackup_fails_without_BACKUP_KEY `{NodeLib}
        (w : World) (B : bytes) :
  BACKUP_KEY (env w) = None ->
  length (getBackupKey (env w)) = 29%nat /\
  (exists w1, encodeBackup B w = (Err CryptoInvalidKeyLength, w1)) /\
  forall artifact metadata,
    exists e w2, decodeBackup artifact metadata w = (Err e, w2).
Proof.
  intros Hnone.
  assert (length (getBackupKey (env w)) = 29%nat) as Hkey
    by (unfold getBackupKey; rewrite Hnone; reflexivity).
  split; [exact Hkey|]. split.
  - destruct (randomBytes_spec 16 w) as (iv & Hiv & Hrand).
    eexists.
    unfold encodeBackup, encrypt, bind, get_env, lift. rewrite Hrand.
    cbn [env with_entropy]. unfold encrypt_with, aes256gcm_init.
    rewrite Hiv, Hkey. reflexivity.
  - intros artifact metadata.
    unfold decodeBackup, decrypt, bind, get_env, lift.
    unfold decrypt_with, aes256gcm_init. rewrite Hkey.
    destruct (length (buf_slice 0 16 artifact) =? 0)%nat;
      cbn [Nat.eqb negb res_bind]; eauto.
Qed.

Lemma encodeBackup_fails_without_BACKUP_KEY_witness :
  length (getBackupKey (env Ref.world_no_key)) = 29%nat /\
  (exists w1,
      @encodeBackup Ref.lib Ref.db0 Ref.world_no_key
      = (Err CryptoInvalidKeyLength, w1)) /\
  forall artifact metadata,
    exists e w2,
      @decodeBackup Ref.lib artifact metadata Ref.world_no_key = (Err e, w2).
Proof.
  apply (@encodeBackup_fails_without_BACKUP_KEY Ref.lib Ref.world_no_key
           Ref.db0).
  reflexivity.
Defined.

(** ** Facts about strings *)

Lemma list_ascii_of_string_app (s t : string) :
  list_ascii_of_string (s +:+ t)
  = list_ascii_of_string s ++ list_ascii_of_string t.
Proof.
  induction s as [|c s IH]; [reflexivity|].
  change (list_ascii_of_string (String c (s +:+ t))
          = c :: (list_ascii_of_string s ++ list_ascii_of_string t)).
  cbn [list_ascii_of_string]. now rewrite IH.
Qed.

Lemma list_ascii_of_string_inj (s t : string) :
  list_ascii_of_string s = list_ascii_of_string t -> s = t.
Proof.
  intros Heq. rewrite <- (string_of_list_ascii_of_string s),
                <- (string_of_list_ascii_of_string t).
  now rewrite Heq.
Qed.

Lemma string_app_inv_tail (s t suffix : string) :
  s +:+ suffix = t +:+ suffix -> s = t.
Proof.
  intros Heq. apply list_ascii_of_string_inj.
  apply (f_equal list_ascii_of_string) in Heq.
  rewrite !list_ascii_of_string_app in Heq.
  now apply app_inv_tail in Heq.
Qed.

Lemma endsWith_spec (s suffix : string) :
  endsWith s suffix = true <-> exists q, s = q +:+ suffix.
Proof.
  induction s as [|c s IH]; cbn [endsWith].
  - destruct (String.eqb_spec EmptyString suffix) as [<-|Hne].
    + split; [exists EmptyString; reflexivity|reflexivity].
    + split; [discriminate|]. intros ([|c q] & Hq); [|discriminate].
      now destruct Hne.
  - destruct (String.eqb_spec (String c s) suffix) as [<-|Hne].
    + split; [exists EmptyString; reflexivity|reflexivity].
    + rewrite IH. split.
      * intros (q & ->). now exists (String c q).
      * intros ([|c' q] & Hq); [now destruct Hne|].
        injection Hq as -> ->. now exists q.
Qed.

Lemma endsWith_own_suffix (k suffix : string) :
  endsWith (k +:+ suffix) suffix = true.
Proof. apply endsWith_spec. now exists k. Qed.

(** ** Retention *)

Section Retention.
Context `{NodeLib}.

(** The floating-point quotient [ageDays] is compared with whole numbers
    of days only; the comparison is the one on milliseconds. *)
Lemma Qltb_ageDays (now uploadDate k : Z) :
  Qltb (ageDays now uploadDate) (k # 1) = true <->
  now - uploadDate < days k.
Proof.
  unfold Qltb, ageDays, Qle_bool, days. cbn [Qnum Qden].
  rewrite negb_true_iff, Z.leb_gt.
  change (Z.pos (Z.to_pos MS_PER_DAY)) with MS_PER_DAY. lia.
Qed.

Lemma shouldKeep_iff (now : Z) (blob : Blob) :
  shouldKeep now blob = true <-> keep_rule now blob.
Proof.
  unfold shouldKeep, keep_rule.
  rewrite !orb_true_iff, !andb_true_iff, !Z.eqb_eq, !Qltb_ageDays.
  tauto.
Qed.

Lemma shouldKeep_false_iff (now : Z) (blob : Blob) :
  shouldKeep now blob = false <-> ~ keep_rule now blob.
Proof.
  rewrite <- shouldKeep_iff. destruct (shouldKeep now blob); split;
    congruence.
Qed.

Lemma collectDeletions_flat_map (now : Z) (dbBlobs : list Blob) :
  collectDeletions now dbBlobs = flat_map (marked now) dbBlobs.
Proof.
  unfold collectDeletions.
  set (step := fun (toDelete : list string) (blob : Blob) =>
                 if negb (shouldKeep now blob)
                 then toDelete ++ [pathname blob; pathname blob +:+ META_SUFFIX]
                 else toDelete).
  assert (forall l acc, fold_left step l acc = acc ++ flat_map (marked now) l)
    as Hgen.
  { induction l as [|b l IH]; intros acc; cbn [fold_left flat_map].
    - now rewrite app_nil_r.
    - rewrite IH. unfold step, marked.
      destruct (shouldKeep now b); cbn [negb]; [reflexivity|].
      now rewrite <- app_assoc. }
  apply (Hgen dbBlobs []).
Qed.

Lemma in_marked (now : Z) (k : string) (doomed : list Blob) :
  In k (flat_map (marked now) doomed) <->
  exists b, In b doomed /\ shouldKeep now b = false /\
            (k = pathname b \/ k = pathname b +:+ META_SUFFIX).
Proof.
  rewrite in_flat_map. split.
  - intros (b & Hin & Hk). exists b. split; [exact Hin|].
    unfold marked in Hk. destruct (shouldKeep now b); [destruct Hk|].
    split; [reflexivity|]. cbn in Hk. intuition.
  - intros (b & Hin & Hkeep & Hk). exists b. split; [exact Hin|].
    unfold marked. rewrite Hkeep. cbn. intuition.
Qed.

Lemma pathname_unique (l : list Blob) (a b : Blob) :
  List.NoDup (map pathname l) -> In a l -> In b l ->
  pathname a = pathname b ->
  a = b.
Proof.
  induction l as [|x l IH]; intros Hnd Ha Hb Heq; [destruct Ha|].
  cbn [map] in Hnd. apply List.NoDup_cons_iff in Hnd. destruct Hnd as [Hx Hnd].
  destruct Ha as [->|Ha], Hb as [->|Hb]; auto.
  - exfalso. apply Hx. rewrite Heq. now apply in_map.
  - exfalso. apply Hx. rewrite <- Heq. now apply in_map.
Qed.

(** C3. An artifact of the cleanup listing is kept exactly when it is
    younger than 7 days, or dated on a Sunday and younger than 28 days,
    or dated on the 1st and younger than 365 days; the decision looks at
    that artifact alone, and an artifact that is not kept is marked for
    deletion together with its metadata key.  The five dated examples
    follow: age 3 days, keep; age 10 days on neither a Sunday nor the
    1st, delete; a Sunday at age 20 days, keep; a 1st at age 40 days,
    keep; a 1st at age 400 days, delete. *)
Theorem retention_classification :
  (forall now blob, shouldKeep now blob = true <-> keep_rule now blob) /\
  (forall now dbBlobs,
      collectDeletions now dbBlobs = flat_map (marked now) dbBlobs) /\
  (forall now dbBlobs blob,
      List.NoDup (map pathname dbBlobs) ->
      (forall b, In b dbBlobs -> is_meta b = false) ->
      In blob dbBlobs ->
      (In (pathname blob) (collectDeletions now dbBlobs) <->
       ~ keep_rule now blob) /\
      (In (pathname blob +:+ META_SUFFIX) (collectDeletions now dbBlobs) <->
       ~ keep_rule now blob)) /\
  (forall now blob age, now - uploadedAt blob = age ->
      (days 3 <= age < days 4 -> shouldKeep now blob = true) /\
      (days 10 <= age < days 11 -> getDay (uploadedAt blob) <> 0 ->
       getDate (uploadedAt blob) <> 1 -> shouldKeep now blob = false) /\
      (days 20 <= age < days 21 -> getDay (uploadedAt blob) = 0 ->
       shouldKeep now blob = true) /\
      (days 40 <= age < days 41 -> getDate (uploadedAt blob) = 1 ->
       shouldKeep now blob = true) /\
      (days 400 <= age < days 401 -> getDate (uploadedAt blob) = 1 ->
       shouldKeep now blob = false)).
Proof.
  split; [exact shouldKeep_iff|].
  split; [exact collectDeletions_flat_map|].
  split.
  - intros now dbBlobs blob Hnodup Hart Hin.
    rewrite collectDeletions_flat_map.
    pose proof (in_marked now (pathname blob) dbBlobs) as Hkey.
    pose proof (in_marked now (pathname blob +:+ META_SUFFIX) dbBlobs) as Hrec.
    pose proof (shouldKeep_false_iff now blob) as Hrule.
    split; rewrite <- Hrule; [rewrite Hkey|rewrite Hrec]; split.
    + intros (b & Hb & Hdoomed & [Heq|Heq]).
      * now rewrite (pathname_unique dbBlobs blob b Hnodup Hin Hb Heq).
      * specialize (Hart blob Hin). unfold is_meta in Hart.
        rewrite Heq, endsWith_own_suffix in Hart. discriminate.
    + intros Hdoomed. exists blob. auto.
    + intros (b & Hb & Hdoomed & [Heq|Heq]).
      * specialize (Hart b Hb). unfold is_meta in Hart.
        rewrite <- Heq, endsWith_own_suffix in Hart. discriminate.
      * apply string_app_inv_tail in Heq.
        now rewrite (pathname_unique dbBlobs blob b Hnodup Hin Hb Heq).
    + intros Hdoomed. exists blob. auto.
  - intros now blob age Hage. unfold days in *.
    repeat split; intros;
      first [ apply shouldKeep_iff | apply shouldKeep_false_iff ];
      unfold keep_rule, days; cbv zeta; rewrite Hage;
      unfold MS_PER_DAY in *; lia.
Qed.

End Retention.

Lemma retention_classification_witness :
  let now := Ref.noon_2026_03_15 in
  let at_ t := Ref.blob_at Ref.key1 t [] in
  (* three days old *)
  @shouldKeep Ref.lib now (at_ (now - days 3)) = true /\
  (* ten days old: Thursday 2026-03-05 *)
  @shouldKeep Ref.lib now (at_ (now - days 10)) = false /\
  (* Sunday 2026-02-22, 18:00: twenty days and eighteen hours old *)
  @shouldKeep Ref.lib now (at_ (now - days 20 - 18 * 3600000)) = true /\
  (* dated the 1st of a month, forty days before 2026-03-13T12:00 *)
  @shouldKeep Ref.lib (now - days 2) (at_ (now - days 42)) = true /\
  (* dated the 1st of a month, four hundred days before 2026-03-08T12:00 *)
  @shouldKeep Ref.lib (now - days 7) (at_ (now - days 407)) = false.
Proof.
  intros now at_.
  pose proof (@retention_classification Ref.lib) as (_ & _ & _ & Hcases).
  split; [|split; [|split; [|split]]].
  - destruct (Hcases now (at_ (now - days 3)) (days 3)) as (Hkeep & _);
      [vm_compute; reflexivity|].
    apply Hkeep. unfold days, MS_PER_DAY. lia.
  - destruct (Hcases now (at_ (now - days 10)) (days 10))
      as (_ & Hdrop & _); [vm_compute; reflexivity|].
    apply Hdrop; [unfold days, MS_PER_DAY; lia|vm_compute; discriminate..].
  - destruct (Hcases now (at_ (now - days 20 - 18 * 3600000))
                     (days 20 + 18 * 3600000))
      as (_ & _ & Hweekly & _); [vm_compute; reflexivity|].
    apply Hweekly; [unfold days, MS_PER_DAY; lia|vm_compute; reflexivity].
  - destruct (Hcases (now - days 2) (at_ (now - days 42)) (days 40))
      as (_ & _ & _ & Hmonthly & _); [vm_compute; reflexivity|].
    apply Hmonthly; [unfold days, MS_PER_DAY; lia|vm_compute; reflexivity].
  - destruct (Hcases (now - days 7) (at_ (now - days 407)) (days 400))
      as (_ & _ & _ & _ & Hold); [vm_compute; reflexivity|].
    apply Hold; [unfold days, MS_PER_DAY; lia|vm_compute; reflexivity].
Defined.

(** The five cases on 2026-03-15 itself, a Sunday, in UTC. *)
Example retention_on_2026_03_15 :
  let now := Ref.noon_2026_03_15 in
  let at_ t := Ref.blob_at Ref.key1 t [] in
  civil_from_days (@local_day Ref.lib now) = (2026, 3, 15) /\
  @getDay Ref.lib now = 0 /\
  @shouldKeep Ref.lib now (at_ (now - days 3)) = true /\
  (@getDay Ref.lib (now - days 10) = 4 /\
   @getDate Ref.lib (now - days 10) = 5 /\
   @shouldKeep Ref.lib now (at_ (now - days 10)) = false) /\
  (@getDay Ref.lib (now - days 20 - 18 * 3600000) = 0 /\
   @shouldKeep Ref.lib now (at_ (now - days 20 - 18 * 3600000)) = true) /\
  (@getDate Ref.lib (now - days 42) = 1 /\
   @shouldKeep Ref.lib now (at_ (now - days 42)) = true) /\
  (@getDate Ref.lib (now - days 407) = 1 /\
   @shouldKeep Ref.lib now (at_ (now - days 407)) = false).
Proof. vm_compute. repeat split. Qed.

(** ** Framing: what an operation leaves untouched *)

#[global] Instance reads_only_preorder : PreOrder reads_only.
Proof.
  split.
  - intros w. unfold reads_only. tauto.
  - intros a b c (?&?&?&?&?) (?&?&?&?&?). unfold reads_only.
    repeat split; congruence.
Qed.

#[global] Instance offline_preorder : PreOrder offline.
Proof.
  split.
  - intros w. unfold offline. tauto.
  - intros a b c (?&?&?&?) (?&?&?&?). unfold offline.
    repeat split; congruence.
Qed.

Section Keeps.
Context (R : relation World) `{!PreOrder R}.

Lemma keeps_ret {A} (a : A) : keeps R (ret a).
Proof. intros w. reflexivity. Qed.

Lemma keeps_throw {A} (e : Error) : keeps R (@throw A e).
Proof. intros w. reflexivity. Qed.

Lemma keeps_lift {A} (r : Res A) : keeps R (lift r).
Proof. intros w. reflexivity. Qed.

Lemma keeps_get_env : keeps R get_env.
Proof. intros w. reflexivity. Qed.

Lemma keeps_Date_now : keeps R Date_now.
Proof. intros w. reflexivity. Qed.

Lemma keeps_fs_existsSync (p : string) : keeps R (fs_existsSync p).
Proof. intros w. reflexivity. Qed.

Lemma keeps_bind {A B} (m : M A) (k : A -> M B) :
  keeps R m -> (forall a, keeps R (k a)) -> keeps R (bind m k).
Proof.
  intros Hm Hk w. unfold bind. specialize (Hm w).
  destruct (m w) as [[a|e] w1]; cbn [snd] in *.
  - etransitivity; [exact Hm|apply Hk].
  - exact Hm.
Qed.

Lemma keeps_try_catch {A} (m : M A) (h : Error -> M A) :
  keeps R m -> (forall e, keeps R (h e)) -> keeps R (try_catch m h).
Proof.
  intros Hm Hh w. unfold try_catch. specialize (Hm w).
  destruct (m w) as [[a|e] w1]; cbn [snd] in *.
  - exact Hm.
  - etransitivity; [exact Hm|apply Hh].
Qed.

Lemma keeps_for_of {A} (xs : list A) (body : A -> M unit) :
  (forall x, keeps R (body x)) -> keeps R (for_of xs body).
Proof.
  intros Hbody. induction xs as [|x xs IH]; cbn [for_of].
  - apply keeps_ret.
  - apply keeps_bind; [apply Hbody|intros _; exact IH].
Qed.

End Keeps.

Lemma fs_calls_app (a b : list Event) : fs_calls (a ++ b) = fs_calls a ++ fs_calls b.
Proof. apply List.filter_app. Qed.

Lemma net_calls_app (a b : list Event) :
  net_calls (a ++ b) = net_calls a ++ net_calls b.
Proof. apply List.filter_app. Qed.

Lemma pop_outcome_spec (w : World) :
  exists o, pop_outcome w = (o, with_oracle (tail (oracle w)) w) /\
            (o = Done \/ oracle w <> []).
Proof.
  unfold pop_outcome. destruct w as [e f b c r [|o os] t l]; cbn.
  - exists Done. auto.
  - exists o. split; [reflexivity|]. right. discriminate.
Qed.

(** Destructs the pending outcome of the next fallible call. *)
Ltac pop_oracle w :=
  let o := fresh "o" in
  let Hpop := fresh "Hpop" in
  destruct (pop_outcome_spec w) as (o & Hpop & _);
  rewrite Hpop; clear Hpop.

Ltac frame_done :=
  repeat split; cbn; rewrite ?fs_calls_app, ?net_calls_app; cbn;
  rewrite ?app_nil_r; reflexivity.

Lemma logger_reads_only (lvl : LogLevel) (msg : string) :
  keeps reads_only (logger lvl msg).
Proof. intros w. frame_done. Qed.

Lemma logger_offline (lvl : LogLevel) (msg : string) :
  keeps offline (logger lvl msg).
Proof. intros w. frame_done. Qed.

Lemma randomBytes_offline (n : nat) : keeps offline (randomBytes n).
Proof. intros w. unfold randomBytes. destruct (entropy w); frame_done. Qed.

Lemma blob_list_reads_only (pre : string) : keeps reads_only (blob_list pre).
Proof.
  intros w. unfold blob_list, failed. pop_oracle w.
  destruct o; frame_done.
Qed.

Lemma fetch_reads_only (u : string) : keeps reads_only (fetch u).
Proof.
  intros w. unfold fetch, failed. pop_oracle w.
  destruct o; [|frame_done..].
  cbn [blobs with_oracle].
  destruct (List.find _ _); frame_done.
Qed.

Lemma fs_readFileSync_offline (p : string) : keeps offline (fs_readFileSync p).
Proof.
  intros w. unfold fs_readFileSync, failed. pop_oracle w.
  cbn [files with_oracle].
  destruct o, (files w !! p); frame_done.
Qed.

Lemma fs_unlinkSync_offline (p : string) : keeps offline (fs_unlinkSync p).
Proof.
  intros w. unfold fs_unlinkSync, failed. pop_oracle w.
  cbn [files with_oracle].
  destruct o, (files w !! p); frame_done.
Qed.

Lemma fs_copyFileSync_offline (src dst : string) :
  keeps offline (fs_copyFileSync src dst).
Proof.
  intros w. unfold fs_copyFileSync, failed. pop_oracle w.
  cbn [files with_oracle].
  destruct o, (files w !! src); frame_done.
Qed.

Lemma fs_writeFileSync_offline (p : string) (data : bytes) :
  keeps offline (fs_writeFileSync p data).
Proof.
  intros w. unfold fs_writeFileSync, failed. pop_oracle w.
  destruct o; frame_done.
Qed.

Create HintDb keeps.
#[global] Hint Resolve logger_reads_only logger_offline randomBytes_offline
  blob_list_reads_only fetch_reads_only fs_readFileSync_offline
  fs_unlinkSync_offline fs_copyFileSync_offline fs_writeFileSync_offline
  : keeps.

(** One step of a framing proof, following the shape of the program. *)
Ltac keeps_step :=
  lazymatch goal with
  | |- keeps _ (bind _ _) => apply keeps_bind; [typeclasses eauto| |intros ?]
  | |- keeps _ (try_catch _ _) =>
      apply keeps_try_catch; [typeclasses eauto| |intros ?]
  | |- keeps _ (for_of _ _) => apply keeps_for_of; [typeclasses eauto|intros ?]
  | |- keeps _ (ret _) => apply keeps_ret; typeclasses eauto
  | |- keeps _ (throw _) => apply keeps_throw; typeclasses eauto
  | |- keeps _ (lift _) => apply keeps_lift; typeclasses eauto
  | |- keeps _ get_env => apply keeps_get_env; typeclasses eauto
  | |- keeps _ Date_now => apply keeps_Date_now; typeclasses eauto
  | |- keeps _ (fs_existsSync _) => apply keeps_fs_existsSync; typeclasses eauto
  | |- keeps _ (match ?x with _ => _ end) => destruct x
  | |- keeps _ _ => solve [eauto with keeps]
  end.

Section OperationFrames.
Context `{NodeLib}.
Variable STORE_DIR : string.

Lemma decrypt_reads_only (encrypted : bytes) :
  keeps reads_only (decrypt encrypted).
Proof. unfold decrypt. repeat keeps_step. Qed.

Lemma decodeBackup_reads_only encrypted metadata :
  keeps reads_only (decodeBackup encrypted metadata).
Proof.
  pose proof decrypt_reads_only.
  unfold decodeBackup, gunzip_promise. repeat keeps_step.
Qed.

Lemma resolveTarget_reads_only filename :
  keeps reads_only (resolveTarget filename).
Proof. unfold resolveTarget. repeat keeps_step. Qed.

Lemma downloadBackup_reads_only targetFile :
  keeps reads_only (downloadBackup targetFile).
Proof. unfold downloadBackup. repeat keeps_step. Qed.

Lemma verifyLatestBackup_reads_only :
  keeps reads_only verifyLatestBackup.
Proof.
  pose proof decrypt_reads_only.
  unfold verifyLatestBackup. repeat keeps_step.
Qed.

Lemma sqlite_open_offline (p : string) : keeps offline (sqlite_open p).
Proof.
  intros w. unfold sqlite_open, failed. pop_oracle w.
  cbn [files with_oracle].
  destruct o, (files w !! p); frame_done.
Qed.

Lemma sqlite_vacuum_into_offline (src dst : string) :
  keeps offline (sqlite_vacuum_into src dst).
Proof.
  intros w. unfold sqlite_vacuum_into, failed. pop_oracle w.
  cbn [files with_oracle].
  destruct (files w !! dst) as [[|? ?]|], (files w !! src), o; frame_done.
Qed.

Lemma encodeBackup_offline (backupBuffer : bytes) :
  keeps offline (encodeBackup backupBuffer).
Proof. unfold encodeBackup, encrypt. repeat keeps_step. Qed.

Lemma createSafeBackup_offline : keeps offline (createSafeBackup STORE_DIR).
Proof.
  pose proof sqlite_open_offline. pose proof sqlite_vacuum_into_offline.
  pose proof encodeBackup_offline.
  unfold createSafeBackup. repeat keeps_step.
Qed.

Lemma installBackup_offline (dbBuffer : bytes) :
  keeps offline (installBackup STORE_DIR dbBuffer).
Proof. unfold installBackup. repeat keeps_step. Qed.

End OperationFrames.

(** ** Running the monad *)

Lemma bind_ok {A B} (m : M A) (k : A -> M B) (w w1 : World) (a : A) :
  m w = (Ok a, w1) -> bind m k w = k a w1.
Proof. intros Hm. unfold bind. now rewrite Hm. Qed.

Lemma bind_err {A B} (m : M A) (k : A -> M B) (w w1 : World) (e : Error) :
  m w = (Err e, w1) -> bind m k w = (Err e, w1).
Proof. intros Hm. unfold bind. now rewrite Hm. Qed.

Lemma keeps_run {A} (R : relation World) (m : M A) (w w' : World) (r : Res A) :
  keeps R m -> m w = (r, w') -> R w w'.
Proof. intros Hk Hm. specialize (Hk w). now rewrite Hm in Hk. Qed.

Lemma bind_assoc {A B C} (m : M A) (k : A -> M B) (h : B -> M C) (w : World) :
  bind (bind m k) h w = bind m (fun a => bind (k a) h) w.
Proof. unfold bind. destruct (m w) as [[a|e] w1]; reflexivity. Qed.

Lemma fs_copyFileSync_spec (src dst : string) (d : bytes) (w : World) :
  files w !! src = Some d ->
  dst <> src ->
  exists r w',
    fs_copyFileSync src dst w = (r, w') /\
    clock w' = clock w /\ logs w' = logs w /\
    oracle w' = tail (oracle w) /\
    (oracle w = [] -> r = Ok tt) /\
    match r with
    | Ok _ => trace w' = trace w ++ [call_ok (CCopy src dst)] /\
              files w' = <[dst := d]> (files w)
    | Err e => e = CallFailed (CCopy src dst) /\
               trace w' = trace w ++ [call_failed (CCopy src dst)] /\
               files w' !! src = Some d
    end.
Proof.
  intros Hsrc Hne. unfold fs_copyFileSync, pop_outcome, failed.
  destruct w as [e f b c r [|o os] t l]; cbn [oracle files] in *.
  - rewrite Hsrc. eexists _, _. split; [reflexivity|]. cbn. repeat split; auto.
  - cbn [with_oracle files]. rewrite Hsrc.
    destruct o; (eexists _, _; split; [reflexivity|]); cbn;
      repeat split; try discriminate; auto.
    now rewrite lookup_insert_ne.
Qed.

Lemma fs_writeFileSync_spec (p : string) (data : bytes) (w : World) :
  exists r w',
    fs_writeFileSync p data w = (r, w') /\
    (oracle w = [] -> r = Ok tt) /\
    match r with
    | Ok _ => trace w' = trace w ++ [call_ok (CWrite p)] /\
              files w' = <[p := data]> (files w)
    | Err e => e = CallFailed (CWrite p) /\
               trace w' = trace w ++ [call_failed (CWrite p)] /\
               forall q, q <> p -> files w' !! q = files w !! q
    end.
Proof.
  unfold fs_writeFileSync, pop_outcome, failed.
  destruct w as [e f b c r [|o os] t l]; cbn [oracle files] in *.
  - eexists _, _. split; [reflexivity|]. cbn. repeat split; auto.
  - destruct o; (eexists _, _; split; [reflexivity|]); cbn;
      repeat split; try discriminate; auto.
    intros q Hq. now rewrite lookup_insert_ne.
Qed.

Lemma string_app_empty_r (s : string) : s +:+ EmptyString = s.
Proof.
  induction s as [|c s IH]; [reflexivity|].
  change (String c (s +:+ EmptyString) = String c s). now rewrite IH.
Qed.

Lemma string_app_longer (s t : string) : t <> EmptyString -> s +:+ t <> s.
Proof.
  intros Ht Heq. apply Ht.
  apply (String.app_inj s). now rewrite string_app_empty_r.
Qed.

(** ** Restore: nothing on disk changes when decoding fails *)

Section Restore.
Context `{NodeLib}.
Variable STORE_DIR : string.

Lemma decrypt_with_error (key encrypted : bytes) (e : Error) :
  decrypt_with key encrypted = Err e -> decode_error e.
Proof.
  unfold decrypt_with, aes256gcm_init.
  repeat (match goal with
          | |- context [if ?c then _ else _] => destruct c
          end; cbn [res_bind]);
    intros [= <-]; exact I.
Qed.

Lemma decodeBackup_error encrypted metadata w e w' :
  decodeBackup encrypted metadata w = (Err e, w') -> decode_error e.
Proof.
  unfold decodeBackup, decrypt, gunzip_promise, bind, get_env, lift, ret,
    throw, logger.
  destruct (decrypt_with _ encrypted) as [compressed|e0] eqn:Hdec.
  - destruct (gunzip compressed) as [dbBuffer|]; [|intros [= <- _]; exact I].
    destruct metadata as [m|].
    + destruct (negb (sha256 dbBuffer =? checksum m)%string);
        [intros [= <- _]; exact I|].
      destruct (negb (startsWith _ _)); [intros [= <- _]; exact I|].
      discriminate.
    + destruct (negb (startsWith _ _)); [intros [= <- _]; exact I|].
      discriminate.
  - intros [= <- _]. eapply decrypt_with_error, Hdec.
Qed.

(** C2. In a run of [restoreFromBackup] whose decode step fails
    (decryption, decompression, checksum cross-check or header check),
    the operation raises that error, every file keeps its content, and
    no file-system call is made: no safety copy, no write to the live
    path. *)
Theorem restore_aborts_on_decode_failure
        (filename : option string) (w w1 w2 w3 : World) (target : string)
        (encrypted : bytes) (metadata : option BackupMetadata) (e : Error) :
  token_missing (getBlobToken (env w)) = false ->
  resolveTarget filename w = (Ok target, w1) ->
  downloadBackup target (snd (logger Info "Starting restore" w1))
    = (Ok (encrypted, metadata), w2) ->
  decodeBackup encrypted metadata w2 = (Err e, w3) ->
  restoreFromBackup STORE_DIR filename w = (Err e, w3) /\
  decode_error e /\
  files w3 = files w /\
  fs_calls (trace w3) = fs_calls (trace w).
Proof.
  intros Htoken Hresolve Hdownload Hdecode.
  split; [|split].
  - unfold restoreFromBackup. unfold bind at 1. cbn [get_env].
    rewrite Htoken.
    rewrite (bind_ok _ _ _ _ _ Hresolve).
    unfold bind at 1. cbn [logger]. cbn [logger snd] in Hdownload.
    rewrite (bind_ok _ _ _ _ _ Hdownload).
    now rewrite (bind_err _ _ _ _ _ Hdecode).
  - eapply decodeBackup_error, Hdecode.
  - assert (reads_only w w3) as (_ & Hfiles & _ & _ & Hcalls); [|auto].
    etransitivity;
      [eapply keeps_run; [apply resolveTarget_reads_only|exact Hresolve]|].
    etransitivity; [apply (logger_reads_only Info "Starting restore" w1)|].
    etransitivity;
      [eapply keeps_run; [apply downloadBackup_reads_only|exact Hdownload]|].
    eapply keeps_run; [apply decodeBackup_reads_only|exact Hdecode].
Qed.

End Restore.

(** ** Restore: the safety copy comes first *)

Section Install.
Context `{NodeLib}.
Variable STORE_DIR : string.

Local Abbreviation live := (dbPath STORE_DIR).
Local Abbreviation safety := (safetyPath STORE_DIR).

Lemma safety_is_not_live (w : World) : safety w <> live.
Proof. unfold safetyPath. apply string_app_longer. discriminate. Qed.

Lemma installBackup_spec (dbBuffer old : bytes) (w : World) :
  files w !! live = Some old ->
  exists r w',
    installBackup STORE_DIR dbBuffer w = (r, w') /\
    install_outcome STORE_DIR dbBuffer old w r w' /\
    (oracle w = [] -> r = Ok tt).
Proof.
  intros Hlive. pose proof (safety_is_not_live w) as Hne.
  destruct (installBackup STORE_DIR dbBuffer w) as [r w'] eqn:Hrun.
  exists r, w'. split; [reflexivity|]. revert Hrun.
  unfold installBackup, install_outcome. cbv zeta.
  rewrite (bind_ok (fs_existsSync live) _ w w true)
    by (unfold fs_existsSync; now rewrite Hlive).
  cbv beta iota. rewrite bind_assoc.
  rewrite (bind_ok Date_now _ w w (clock w)) by reflexivity.
  cbv beta. rewrite bind_assoc. unfold safetyPath in *.
  destruct (fs_copyFileSync_spec live _ old w Hlive Hne)
    as (r1 & w1 & Hcopy & Hclock & Hlogs & Horacle & Hok1 & Hres1).
  destruct r1 as [[]|e1].
  - (* the copy completes *)
    destruct Hres1 as [Htrace1 Hfiles1].
    rewrite (bind_ok _ _ _ _ _ Hcopy).
    unfold bind at 1. cbn [logger].
    set (w1' := with_logs _ w1).
    destruct (fs_writeFileSync_spec live dbBuffer w1')
      as (r2 & w2 & Hwrite & Hok2 & Hres2).
    destruct r2 as [[]|e2].
    + destruct Hres2 as [Htrace2 Hfiles2].
      rewrite (bind_ok _ _ _ _ _ Hwrite). cbn [logger].
      intros [= <- <-]. split; [|reflexivity].
      cbn [trace files with_logs]. rewrite Htrace2, Hfiles2.
      cbn [trace files with_logs w1']. rewrite Htrace1, Hfiles1.
      rewrite <- app_assoc, fs_calls_app. auto.
    + destruct Hres2 as (-> & Htrace2 & Hfiles2).
      rewrite (bind_err _ _ _ _ _ Hwrite).
      intros [= <- <-]. split.
      * right. split; [reflexivity|]. split.
        -- rewrite Htrace2. cbn [trace with_logs w1']. rewrite Htrace1.
           rewrite <- app_assoc, fs_calls_app. auto.
        -- rewrite Hfiles2 by exact Hne. cbn [files with_logs w1'].
           rewrite Hfiles1. now rewrite lookup_insert_eq.
      * intros Hnil.
        assert (oracle w1' = []) as Hnil'
          by (cbn; rewrite Horacle, Hnil; reflexivity).
        specialize (Hok2 Hnil'). discriminate.
  - (* the copy fails *)
    destruct Hres1 as (-> & Htrace1 & Hfiles1).
    rewrite (bind_err _ _ _ _ _ Hcopy).
    intros [= <- <-]. split.
    + left. split; [reflexivity|]. split; [|exact Hfiles1].
      rewrite Htrace1, fs_calls_app. auto.
    + intros Hnil. specialize (Hok1 Hnil). discriminate.
Qed.

(** C4. In a run of [restoreFromBackup] whose decode step succeeds while
    a live database file exists, the live file is first copied to
    [<live>.bak.<now>] and written only after the copy completed; a
    failed copy ends the run with the live file untouched and no write
    call; after a successful run the safety copy holds the pre-restore
    bytes, the live file holds the decoded bytes, and the safety copy is
    the only path that can have been added. *)
Theorem restore_keeps_safety_copy
        (filename : option string) (w w1 w2 w3 : World) (target : string)
        (encrypted : bytes) (metadata : option BackupMetadata)
        (dbBuffer old : bytes) :
  token_missing (getBlobToken (env w)) = false ->
  resolveTarget filename w = (Ok target, w1) ->
  downloadBackup target (snd (logger Info "Starting restore" w1))
    = (Ok (encrypted, metadata), w2) ->
  decodeBackup encrypted metadata w2 = (Ok dbBuffer, w3) ->
  files w !! live = Some old ->
  exists r w',
    restoreFromBackup STORE_DIR filename w = (r, w') /\
    install_outcome STORE_DIR dbBuffer old w r w' /\
    (oracle w3 = [] -> r = Ok tt) /\
    (r = Ok tt ->
     files w' !! safety w = Some old /\
     files w' !! live = Some dbBuffer /\
     (forall p, p <> live -> p <> safety w -> files w' !! p = files w !! p) /\
     dom (files w') = {[ safety w ]} ∪ dom (files w)).
Proof.
  intros Htoken Hresolve Hdownload Hdecode Hlive.
  assert (reads_only w w3) as (_ & Hfiles & _ & Hclock & Hcalls).
  { etransitivity;
      [eapply keeps_run; [apply resolveTarget_reads_only|exact Hresolve]|].
    etransitivity; [apply (logger_reads_only Info "Starting restore" w1)|].
    etransitivity;
      [eapply keeps_run; [apply downloadBackup_reads_only|exact Hdownload]|].
    eapply keeps_run; [apply decodeBackup_reads_only|exact Hdecode]. }
  destruct (installBackup_spec dbBuffer old w3) as (r & w' & Hrun & Hout & Hok);
    [now rewrite Hfiles|].
  exists r, w'. split; [|split; [|split]].
  - unfold restoreFromBackup. unfold bind at 1. cbn [get_env].
    rewrite Htoken.
    rewrite (bind_ok _ _ _ _ _ Hresolve).
    unfold bind at 1. cbn [logger]. cbn [logger snd] in Hdownload.
    rewrite (bind_ok _ _ _ _ _ Hdownload).
    now rewrite (bind_ok _ _ _ _ _ Hdecode).
  - unfold install_outcome, safetyPath in *. cbv zeta in *.
    rewrite Hclock, Hfiles, Hcalls in Hout. exact Hout.
  - exact Hok.
  - intros ->. unfold install_outcome, safetyPath in *. cbv zeta in *.
    rewrite Hclock, Hfiles in Hout. destruct Hout as [_ ->].
    pose proof (safety_is_not_live w) as Hne. unfold safetyPath in Hne.
    repeat split.
    + rewrite lookup_insert_ne by (intros E; apply Hne; now symmetry).
      now rewrite lookup_insert_eq.
    + now rewrite lookup_insert_eq.
    + intros p Hp1 Hp2. now rewrite !lookup_insert_ne by congruence.
    + rewrite !dom_insert_L.
      assert (live ∈ dom (files w)) as Hdom by (apply elem_of_dom; eauto).
      apply set_eq. intros p.
      rewrite !elem_of_union, !elem_of_singleton.
      split; [intros [->|?]; auto|tauto].
Qed.

End Install.

Lemma restore_aborts_on_decode_failure_witness :
  exists w3,
    @restoreFromBackup Ref.lib "store" None Ref.world_corrupt
      = (Err CryptoAuthFailed, w3) /\
    decode_error CryptoAuthFailed /\
    files w3 = files Ref.world_corrupt /\
    fs_calls (trace w3) = fs_calls (trace Ref.world_corrupt).
Proof.
  pose (w1 := snd (resolveTarget None Ref.world_corrupt)).
  pose (w2 := snd (@downloadBackup Ref.lib Ref.key1
                     (snd (logger Info "Starting restore" w1)))).
  pose (w3 := snd (@decodeBackup Ref.lib Ref.garbage None w2)).
  exists w3.
  apply (@restore_aborts_on_decode_failure Ref.lib "store" None
           Ref.world_corrupt w1 w2 w3 Ref.key1 Ref.garbage None
           CryptoAuthFailed);
    vm_compute; reflexivity.
Defined.

Lemma restore_keeps_safety_copy_witness :
  exists r w',
    @restoreFromBackup Ref.lib "store" None Ref.world_uploaded = (r, w') /\
    install_outcome "store" Ref.db0 Ref.db1 Ref.world_uploaded r w'.
Proof.
  pose (r1 := resolveTarget None Ref.world_uploaded).
  pose (target := match fst r1 with Ok t => t | Err _ => EmptyString end).
  pose (r2 := @downloadBackup Ref.lib target
                (snd (logger Info "Starting restore" (snd r1)))).
  pose (encrypted := match fst r2 with Ok (e, _) => e | Err _ => [] end).
  pose (metadata := match fst r2 with Ok (_, m) => m | Err _ => None end).
  pose (w3 := snd (@decodeBackup Ref.lib encrypted metadata (snd r2))).
  destruct (@restore_keeps_safety_copy Ref.lib "store" None Ref.world_uploaded
              (snd r1) (snd r2) w3 target encrypted metadata Ref.db0 Ref.db1)
    as (r & w' & Hrun & Hout & _); try (vm_compute; reflexivity).
  exists r, w'. split; [exact Hrun|exact Hout].
Defined.

(** ** Stepping through fallible calls *)

Lemma pop_outcome_done (w : World) :
  next_done w = true -> pop_outcome w = (Done, advance w).
Proof.
  unfold next_done, pop_outcome, advance.
  destruct w as [e f b c r [|[] os] t l]; cbn; intros;
    first [reflexivity | discriminate].
Qed.

Lemma pop_outcome_fault (w : World) :
  next_done w = false ->
  exists o, o <> Done /\ pop_outcome w = (o, advance w).
Proof.
  unfold next_done, pop_outcome, advance.
  destruct w as [e f b c r [|[] os] t l]; cbn; intros; try discriminate;
    eexists; (split; [|reflexivity]); discriminate.
Qed.

Lemma blob_list_done (pre : string) (w : World) :
  next_done w = true ->
  blob_list pre w =
    (Ok (List.filter (has_prefix pre) (blobs w)),
     record_call (CList pre) true (advance w)).
Proof. intros Hd. unfold blob_list. now rewrite pop_outcome_done. Qed.

Lemma blob_list_fault (pre : string) (w : World) :
  next_done w = false ->
  blob_list pre w = failed (CList pre) (advance w).
Proof.
  intros Hd. unfold blob_list.
  destruct (pop_outcome_fault w Hd) as (o & Ho & ->). now destruct o.
Qed.

Lemma fetch_done (u : string) (w : World) (body : bytes) :
  next_done w = true ->
  body_at w u = Some body ->
  fetch u w = (Ok body, record_call (CFetch u) true (advance w)).
Proof.
  intros Hd Hbody. unfold fetch. rewrite pop_outcome_done by exact Hd.
  unfold body_at in Hbody. cbn [advance blobs with_oracle].
  destruct (List.find _ _); [|discriminate]. now injection Hbody as ->.
Qed.

Lemma fetch_fault (u : string) (w : World) :
  next_done w = false \/ body_at w u = None ->
  fetch u w = failed (CFetch u) (advance w).
Proof.
  intros Hcase. unfold fetch.
  destruct (next_done w) eqn:Hd.
  - destruct Hcase as [?|Hnone]; [discriminate|].
    rewrite pop_outcome_done by exact Hd.
    unfold body_at in Hnone. cbn [advance blobs with_oracle].
    now destruct (List.find _ _).
  - destruct (pop_outcome_fault w Hd) as (o & Ho & ->). now destruct o.
Qed.

(** ** A missing credential *)

Section MissingToken.
Context `{NodeLib}.
Variable STORE_DIR : string.

Lemma restoreFromBackup_without_token (filename : option string) (w : World) :
  token_missing (getBlobToken (env w)) = true ->
  restoreFromBackup STORE_DIR filename w = (Err TokenNotConfigured, w).
Proof.
  intros Htoken. unfold restoreFromBackup, bind, get_env.
  now rewrite Htoken.
Qed.

Lemma uploadBackup_without_token (w : World) :
  token_missing (getBlobToken (env w)) = true ->
  exists e w',
    uploadBackup STORE_DIR w = (Err e, w') /\
    offline w w' /\
    ((exists a w1, createSafeBackup STORE_DIR w = (Ok a, w1)) ->
     e = TokenNotConfigured).
Proof.
  intros Htoken.
  destruct (createSafeBackup STORE_DIR w) as [[[buffer metadata]|e] w1] eqn:Hc;
    pose proof (keeps_run _ _ _ _ _ (createSafeBackup_offline STORE_DIR) Hc)
      as Hoff.
  - exists TokenNotConfigured, w1. split; [|split; [exact Hoff|reflexivity]].
    unfold uploadBackup. rewrite (bind_ok _ _ _ _ _ Hc).
    cbv beta iota. unfold bind, Date_now, get_env.
    destruct Hoff as (-> & _). now rewrite Htoken.
  - exists e, w1. split; [|split; [exact Hoff|]].
    + unfold uploadBackup. now rewrite (bind_err _ _ _ _ _ Hc).
    + intros (a & w2 & [=]).
Qed.

Lemma cleanupOldBackups_without_token (w : World) :
  token_missing (getBlobToken (env w)) = true ->
  cleanupOldBackups w =
    (Ok tt,
     with_logs
       (logs w ++
        [(Warn, "BLOB_READ_WRITE_TOKEN not configured, skipping cleanup")]) w).
Proof.
  intros Htoken. unfold cleanupOldBackups, bind, get_env.
  now rewrite Htoken.
Qed.

(** C8, as amended.  When the blob token is absent or empty:
    [restoreFromBackup] throws 'BLOB_READ_WRITE_TOKEN not configured' with
    no call made at all; [uploadBackup] throws before any call to the
    store, and the error is that configuration error whenever the local
    snapshot succeeded; [cleanupOldBackups] does not throw: it logs a
    warning and returns without any call. *)
Theorem missing_token_handling (filename : option string) (w : World) :
  token_missing (getBlobToken (env w)) = true ->
  restoreFromBackup STORE_DIR filename w = (Err TokenNotConfigured, w) /\
  (exists e w',
      uploadBackup STORE_DIR w = (Err e, w') /\
      net_calls (trace w') = net_calls (trace w) /\
      blobs w' = blobs w /\
      ((exists a w1, createSafeBackup STORE_DIR w = (Ok a, w1)) ->
       e = TokenNotConfigured)) /\
  (exists w',
      cleanupOldBackups w = (Ok tt, w') /\
      trace w' = trace w /\ blobs w' = blobs w /\ files w' = files w /\
      logs w' =
        logs w ++
        [(Warn, "BLOB_READ_WRITE_TOKEN not configured, skipping cleanup")]).
Proof.
  intros Htoken. split; [|split].
  - now apply restoreFromBackup_without_token.
  - destruct (uploadBackup_without_token w Htoken)
      as (e & w' & Hrun & (_ & Hblobs & _ & Hnet) & Hconf).
    exists e, w'. auto.
  - eexists. split; [now apply cleanupOldBackups_without_token|].
    repeat split.
Qed.

End MissingToken.

Lemma missing_token_handling_witness :
  @restoreFromBackup Ref.lib "store" None Ref.world_no_token
    = (Err TokenNotConfigured, Ref.world_no_token) /\
  (exists e w',
      @uploadBackup Ref.lib "store" Ref.world_no_token = (Err e, w') /\
      net_calls (trace w') = net_calls (trace Ref.world_no_token) /\
      blobs w' = blobs Ref.world_no_token /\
      ((exists a w1,
           @createSafeBackup Ref.lib "store" Ref.world_no_token = (Ok a, w1)) ->
       e = TokenNotConfigured)) /\
  (exists w',
      @cleanupOldBackups Ref.lib Ref.world_no_token = (Ok tt, w') /\
      trace w' = trace Ref.world_no_token /\
      blobs w' = blobs Ref.world_no_token /\
      files w' = files Ref.world_no_token /\
      logs w' =
        logs Ref.world_no_token ++
        [(Warn, "BLOB_READ_WRITE_TOKEN not configured, skipping cleanup")]).
Proof.
  apply (@missing_token_handling Ref.lib "store" None Ref.world_no_token).
  reflexivity.
Defined.

(** C8 as stated fails for [cleanupOldBackups]: without a token it raises
    no error. *)
Lemma cleanupOldBackups_missing_token_no_error :
  token_missing (getBlobToken (env Ref.world_no_token)) = true /\
  ~ exists e w',
      @cleanupOldBackups Ref.lib Ref.world_no_token = (Err e, w').
Proof.
  split; [reflexivity|].
  intros (e & w' & Hrun).
  rewrite cleanupOldBackups_without_token in Hrun by reflexivity.
  discriminate Hrun.
Qed.

(** ** [sort] puts a newest blob first *)

Lemma js_insert_In {A} (cmp : A -> A -> Z) (x y : A) (l : list A) :
  In y (js_insert cmp x l) <-> y = x \/ In y l.
Proof.
  induction l as [|z l IH]; cbn [js_insert].
  - cbn. intuition.
  - destruct (cmp x z <=? 0); cbn [In]; [intuition|].
    rewrite IH. cbn [In]. intuition.
Qed.

Lemma js_sort_In {A} (cmp : A -> A -> Z) (y : A) (l : list A) :
  In y (js_sort cmp l) <-> In y l.
Proof.
  induction l as [|x l IH]; [reflexivity|].
  change (js_sort cmp (x :: l)) with (js_insert cmp x (js_sort cmp l)).
  rewrite js_insert_In, IH. cbn [In]. intuition.
Qed.

Lemma js_sort_sorted (l : list Blob) :
  StronglySorted (fun a b => uploadedAt b <= uploadedAt a)
                 (js_sort newest_first l).
Proof.
  induction l as [|x l IH]; [constructor|].
  change (js_sort newest_first (x :: l))
    with (js_insert newest_first x (js_sort newest_first l)).
  induction IH as [|z s Hs IHs Hz]; cbn [js_insert].
  - repeat constructor.
  - unfold newest_first at 1.
    destruct (uploadedAt z - uploadedAt x <=? 0) eqn:Hcmp.
    + apply Z.leb_le in Hcmp. constructor; [now constructor|].
      constructor; [lia|].
      eapply Forall_impl; [exact Hz|]. cbn. intros; lia.
    + apply Z.leb_gt in Hcmp. constructor; [exact IHs|].
      apply List.Forall_forall. intros y Hy. apply js_insert_In in Hy.
      destruct Hy as [->|Hy]; [lia|].
      rewrite List.Forall_forall in Hz. now apply Hz.
Qed.

(** The head of the sorted listing is a listed blob with the latest upload
    time. *)
Lemma js_sort_head_newest (l : list Blob) (x : Blob) (rest : list Blob) :
  js_sort newest_first l = x :: rest ->
  In x l /\ forall y, In y l -> uploadedAt y <= uploadedAt x.
Proof.
  intros Hsort. split.
  - apply (js_sort_In newest_first). rewrite Hsort. now left.
  - intros y Hy. apply (js_sort_In newest_first) in Hy.
    pose proof (js_sort_sorted l) as Hs. rewrite Hsort in Hs, Hy.
    inversion Hs as [|? ? _ Hall]; subst.
    destruct Hy as [->|Hy]; [lia|].
    rewrite List.Forall_forall in Hall. now apply Hall.
Qed.

Lemma js_sort_nonempty {A} (cmp : A -> A -> Z) (x : A) (l : list A) :
  exists y rest, js_sort cmp (x :: l) = y :: rest.
Proof.
  change (js_sort cmp (x :: l)) with (js_insert cmp x (js_sort cmp l)).
  destruct (js_sort cmp l) as [|z s]; cbn [js_insert]; [eauto|].
  destruct (cmp x z <=? 0); eauto.
Qed.

(** ** Verification *)

Section Verify.
Context `{NodeLib}.

Lemma decrypt_run (encrypted : bytes) (w : World) :
  decrypt encrypted w = (decrypt_with (getBackupKey (env w)) encrypted, w).
Proof. reflexivity. Qed.

Lemma verifyLatestBackup_result (w : World) :
  exists b w', verifyLatestBackup w = (Ok b, w') /\ (b = true <-> verify_passes w).
Proof.
  unfold verifyLatestBackup, verify_passes.
  unfold bind at 1. cbn [get_env].
  destruct (token_missing (getBlobToken (env w))) eqn:Htoken.
  { exists false, w. split; [reflexivity|]. split; [discriminate|].
    intros (? & _). discriminate. }
  unfold try_catch. fold DAILY_PREFIX.
  destruct (next_done w) eqn:Hd1.
  2:{ rewrite (bind_err _ _ _ _ _ (blob_list_fault DAILY_PREFIX w Hd1)).
      eexists false, _. split; [reflexivity|]. split; [discriminate|].
      intros (_ & ? & _). discriminate. }
  rewrite (bind_ok _ _ _ _ _ (blob_list_done DAILY_PREFIX w Hd1)).
  cbv beta zeta. fold (daily_artifacts w).
  destruct (daily_artifacts w) as [|b0 others] eqn:Hdaily.
  { eexists false, _. split; [reflexivity|]. split; [discriminate|].
    intros (_ & _ & _ & latest & rest & ? & ? & Hsort & _). discriminate. }
  destruct (js_sort_nonempty newest_first b0 others) as (latest & rest & Hsort).
  rewrite Hsort.
  set (w1 := record_call (CList DAILY_PREFIX) true (advance w)).
  assert (next_done w1 = next_done (advance w)) as Hd2 by reflexivity.
  assert (body_at w1 (url latest) = body_at w (url latest)) as Hb by reflexivity.
  assert (env w1 = env w) as Henv by reflexivity.
  destruct (next_done (advance w)) eqn:Hnext;
    [destruct (body_at w (url latest)) as [body|] eqn:Hbody|].
  - rewrite (bind_ok _ _ _ _ _ (fetch_done (url latest) w1 body Hd2 Hb)).
    set (w2 := record_call (CFetch (url latest)) true (advance w1)).
    pose proof (decrypt_run body w2) as Hrun.
    change (env w2) with (env w) in Hrun.
    destruct (decrypt_with (getBackupKey (env w)) body) as [compressed|e]
      eqn:Hdec.
    + rewrite (bind_ok _ _ _ _ _ Hrun).
      eexists true, _. split; [reflexivity|]. split; [|reflexivity].
      intros _. repeat split. now exists latest, rest, body, compressed.
    + rewrite (bind_err _ _ _ _ _ Hrun).
      eexists false, _. split; [reflexivity|]. split; [discriminate|].
      intros (_ & _ & _ & l' & r' & b' & c' & Hs' & Hb' & Hd').
      injection Hs' as <- <-.
      rewrite Hbody in Hb'. injection Hb' as <-. congruence.
  - rewrite (bind_err _ _ _ _ _
               (fetch_fault (url latest) w1 (or_intror Hb))).
    eexists false, _. split; [reflexivity|]. split; [discriminate|].
    intros (_ & _ & _ & l' & r' & b' & c' & Hs' & Hb' & _).
    injection Hs' as <- <-. congruence.
  - rewrite (bind_err _ _ _ _ _
               (fetch_fault (url latest) w1 (or_introl Hd2))).
    eexists false, _. split; [reflexivity|]. split; [discriminate|].
    intros (_ & _ & ? & _). discriminate.
Qed.

(** C5, as amended.  [verifyLatestBackup] never throws and leaves the file
    system and the store as they were.  It answers [true] exactly when the
    token is set, the listing and the download complete and the newest
    daily artifact decrypts; decompression, the checksum and the SQLite
    header are not looked at. *)
Theorem verifyLatestBackup_contract (w : World) :
  exists b w',
    verifyLatestBackup w = (Ok b, w') /\
    files w' = files w /\
    blobs w' = blobs w /\
    fs_calls (trace w') = fs_calls (trace w) /\
    (b = true <-> verify_passes w) /\
    (b = true ->
     exists latest body compressed,
       In latest (daily_artifacts w) /\
       (forall other, In other (daily_artifacts w) ->
                      uploadedAt other <= uploadedAt latest) /\
       body_at w (url latest) = Some body /\
       decrypt_with (getBackupKey (env w)) body = Ok compressed).
Proof.
  destruct (verifyLatestBackup_result w) as (b & w' & Hrun & Hiff).
  exists b, w'. split; [exact Hrun|].
  destruct (keeps_run _ _ _ _ _ verifyLatestBackup_reads_only Hrun)
    as (_ & Hfiles & Hblobs & _ & Hcalls).
  split; [exact Hfiles|]. split; [exact Hblobs|]. split; [exact Hcalls|].
  split; [exact Hiff|].
  intros Hb. apply Hiff in Hb.
  destruct Hb as (_ & _ & _ & latest & rest & body & compressed
                  & Hsort & Hbody & Hdec).
  destruct (js_sort_head_newest _ _ _ Hsort) as [Hin Hmax].
  now exists latest, body, compressed.
Qed.

End Verify.

(** C5 as stated fails: the newest artifact below decrypts but is not a
    gzip stream, so a full decode (and a restore) fails on it, yet
    [verifyLatestBackup] answers [true]. *)
Lemma verifyLatestBackup_passes_undecodable :
  fst (@verifyLatestBackup Ref.lib Ref.world_undecodable) = Ok true /\
  fst (@decodeBackup Ref.lib Ref.sealed_noise None Ref.world_undecodable)
    = Err ZlibError /\
  fst (@restoreFromBackup Ref.lib "store" None Ref.world_undecodable)
    = Err ZlibError.
Proof. repeat split; vm_compute; reflexivity. Qed.

(** ** Which errors an operation can raise *)

Section Raises.
Context (P : Error -> Prop).

Lemma raises_ret {A} (a : A) : raises P (ret a).
Proof. intros w e w' [=]. Qed.

Lemma raises_throw {A} (e : Error) : P e -> raises P (@throw A e).
Proof. intros He w e' w' [= <- _]. exact He. Qed.

Lemma raises_logger (lvl : LogLevel) (msg : string) : raises P (logger lvl msg).
Proof. intros w e w' [=]. Qed.

Lemma raises_get_env : raises P get_env.
Proof. intros w e w' [=]. Qed.

Lemma raises_Date_now : raises P Date_now.
Proof. intros w e w' [=]. Qed.

Lemma raises_fs_existsSync (p : string) : raises P (fs_existsSync p).
Proof. intros w e w' [=]. Qed.

Lemma raises_bind {A B} (m : M A) (k : A -> M B) :
  raises P m -> (forall a, raises P (k a)) -> raises P (bind m k).
Proof.
  intros Hm Hk w e w'. unfold bind.
  destruct (m w) as [[a|e0] w1] eqn:Hrun.
  - apply Hk.
  - intros [= <- _]. eapply Hm, Hrun.
Qed.

Hypothesis failed_calls : forall c, P (CallFailed c).

Lemma raises_failed {A} (c : Call) (w w' : World) (e : Error) :
  @failed A c w = (Err e, w') -> P e.
Proof. intros [= <- _]. apply failed_calls. Qed.

Lemma raises_fetch (u : string) : raises P (fetch u).
Proof.
  intros w e w'. unfold fetch. destruct (pop_outcome w) as [[] w1];
    try apply raises_failed.
  destruct (List.find _ _); [discriminate|apply raises_failed].
Qed.

Lemma raises_fs_copyFileSync (src dst : string) :
  raises P (fs_copyFileSync src dst).
Proof.
  intros w e w'. unfold fs_copyFileSync.
  destruct (pop_outcome w) as [[] w1], (files w1 !! src);
    try apply raises_failed; discriminate.
Qed.

Lemma raises_fs_writeFileSync (p : string) (data : bytes) :
  raises P (fs_writeFileSync p data).
Proof.
  intros w e w'. unfold fs_writeFileSync.
  destruct (pop_outcome w) as [[] w1]; try apply raises_failed; discriminate.
Qed.

End Raises.

Ltac raises_side := first [assumption | intros; discriminate].

Ltac raises_step :=
  lazymatch goal with
  | |- raises _ (bind _ _) => apply raises_bind; [|intros ?]
  | |- raises _ (ret _) => apply raises_ret
  | |- raises _ (throw _) => apply raises_throw; raises_side
  | |- raises _ (logger _ _) => apply raises_logger
  | |- raises _ get_env => apply raises_get_env
  | |- raises _ Date_now => apply raises_Date_now
  | |- raises _ (fs_existsSync _) => apply raises_fs_existsSync
  | |- raises _ (fetch _) => apply raises_fetch; raises_side
  | |- raises _ (fs_copyFileSync _ _) =>
      apply raises_fs_copyFileSync; raises_side
  | |- raises _ (fs_writeFileSync _ _) =>
      apply raises_fs_writeFileSync; raises_side
  | |- raises _ (match ?x with _ => _ end) => destruct x
  | |- raises _ _ => solve [eauto]
  end.

(** ** Which artifact a restore takes *)

Section Resolve.
Context `{NodeLib}.
Variable STORE_DIR : string.

Lemma installBackup_raises (P : Error -> Prop) (dbBuffer : bytes) :
  (forall c, P (CallFailed c)) -> raises P (installBackup STORE_DIR dbBuffer).
Proof. intros Hc. unfold installBackup. repeat raises_step. Qed.

Lemma decodeBackup_raises (P : Error -> Prop) encrypted metadata :
  (forall e, decode_error e -> P e) ->
  raises P (decodeBackup encrypted metadata).
Proof. intros HP w e w' Hrun. eapply HP, decodeBackup_error, Hrun. Qed.

Lemma fetch_ok_body (u : string) (w w' : World) (body : bytes) :
  fetch u w = (Ok body, w') -> body_at w u = Some body.
Proof.
  unfold fetch, body_at. destruct (pop_outcome_spec w) as (o & -> & _).
  cbn [blobs with_oracle].
  destruct o; try discriminate.
  destruct (List.find _ _); [|discriminate]. now intros [= <- _].
Qed.

(** An explicit, non-empty key is taken as it is. *)
Lemma resolveTarget_explicit (c : ascii) (s : string) (w : World) :
  resolveTarget (Some (String c s)) w = (Ok (String c s), w).
Proof. reflexivity. Qed.

(** Without a key the newest daily artifact is chosen; with no daily
    artifact the restore stops with 'No backup found'. *)
Lemma resolveTarget_latest (filename : option string) (w : World) :
  filename = None \/ filename = Some EmptyString ->
  next_done w = true ->
  match daily_artifacts w with
  | [] => fst (resolveTarget filename w) = Err NoBackupFound
  | _ :: _ =>
      exists latest,
        fst (resolveTarget filename w) = Ok (pathname latest) /\
        In latest (daily_artifacts w) /\
        forall other, In other (daily_artifacts w) ->
                      uploadedAt other <= uploadedAt latest
  end.
Proof.
  intros Hkey Hd.
  assert (resolveTarget filename w = resolveTarget None w) as ->
    by (destruct Hkey as [->| ->]; reflexivity).
  unfold resolveTarget. fold DAILY_PREFIX.
  rewrite (bind_ok _ _ _ _ _ (blob_list_done DAILY_PREFIX w Hd)).
  cbv beta zeta. fold (daily_artifacts w).
  destruct (daily_artifacts w) as [|b0 others] eqn:Hdaily; [reflexivity|].
  destruct (js_sort_nonempty newest_first b0 others) as (latest & rest & Hsort).
  rewrite Hsort. exists latest. split; [reflexivity|].
  exact (js_sort_head_newest _ _ _ Hsort).
Qed.

(** When no listed key starts with the target, the restore stops with
    'Backup not found'. *)
Lemma downloadBackup_not_found (target : string) (w : World) :
  next_done w = true ->
  List.filter (has_prefix target) (blobs w) = [] ->
  fst (downloadBackup target w) = Err (BackupNotFound target).
Proof.
  intros Hd Hnone. unfold downloadBackup.
  rewrite (bind_ok _ _ _ _ _ (blob_list_done target w Hd)).
  now rewrite Hnone.
Qed.

(** Otherwise the bytes downloaded as the artifact are those of the first
    listed blob whose key starts with the target. *)
Lemma downloadBackup_first_listed
      (target : string) (w w' : World) (first : Blob) (rest : list Blob)
      (encrypted : bytes) (metadata : option BackupMetadata) :
  next_done w = true ->
  List.filter (has_prefix target) (blobs w) = first :: rest ->
  downloadBackup target w = (Ok (encrypted, metadata), w') ->
  body_at w (url first) = Some encrypted.
Proof.
  intros Hd Hlisted. unfold downloadBackup.
  rewrite (bind_ok _ _ _ _ _ (blob_list_done target w Hd)).
  rewrite Hlisted. cbv beta iota zeta.
  set (w1 := record_call (CList target) true (advance w)).
  set (fetch_meta := match List.find _ (first :: rest) with
                     | Some mb => _
                     | None => ret None
                     end).
  assert (keeps reads_only fetch_meta) as Hkeep
    by (unfold fetch_meta; repeat keeps_step).
  unfold bind at 1.
  destruct (fetch_meta w1) as [[m|e] w2] eqn:Hmeta; [|discriminate].
  pose proof (keeps_run _ _ _ _ _ Hkeep Hmeta) as (_ & _ & Hblobs & _).
  unfold bind.
  destruct (fetch (url first) w2) as [[body|e] w3] eqn:Hfetch; [|discriminate].
  intros [= <- _ _]. apply fetch_ok_body in Hfetch.
  unfold body_at in *. now rewrite Hblobs in Hfetch.
Qed.

(** C9. With an explicit key the restore is claimed to use exactly the
    artifact stored under that key and to stop with a not-found error when
    the key is absent from the listing.  The code lists by prefix and takes
    the first listed blob: whenever some listed key merely starts with the
    given key, no not-found error is raised and the bytes of that first
    blob are downloaded as the artifact. *)
Theorem restoreFromBackup_prefix_key
        (c : ascii) (s : string) (w : World) (first : Blob) (rest : list Blob) :
  let key := String c s in
  token_missing (getBlobToken (env w)) = false ->
  next_done w = true ->
  List.filter (has_prefix key) (blobs w) = first :: rest ->
  fst (restoreFromBackup STORE_DIR (Some key) w) <> Err (BackupNotFound key) /\
  forall encrypted metadata w2,
    downloadBackup key (snd (logger Info "Starting restore" w))
      = (Ok (encrypted, metadata), w2) ->
    body_at w (url first) = Some encrypted.
Proof.
  intros key Htoken Hd Hlisted. split.
  - unfold restoreFromBackup. unfold bind at 1. cbn [get_env].
    rewrite Htoken.
    rewrite (bind_ok _ _ _ _ _ (resolveTarget_explicit c s w)).
    unfold bind at 1. cbn [logger]. fold key.
    set (w0 := with_logs _ w).
    assert (next_done w0 = true) as Hd0 by exact Hd.
    unfold downloadBackup. rewrite bind_assoc.
    rewrite (bind_ok _ _ _ _ _ (blob_list_done key w0 Hd0)).
    change (blobs w0) with (blobs w). rewrite Hlisted. cbv beta iota zeta.
    match goal with
    | |- fst (?m ?w1) <> _ =>
        assert (raises (fun e => e <> BackupNotFound key) m) as Hraises
    end.
    { assert (forall d, raises (fun e => e <> BackupNotFound key)
                                (installBackup STORE_DIR d)) as Hinstall
        by (intros; apply installBackup_raises; discriminate).
      assert (forall enc meta, raises (fun e => e <> BackupNotFound key)
                                       (decodeBackup enc meta)) as Hdecode
        by (intros; apply decodeBackup_raises; intros e He ->; exact He).
      repeat raises_step. }
    match goal with
    | |- fst (?m ?w1) <> _ => destruct (m w1) as [[[]|e] w'] eqn:Hrun
    end; cbn [fst]; [discriminate|].
    intros [= ->]. now apply Hraises in Hrun.
  - intros encrypted metadata w2 Hdl.
    change (body_at w (url first))
      with (body_at (snd (logger Info "Starting restore" w)) (url first)).
    eapply downloadBackup_first_listed; [exact Hd|exact Hlisted|exact Hdl].
Qed.

End Resolve.

Lemma restoreFromBackup_prefix_key_witness :
  fst (@restoreFromBackup Ref.lib "store" (Some Ref.key1) Ref.world_orphan)
    <> Err (BackupNotFound Ref.key1) /\
  forall encrypted metadata w2,
    @downloadBackup Ref.lib Ref.key1
      (snd (logger Info "Starting restore" Ref.world_orphan))
      = (Ok (encrypted, metadata), w2) ->
    body_at Ref.world_orphan
            (url (Ref.blob_at (Ref.key1 +:+ META_SUFFIX)
                              (Ref.noon_2026_03_15 - MS_PER_DAY)
                              (list_byte_of_string "0a1b2c")))
      = Some encrypted.
Proof.
  apply (@restoreFromBackup_prefix_key Ref.lib "store" "n"%char
           "anoclaw-backup/daily/2026-03-14_1773489600000.db"
           Ref.world_orphan _ []);
    reflexivity.
Defined.

(** On the store that holds only the orphaned metadata record, a restore
    of the missing artifact's key downloads the metadata record twice, as
    metadata and as artifact, and fails in [decrypt]. *)
Example restoreFromBackup_orphan_run :
  (forall b, In b (blobs Ref.world_orphan) -> pathname b <> Ref.key1) /\
  fst (@restoreFromBackup Ref.lib "store" (Some Ref.key1) Ref.world_orphan)
    = Err (CryptoInvalidTagLength 0) /\
  map ev_call
      (trace (snd (@restoreFromBackup Ref.lib "store" (Some Ref.key1)
                     Ref.world_orphan)))
    = [CList Ref.key1;
       CFetch (store_url (Ref.key1 +:+ META_SUFFIX));
       CFetch (store_url (Ref.key1 +:+ META_SUFFIX))].
Proof.
  split; [|split; vm_compute; reflexivity].
  intros b [<-|[]]. vm_compute. discriminate.
Qed.

(** ** Keys and their metadata keys *)

(** A key ending in ".db" is not a metadata key. *)
Lemma db_key_is_not_meta (k : string) :
  endsWith (k +:+ ".db") META_SUFFIX = false.
Proof.
  destruct (endsWith (k +:+ ".db") META_SUFFIX) eqn:Hends; [|reflexivity].
  apply endsWith_spec in Hends. destruct Hends as (q & Hq).
  apply (f_equal list_ascii_of_string) in Hq.
  rewrite !list_ascii_of_string_app in Hq.
  change (list_ascii_of_string ".db")
    with (["."; "d"]%char ++ ["b"%char]) in Hq.
  change (list_ascii_of_string META_SUFFIX)
    with (list_ascii_of_string ".meta.jso" ++ ["n"%char]) in Hq.
  rewrite !app_assoc in Hq. apply app_inj_tail in Hq.
  destruct Hq as [_ Hq]. discriminate Hq.
Qed.

Lemma stored_put_blob (k : string) (b : Blob) (bs : list Blob) :
  stored k (put_blob b bs) <-> k = pathname b \/ stored k bs.
Proof.
  unfold stored, put_blob. split.
  - intros (x & Hin & <-). apply in_app_or in Hin.
    destruct Hin as [Hin|[->|[]]]; [|now left].
    apply filter_In in Hin. right. exists x. tauto.
  - destruct (String.eqb_spec k (pathname b)) as [->|Hne].
    + intros _. exists b. split; [|reflexivity].
      apply in_or_app. right. now left.
    + intros [?|(x & Hin & <-)]; [contradiction|].
      exists x. split; [|reflexivity]. apply in_or_app. left.
      apply filter_In. split; [exact Hin|].
      unfold named. apply negb_true_iff, String.eqb_neq.
      intros E. apply Hne. now symmetry.
Qed.

Lemma stored_del_blobs (k : string) (l : list string) (bs : list Blob) :
  stored k (del_blobs l bs) <-> stored k bs /\ ~ In k l.
Proof.
  unfold stored, del_blobs. split.
  - intros (x & Hin & <-). apply filter_In in Hin. destruct Hin as [Hin Hkeep].
    split; [now exists x|]. intros Hl.
    apply negb_true_iff in Hkeep.
    assert (existsb (String.eqb (pathname x)) l = true) as Hex; [|congruence].
    apply existsb_exists. exists (pathname x). split; [exact Hl|].
    apply String.eqb_refl.
  - intros [(x & Hin & <-) Hl]. exists x. split; [|reflexivity].
    apply filter_In. split; [exact Hin|].
    apply negb_true_iff. destruct (existsb _ l) eqn:Hex; [|reflexivity].
    apply existsb_exists in Hex. destruct Hex as (y & Hy & Heq).
    apply String.eqb_eq in Heq. subst y. contradiction.
Qed.

Lemma del_blobs_cons (p : string) (l : list string) (bs : list Blob) :
  del_blobs l (List.filter (fun b => negb (named p b)) bs)
  = del_blobs (p :: l) bs.
Proof.
  unfold del_blobs. induction bs as [|b bs IH]; [reflexivity|].
  cbn [List.filter existsb]. unfold named at 1.
  destruct (String.eqb (pathname b) p); cbn [negb orb List.filter].
  - exact IH.
  - destruct (existsb _ l); cbn [negb]; now rewrite IH.
Qed.

(** Adding an artifact and its metadata record keeps the store paired. *)
Lemma paired_put_pair (bs : list Blob) (artifact record : Blob) :
  paired bs ->
  endsWith (pathname artifact) META_SUFFIX = false ->
  pathname record = pathname artifact +:+ META_SUFFIX ->
  paired (put_blob record (put_blob artifact bs)).
Proof.
  intros Hpaired Hart Hrec k Hk.
  rewrite !stored_put_blob, Hrec. specialize (Hpaired k Hk).
  split.
  - intros [->|[->|Hst]].
    + rewrite endsWith_own_suffix in Hk. discriminate.
    + now left.
    + right. right. now apply Hpaired.
  - intros [Heq|[Heq|Hst]].
    + apply string_app_inv_tail in Heq. right. now left.
    + rewrite <- Heq, endsWith_own_suffix in Hart. discriminate.
    + right. right. now apply Hpaired.
Qed.

Section PairedCleanup.
Context `{NodeLib}.

(** Deleting, for every doomed artifact, its key and its metadata key keeps
    the store paired. *)
Lemma paired_del_pairs (now : Z) (bs dbBlobs : list Blob) :
  paired bs ->
  (forall b, In b dbBlobs -> is_meta b = false) ->
  paired (del_blobs (flat_map (marked now) dbBlobs) bs).
Proof.
  intros Hpaired Hart k Hk. rewrite !stored_del_blobs.
  specialize (Hpaired k Hk).
  assert (In k (flat_map (marked now) dbBlobs)
          <-> In (k +:+ META_SUFFIX) (flat_map (marked now) dbBlobs)) as Hin.
  { rewrite !in_marked. split.
    - intros (b & Hb & Hkeep & [->| ->]).
      + exists b. auto.
      + rewrite endsWith_own_suffix in Hk. discriminate.
    - intros (b & Hb & Hkeep & [Heq|Heq]).
      + specialize (Hart b Hb). unfold is_meta in Hart.
        rewrite <- Heq, endsWith_own_suffix in Hart. discriminate.
      + apply string_app_inv_tail in Heq. exists b. auto. }
  tauto.
Qed.

End PairedCleanup.

(** ** The trace only grows *)

#[global] Instance extends_preorder : PreOrder extends.
Proof.
  split.
  - intros w. exists []. now rewrite app_nil_r.
  - intros a b c [e1 H1] [e2 H2]. exists (e1 ++ e2).
    now rewrite H2, H1, app_assoc.
Qed.

Ltac extends_done :=
  first [ exists []; cbn; now rewrite app_nil_r
        | eexists; cbn; reflexivity ].

Lemma logger_extends lvl msg : keeps extends (logger lvl msg).
Proof. intros w. extends_done. Qed.

Lemma randomBytes_extends n : keeps extends (randomBytes n).
Proof. intros w. unfold randomBytes. destruct (entropy w); extends_done. Qed.

Lemma blob_list_extends pre : keeps extends (blob_list pre).
Proof.
  intros w. unfold blob_list, failed. pop_oracle w. destruct o; extends_done.
Qed.

Lemma blob_put_extends p body : keeps extends (blob_put p body).
Proof.
  intros w. unfold blob_put, failed. pop_oracle w. destruct o; extends_done.
Qed.

Lemma blob_del_extends p : keeps extends (blob_del p).
Proof.
  intros w. unfold blob_del, failed. pop_oracle w. destruct o; extends_done.
Qed.

Lemma fs_readFileSync_extends p : keeps extends (fs_readFileSync p).
Proof.
  intros w. unfold fs_readFileSync, failed. pop_oracle w.
  cbn [files with_oracle]. destruct o, (files w !! p); extends_done.
Qed.

Lemma fs_unlinkSync_extends p : keeps extends (fs_unlinkSync p).
Proof.
  intros w. unfold fs_unlinkSync, failed. pop_oracle w.
  cbn [files with_oracle]. destruct o, (files w !! p); extends_done.
Qed.

#[global] Hint Resolve logger_extends randomBytes_extends blob_list_extends
  blob_put_extends blob_del_extends fs_readFileSync_extends
  fs_unlinkSync_extends : keeps.

Section OperationTraces.
Context `{NodeLib}.
Variable STORE_DIR : string.

Lemma sqlite_open_extends p : keeps extends (sqlite_open p).
Proof.
  intros w. unfold sqlite_open, failed. pop_oracle w.
  cbn [files with_oracle]. destruct o, (files w !! p); extends_done.
Qed.

Lemma sqlite_vacuum_into_extends src dst :
  keeps extends (sqlite_vacuum_into src dst).
Proof.
  intros w. unfold sqlite_vacuum_into, failed. pop_oracle w.
  cbn [files with_oracle].
  destruct (files w !! dst) as [[|? ?]|], (files w !! src), o; extends_done.
Qed.

Lemma createSafeBackup_extends : keeps extends (createSafeBackup STORE_DIR).
Proof.
  pose proof sqlite_open_extends. pose proof sqlite_vacuum_into_extends.
  unfold createSafeBackup, encodeBackup, encrypt. repeat keeps_step.
Qed.

Lemma uploadBackup_extends : keeps extends (uploadBackup STORE_DIR).
Proof.
  pose proof createSafeBackup_extends.
  unfold uploadBackup. repeat keeps_step.
Qed.

Lemma cleanupOldBackups_extends : keeps extends cleanupOldBackups.
Proof. unfold cleanupOldBackups, deleteAll. repeat keeps_step. Qed.

End OperationTraces.

(** ** The artifact and its metadata record stay together *)

Lemma blob_put_done (p : string) (body : bytes) (w : World) :
  next_done w = true ->
  blob_put p body w =
    (Ok tt,
     record_call (CPut p) true
       (with_blobs (put_blob (new_blob p body w) (blobs w)) (advance w))).
Proof. intros Hd. unfold blob_put. now rewrite pop_outcome_done. Qed.

Lemma blob_put_fault (p : string) (body : bytes) (w : World) :
  next_done w = false ->
  blob_put p body w = failed (CPut p) (advance w).
Proof.
  intros Hd. unfold blob_put.
  destruct (pop_outcome_fault w Hd) as (o & Ho & ->). now destruct o.
Qed.

Lemma blob_del_done (p : string) (w : World) :
  next_done w = true ->
  blob_del p w =
    (Ok tt,
     record_call (CDel p) true
       (with_blobs (List.filter (fun b => negb (named p b)) (blobs w))
                   (advance w))).
Proof. intros Hd. unfold blob_del. now rewrite pop_outcome_done. Qed.

Lemma blob_del_fault (p : string) (w : World) :
  next_done w = false ->
  blob_del p w = failed (CDel p) (advance w).
Proof.
  intros Hd. unfold blob_del.
  destruct (pop_outcome_fault w Hd) as (o & Ho & ->). now destruct o.
Qed.

Lemma write_ok_snoc (tr : list Event) (e : Event) :
  Forall write_ok (tr ++ [e]) -> Forall write_ok tr /\ write_ok e.
Proof.
  intros Hall. apply Forall_app in Hall. destruct Hall as [Htr He].
  split; [exact Htr|]. now inversion He.
Qed.

Lemma del_blobs_nil (bs : list Blob) : del_blobs [] bs = bs.
Proof.
  unfold del_blobs. induction bs as [|b bs IH]; [reflexivity|].
  cbn [List.filter existsb negb]. now f_equal.
Qed.

(** The deletion loop never throws; when none of its deletes failed, the
    store lost exactly the listed keys. *)
Lemma deleteAll_spec (toDelete : list string) (w : World) :
  exists w',
    deleteAll toDelete w = (Ok tt, w') /\
    (Forall write_ok (trace w') ->
     Forall write_ok (trace w) /\
     blobs w' = del_blobs toDelete (blobs w)).
Proof.
  revert w. induction toDelete as [|p rest IH]; intros w.
  - exists w. split; [reflexivity|]. intros Hall.
    now rewrite del_blobs_nil.
  - unfold deleteAll. cbn [for_of]. fold (deleteAll rest).
    destruct (next_done w) eqn:Hd.
    + set (w1 := with_logs (logs w ++ [(Info, "Deleted old backup")])
                   (record_call (CDel p) true
                      (with_blobs
                         (List.filter (fun b => negb (named p b)) (blobs w))
                         (advance w)))).
      destruct (IH w1) as (w' & Hrun & Hspec). exists w'. split.
      * unfold bind at 1, try_catch.
        rewrite (bind_ok _ _ _ _ _ (blob_del_done p w Hd)). exact Hrun.
      * intros Hall. destruct (Hspec Hall) as [Hall1 Hblobs].
        apply write_ok_snoc in Hall1. destruct Hall1 as [Hall0 _].
        split; [exact Hall0|]. rewrite Hblobs.
        apply del_blobs_cons.
    + set (w1 := with_logs (logs w ++ [(Warn, "Failed to delete backup")])
                   (record_call (CDel p) false (advance w))).
      destruct (IH w1) as (w' & Hrun & Hspec). exists w'. split.
      * unfold bind at 1, try_catch.
        rewrite (bind_err _ _ _ _ _ (blob_del_fault p w Hd)). exact Hrun.
      * intros Hall. destruct (Hspec Hall) as [Hall1 _].
        apply write_ok_snoc in Hall1. destruct Hall1 as [_ Hbad].
        discriminate Hbad.
Qed.

Lemma string_app_assoc (a b c : string) : (a +:+ b) +:+ c = a +:+ (b +:+ c).
Proof.
  apply list_ascii_of_string_inj.
  now rewrite !list_ascii_of_string_app, app_assoc.
Qed.

Section Pairing.
Context `{NodeLib}.
Variable STORE_DIR : string.

Lemma uploadBackup_paired (w : World) :
  paired (blobs w) ->
  Forall write_ok (trace (snd (uploadBackup STORE_DIR w))) ->
  paired (blobs (snd (uploadBackup STORE_DIR w))).
Proof.
  intros Hpaired.
  destruct (uploadBackup STORE_DIR w) as [r w'] eqn:Hrun. cbn [snd].
  revert Hrun. unfold uploadBackup.
  destruct (createSafeBackup STORE_DIR w) as [[[buffer metadata]|e] w1] eqn:Hc;
    pose proof (keeps_run _ _ _ _ _ (createSafeBackup_offline STORE_DIR) Hc)
      as (Henv & Hblobs & _ & _).
  2:{ rewrite (bind_err _ _ _ _ _ Hc). intros [= <- <-] _.
      now rewrite Hblobs. }
  rewrite (bind_ok _ _ _ _ _ Hc). cbv beta iota.
  unfold bind at 1. cbn [Date_now]. unfold bind at 1. cbn [Date_now].
  unfold bind at 1. cbn [get_env].
  destruct (token_missing (getBlobToken (env w1)));
    [intros [= <- <-] _; now rewrite Hblobs|].
  set (filename := BACKUP_PREFIX +:+ _).
  destruct (next_done w1) eqn:Hd1.
  2:{ rewrite (bind_err _ _ _ _ _ (blob_put_fault filename buffer w1 Hd1)).
      intros [= <- <-] _. cbn. now rewrite Hblobs. }
  rewrite (bind_ok _ _ _ _ _ (blob_put_done filename buffer w1 Hd1)).
  set (w2 := record_call (CPut filename) true _).
  destruct (next_done w2) eqn:Hd2.
  - rewrite (bind_ok _ _ _ _ _
               (blob_put_done (filename +:+ META_SUFFIX)
                              (JSON_stringify metadata) w2 Hd2)).
    intros [= <- <-] _.
    cbn [logger snd blobs with_logs record_call with_trace with_blobs w2].
    rewrite Hblobs.
    apply paired_put_pair; [exact Hpaired| |reflexivity].
    cbn [pathname new_blob]. unfold filename.
    rewrite <- !string_app_assoc. apply db_key_is_not_meta.
  - rewrite (bind_err _ _ _ _ _
               (blob_put_fault (filename +:+ META_SUFFIX)
                               (JSON_stringify metadata) w2 Hd2)).
    intros [= <- <-]. cbn [failed snd record_call trace with_trace].
    intros Hall. apply write_ok_snoc in Hall. destruct Hall as [_ Hbad].
    discriminate Hbad.
Qed.

Lemma cleanupOldBackups_paired (w : World) :
  paired (blobs w) ->
  Forall write_ok (trace (snd (cleanupOldBackups w))) ->
  paired (blobs (snd (cleanupOldBackups w))).
Proof.
  intros Hpaired.
  destruct (cleanupOldBackups w) as [r w''] eqn:Hrun0. cbn [snd].
  revert Hrun0. unfold cleanupOldBackups.
  unfold bind at 1. cbn [get_env].
  destruct (token_missing (getBlobToken (env w)));
    [intros [= <- <-] _; exact Hpaired|].
  destruct (next_done w) eqn:Hd.
  2:{ rewrite (bind_err _ _ _ _ _ (blob_list_fault BACKUP_PREFIX w Hd)).
      intros [= <- <-] _. exact Hpaired. }
  rewrite (bind_ok _ _ _ _ _ (blob_list_done BACKUP_PREFIX w Hd)).
  cbv beta zeta. unfold bind at 1. cbn [Date_now].
  set (w1 := record_call (CList BACKUP_PREFIX) true (advance w)).
  set (dbBlobs := List.filter (fun b => negb (is_meta b)) _).
  rewrite collectDeletions_flat_map.
  destruct (deleteAll_spec (flat_map (marked (clock w1)) dbBlobs) w1)
    as (w' & Hrun & Hspec).
  rewrite (bind_ok _ _ _ _ _ Hrun). cbn [logger].
  intros [= <- <-]. cbn [trace blobs with_logs].
  intros Hall. destruct (Hspec Hall) as [_ ->].
  apply paired_del_pairs; [exact Hpaired|].
  intros b Hb. apply filter_In in Hb. now apply negb_true_iff.
Qed.

Lemma run_op_extends (o : Op) (w : World) : extends w (run_op STORE_DIR o w).
Proof.
  destruct o; cbn [run_op].
  - apply uploadBackup_extends.
  - apply cleanupOldBackups_extends.
  - exists []. cbn. now rewrite app_nil_r.
Qed.

Lemma run_ops_extends (ops : list Op) (w : World) :
  extends w (run_ops STORE_DIR ops w).
Proof.
  revert w. induction ops as [|o ops IH]; intros w; [reflexivity|].
  etransitivity; [apply (run_op_extends o)|apply IH].
Qed.

Lemma write_ok_extends (w w' : World) :
  extends w w' -> Forall write_ok (trace w') -> Forall write_ok (trace w).
Proof.
  intros [evs Hevs] Hall. rewrite Hevs in Hall.
  now apply Forall_app in Hall.
Qed.

(** C6, as amended.  Starting from a store in which every artifact key has
    its metadata key and conversely, after any sequence of uploads and
    cleanups (with any amount of time in between) in which no remote put
    and no remote delete failed, the store is again paired. *)
Theorem pairing_preserved (ops : list Op) (w : World) :
  paired (blobs w) ->
  Forall write_ok (trace (run_ops STORE_DIR ops w)) ->
  paired (blobs (run_ops STORE_DIR ops w)).
Proof.
  revert w. induction ops as [|o ops IH]; intros w Hpaired Hall;
    [exact Hpaired|].
  change (run_ops STORE_DIR (o :: ops) w)
    with (run_ops STORE_DIR ops (run_op STORE_DIR o w)) in *.
  apply IH; [|exact Hall].
  pose proof (write_ok_extends _ _ (run_ops_extends ops _) Hall) as Hstep.
  destruct o; cbn [run_op] in *.
  - now apply uploadBackup_paired.
  - now apply cleanupOldBackups_paired.
  - exact Hpaired.
Qed.

End Pairing.

Lemma stored_in_map (k : string) (bs : list Blob) :
  stored k bs <-> In k (map pathname bs).
Proof.
  unfold stored. rewrite in_map_iff. split; intros (b & ? & ?); eauto.
Qed.

Lemma paired_nil : paired [].
Proof. intros k _. split; intros (b & [] & _). Qed.

Lemma pairing_preserved_witness :
  paired (blobs (@run_ops Ref.lib "store"
                   [OpUpload; OpWait (30 * MS_PER_DAY); OpUpload; OpCleanup]
                   Ref.world0)).
Proof.
  apply (@pairing_preserved Ref.lib "store").
  - exact paired_nil.
  - vm_compute. repeat constructor.
Defined.

(** C6 as stated fails: when the store refuses the second put of an
    upload, the artifact is left without its metadata record. *)
Lemma upload_put_failure_breaks_pairing :
  paired (blobs Ref.world_flaky) /\
  ~ paired (blobs (@run_ops Ref.lib "store" [OpUpload] Ref.world_flaky)).
Proof.
  split; [exact paired_nil|]. intros Hpaired.
  set (key := "nanoclaw-backup/daily/2026-03-15_1773576000000.db") in *.
  assert (map pathname
              (blobs (@run_ops Ref.lib "store" [OpUpload] Ref.world_flaky))
          = [key]) as Hkeys by (vm_compute; reflexivity).
  destruct (Hpaired key) as [Hforward _]; [vm_compute; reflexivity|].
  rewrite !stored_in_map, Hkeys in Hforward.
  destruct Hforward as [Heq|[]]; [now left|].
  symmetry in Heq. revert Heq. apply string_app_longer. discriminate.
Qed.

(** ** The file header, byte by byte

    [header.startsWith('SQLite format 3')] is a test on the decoded text;
    the lemmas below turn it into a test on the bytes of the buffer. *)

(** The payload of a continuation byte. *)
Lemma land_63_continuation (n : N) :
  (0x80 <= n)%N -> (n <= 0xBF)%N -> N.land n 0x3F = (n - 0x80)%N.
Proof.
  intros Hlo Hhi. change 0x3F%N with (N.ones 6). rewrite N.land_ones.
  change (2 ^ 6)%N with 64%N.
  symmetry. apply N.mod_unique with (q := 2%N); lia.
Qed.

Lemma lor_shiftl_6_lower (a b : N) : (a * 64 <= N.lor (N.shiftl a 6) b)%N.
Proof.
  rewrite N.shiftl_mul_pow2. change (2 ^ 6)%N with 64%N.
  destruct (N.eq_dec (a * 64)%N 0%N) as [->|Hne]; [lia|].
  apply N.nlt_ge. intros Hlt.
  assert (N.ldiff (a * 64) (N.lor (a * 64) b) = 0)%N as Hd.
  { apply N.bits_inj_0. intros i. rewrite N.ldiff_spec, N.lor_spec.
    destruct (N.testbit (a * 64) i); reflexivity. }
  apply N.ldiff_le in Hd. lia.
Qed.

Lemma lor_shiftl_6_low (a b : N) :
  (b < 64)%N -> N.lor (N.shiftl a 6) b = (a * 64 + b)%N.
Proof.
  intros Hb.
  assert (N.land (N.shiftl a 6) b = 0%N) as Hdisjoint.
  { apply N.bits_inj_0. intros i. rewrite N.land_spec.
    destruct (N.lt_ge_cases i 6) as [Hi|Hi].
    - now rewrite N.shiftl_spec_low.
    - replace b with (b mod 2 ^ 6)%N by (apply N.mod_small; exact Hb).
      rewrite N.mod_pow2_bits_high by exact Hi. apply andb_false_r. }
  rewrite <- N.lxor_lor by exact Hdisjoint.
  rewrite <- N.add_nocarry_lxor by exact Hdisjoint.
  now rewrite N.shiftl_mul_pow2.
Qed.

(** Once a lead byte at or above 0x80 was read, the next code point the
    decoder emits lies outside ASCII. *)
Lemma utf8_pending_first_high (rest : bytes) (s : Utf8Pending) :
  (0x80 <= pending_lower s)%N ->
  (pending_upper s <= 0xBF)%N ->
  (1 <= pending_needed s)%nat ->
  (128 <= (pending_cp s * 64 + (pending_lower s - 128))
          * 64 ^ N.of_nat (pending_needed s - 1))%N ->
  exists cp cps,
    utf8_decode_from (Some s) rest = cp :: cps /\ (128 <= cp)%N.
Proof.
  revert s. induction rest as [|b rest IH]; intros s Hlo Hhi Hneed Hfloor.
  - exists 0xFFFD%N, []. split; [reflexivity|lia].
  - cbn [utf8_decode_from]. cbv zeta.
    destruct ((pending_lower s <=? Byte.to_N b)
              && (Byte.to_N b <=? pending_upper s))%N eqn:Hrange.
    2:{ eexists _, _. split; [reflexivity|lia]. }
    apply andb_true_iff in Hrange. destruct Hrange as [H1 H2].
    apply N.leb_le in H1, H2.
    rewrite land_63_continuation by lia.
    rewrite lor_shiftl_6_low by lia.
    destruct (pending_needed s) as [|[|k]] eqn:Hn; [lia| |].
    + eexists _, _. split; [reflexivity|].
      cbn in Hfloor. lia.
    + apply IH; cbn [pending_lower pending_upper pending_needed pending_cp];
        try lia.
      replace (S (S k) - 1)%nat with (S k) in Hfloor by lia.
      replace (S k - 1)%nat with k by lia.
      rewrite Nat2N.inj_succ, N.pow_succ_r' in Hfloor.
      eapply N.le_trans; [exact Hfloor|].
      rewrite N.mul_assoc. apply N.mul_le_mono_r. lia.
Qed.

Lemma utf8_lead_high (b : byte) :
  (128 <= Byte.to_N b)%N ->
  match utf8_lead (Byte.to_N b) with
  | inl c => (128 <= c)%N
  | inr s =>
      (0x80 <= pending_lower s)%N /\
      (pending_upper s <= 0xBF)%N /\
      (1 <= pending_needed s)%nat /\
      (128 <= (pending_cp s * 64 + (pending_lower s - 128))
              * 64 ^ N.of_nat (pending_needed s - 1))%N
  end.
Proof.
  intros Hb.
  destruct b; try (exfalso; apply Hb; reflexivity);
    vm_compute; repeat split; first [discriminate | lia].
Qed.

Lemma utf16_first_unit (cp : N) :
  (128 <= cp)%N ->
  exists u us, utf16_of_code_point cp = u :: us /\ (128 <= u)%N.
Proof.
  intros Hcp. unfold utf16_of_code_point.
  destruct (cp <? 0x10000)%N; eexists _, _; (split; [reflexivity|lia]).
Qed.

Lemma toString_utf8_first_high (b : byte) (rest : bytes) :
  (128 <= Byte.to_N b)%N ->
  exists u us, toString_utf8 (b :: rest) = u :: us /\ (128 <= u)%N.
Proof.
  intros Hb. pose proof (utf8_lead_high b Hb) as Hlead.
  unfold toString_utf8. cbn [utf8_decode_from]. cbv zeta.
  destruct (utf8_lead (Byte.to_N b)) as [c|s].
  - destruct (utf16_first_unit c Hlead) as (u & us & Hu & Hhigh).
    cbn [flat_map]. rewrite Hu. eexists _, _. split; [reflexivity|exact Hhigh].
  - destruct Hlead as (Hlo & Hhi & Hneed & Hfloor).
    destruct (utf8_pending_first_high rest s Hlo Hhi Hneed Hfloor)
      as (cp & cps & -> & Hcp).
    destruct (utf16_first_unit cp Hcp) as (u & us & Hu & Hhigh).
    cbn [flat_map]. rewrite Hu. eexists _, _. split; [reflexivity|exact Hhigh].
Qed.

Lemma toString_utf8_ascii_byte (b : byte) (rest : bytes) :
  (Byte.to_N b < 128)%N ->
  toString_utf8 (b :: rest) = Byte.to_N b :: toString_utf8 rest.
Proof.
  intros Hb. unfold toString_utf8. cbn [utf8_decode_from]. cbv zeta.
  unfold utf8_lead. apply N.ltb_lt in Hb as Hb'. rewrite Hb'.
  cbn [flat_map]. unfold utf16_of_code_point at 1.
  assert ((Byte.to_N b <? 65536)%N = true) as -> by (apply N.ltb_lt; lia).
  reflexivity.
Qed.

(** A decoded string begins with an ASCII text only if the buffer begins
    with the bytes of that text. *)
Lemma toString_utf8_ascii_prefix (pre : jsstring) (buf : bytes) :
  Forall ascii_unit pre ->
  take (length pre) (toString_utf8 buf) = pre ->
  take (length pre) buf = map byte_of_N pre.
Proof.
  intros Hascii. revert buf.
  induction Hascii as [|c pre Hc Hpre IH]; intros buf Htake; [reflexivity|].
  destruct buf as [|b rest]; [discriminate Htake|].
  cbn [length take map]. unfold ascii_unit in Hc.
  destruct (N.lt_ge_cases (Byte.to_N b) 128) as [Hb|Hb].
  - rewrite toString_utf8_ascii_byte in Htake by exact Hb.
    cbn [length take] in Htake. injection Htake as Hhead Htail.
    rewrite <- Hhead, byte_of_N_to_N. f_equal. now apply IH.
  - destruct (toString_utf8_first_high b rest Hb) as (u & us & Hu & Hhigh).
    rewrite Hu in Htake. cbn [length take] in Htake.
    injection Htake as Hhead _. lia.
Qed.

(** The header check passes exactly when the buffer begins with the 15
    bytes of the magic text; the sixteenth byte is not looked at. *)
Lemma sqlite_header_accepted_iff (dbBuffer : bytes) :
  startsWith (toString_utf8 (buf_slice 0 16 dbBuffer))
             (js_lit "SQLite format 3") = true
  <-> take 15 dbBuffer = list_byte_of_string "SQLite format 3".
Proof.
  split; [|apply sqlite_header_accepted].
  unfold startsWith. rewrite bool_decide_eq_true. intros Htake.
  apply toString_utf8_ascii_prefix in Htake.
  - unfold buf_slice in Htake. rewrite drop_0 in Htake.
    change (length (js_lit "SQLite format 3")) with 15%nat in Htake.
    rewrite take_take in Htake. exact Htake.
  - unfold ascii_unit. vm_compute. repeat constructor.
Qed.

(** ** The key, the cipher and the decoder *)

Lemma concat_replicate_singleton {A} (n : nat) (c : A) :
  concat (replicate n [c]) = replicate n c.
Proof. induction n as [|n IH]; [reflexivity|]. cbn. now rewrite IH. Qed.

(** X1. A supplied BACKUP_KEY made of ASCII characters yields the value
    cut to its first 32 characters, or padded on the right with '0' up to
    32 characters, one byte per character: always exactly 32 bytes. *)
Theorem getBackupKey_pads_or_truncates (e : Env) (k : jsstring) :
  BACKUP_KEY e = Some k ->
  Forall ascii_unit k ->
  getBackupKey e
    = map byte_of_N (take 32 (k ++ replicate (32 - length k) 48%N)) /\
  length (getBackupKey e) = 32%nat.
Proof.
  intros Hk Hascii.
  assert (getBackupKey e
          = map byte_of_N (take 32 (k ++ replicate (32 - length k) 48%N)))
    as Hvalue.
  { unfold getBackupKey. rewrite Hk. cbn [option_map].
    change (js_lit "0") with [48%N].
    unfold str_slice0, padEnd. rewrite concat_replicate_singleton.
    rewrite (take_ge (replicate _ _)) by (rewrite length_replicate; lia).
    set (t := take 32 _).
    assert (length t = 32%nat) as Hlen.
    { unfold t. rewrite length_take, length_app, length_replicate. lia. }
    assert (Forall ascii_unit t) as Ht.
    { unfold t. apply Forall_take, Forall_app. split; [exact Hascii|].
      apply Forall_replicate. unfold ascii_unit. lia. }
    destruct t as [|u t'] eqn:Et; [discriminate Hlen|].
    cbn [js_or]. now apply Buffer_from_ascii. }
  split; [exact Hvalue|].
  rewrite Hvalue, length_map, length_take, length_app, length_replicate. lia.
Qed.

Lemma getBackupKey_pads_or_truncates_witness :
  getBackupKey {| BACKUP_KEY := Some (js_lit "s3cret");
                  BLOB_READ_WRITE_TOKEN := None |}
    = list_byte_of_string "s3cret00000000000000000000000000" /\
  length (getBackupKey {| BACKUP_KEY := Some (js_lit "s3cret");
                          BLOB_READ_WRITE_TOKEN := None |}) = 32%nat.
Proof.
  apply (getBackupKey_pads_or_truncates
           {| BACKUP_KEY := Some (js_lit "s3cret");
              BLOB_READ_WRITE_TOKEN := None |} (js_lit "s3cret")).
  - reflexivity.
  - unfold ascii_unit. repeat constructor.
Defined.

Section CodecFacts.
Context `{NodeLib}.

Lemma encrypt_run `{NodeLib} (buffer : bytes) (w : World) :
  exists iv,
    length iv = 16%nat /\
    encrypt buffer w =
      (encrypt_with (getBackupKey (env w)) iv buffer,
       with_entropy (tail (entropy w)) w).
Proof.
  destruct (randomBytes_spec 16 w) as (iv & Hiv & Hrand).
  exists iv. split; [exact Hiv|].
  unfold encrypt, bind, get_env, lift. now rewrite Hrand.
Qed.

(** X2. Under a 32-byte key [encrypt] returns the 16-byte nonce, then the
    16-byte tag, then the ciphertext, and these are the three slices
    [decrypt] takes: bytes 0 to 16, 16 to 32, and from 32 on. *)
Theorem encrypt_layout (buffer : bytes) (w : World) :
  gcm_tag_full_length ->
  length (getBackupKey (env w)) = 32%nat ->
  exists iv artifact,
    encrypt buffer w = (Ok artifact, with_entropy (tail (entropy w)) w) /\
    length iv = 16%nat /\
    let key := getBackupKey (env w) in
    let ciphertext := gcm_ctr key iv buffer in
    artifact = iv ++ gcm_tag key iv ciphertext ++ ciphertext /\
    buf_slice 0 16 artifact = iv /\
    buf_slice 16 32 artifact = gcm_tag key iv ciphertext /\
    buf_slice_from 32 artifact = ciphertext /\
    length artifact = (32 + length ciphertext)%nat.
Proof.
  intros Htag Hkey.
  destruct (randomBytes_spec 16 w) as (iv & Hiv & Hrand).
  pose proof (Htag (getBackupKey (env w)) iv
                   (gcm_ctr (getBackupKey (env w)) iv buffer)) as Ht.
  eexists iv, _. split; [|split; [exact Hiv|]].
  - unfold encrypt, bind, get_env, lift. rewrite Hrand.
    cbn [env with_entropy]. unfold encrypt_with, aes256gcm_init.
    rewrite Hkey, Hiv. reflexivity.
  - cbv zeta. split; [reflexivity|].
    unfold buf_slice, buf_slice_from. rewrite drop_0.
    rewrite (take_app_length' iv) by lia.
    rewrite (drop_app_length' iv) by lia.
    rewrite (take_app_length' (gcm_tag _ _ _)) by lia.
    rewrite app_assoc.
    rewrite (drop_app_length' (iv ++ gcm_tag _ _ _))
      by (rewrite length_app; lia).
    rewrite !length_app. repeat split. lia.
Qed.

(** X3. [decrypt] throws on every input shorter than 32 bytes whose length
    is not 20, 24 or 28 to 31, in particular on every input shorter than
    20 bytes, and leaves the world as it was. *)
Theorem decrypt_rejects_short_input (encrypted : bytes) (w : World) :
  (length encrypted < 32)%nat ->
  ~ In (length encrypted) [20; 24; 28; 29; 30; 31]%nat ->
  exists e, decrypt encrypted w = (Err e, w).
Proof.
  intros Hlen Hnot. rewrite decrypt_run. unfold decrypt_with.
  destruct (aes256gcm_init _ (buf_slice 0 16 encrypted)) as [[]|e];
    cbn [res_bind]; [|eauto].
  assert (valid_gcm_tag_length (length (buf_slice 16 32 encrypted)) = false)
    as ->; [|cbn; eauto].
  unfold buf_slice. rewrite length_take, length_drop.
  unfold valid_gcm_tag_length. cbn [In] in Hnot.
  set (n := ((32 - 16) `min` (length encrypted - 16))%nat).
  assert (n <> 4 /\ n <> 8 /\ (n < 12 \/ 16 < n))%nat as (H4 & H8 & H12)
    by (unfold n; lia).
  apply Nat.eqb_neq in H4, H8. rewrite H4, H8. cbn [orb].
  destruct H12 as [Hlt|Hgt].
  - apply Nat.leb_gt in Hlt. now rewrite Hlt.
  - apply Nat.leb_gt in Hgt. rewrite Hgt. apply andb_false_r.
Qed.

End CodecFacts.

Lemma encrypt_layout_witness :
  exists iv artifact,
    @encrypt Ref.lib Ref.db0 Ref.world0
      = (Ok artifact, with_entropy (tail (entropy Ref.world0)) Ref.world0) /\
    length iv = 16%nat /\
    buf_slice 0 16 artifact = iv /\
    length artifact
      = (32 + length (Ref.ctr (getBackupKey Ref.env0) iv Ref.db0))%nat.
Proof.
  destruct (@encrypt_layout Ref.lib Ref.db0 Ref.world0 Ref_tag_full_length)
    as (iv & artifact & Hrun & Hiv & _ & Hslice & _ & _ & Hlen);
    [reflexivity|].
  exists iv, artifact.
  split; [exact Hrun|]. split; [exact Hiv|]. split; [exact Hslice|exact Hlen].
Defined.

Lemma decrypt_rejects_short_input_witness :
  exists e, @decrypt Ref.lib (replicate 19 x00) Ref.world0
            = (Err e, Ref.world0).
Proof.
  apply (@decrypt_rejects_short_input Ref.lib (replicate 19 x00) Ref.world0).
  - cbn. lia.
  - cbn. lia.
Defined.

Section DecodeFacts.
Context `{NodeLib}.

(** X4. The decode step of a restore returns a buffer exactly when the
    artifact decrypts under the key, the plaintext decompresses to that
    buffer, its checksum equals the one of the metadata when metadata was
    found, and it begins with the 15 bytes of the text SQLite format 3;
    the sixteenth byte of the header is not looked at. *)
Theorem decodeBackup_succeeds_iff
        (encrypted : bytes) (metadata : option BackupMetadata)
        (w : World) (dbBuffer : bytes) :
  fst (decodeBackup encrypted metadata w) = Ok dbBuffer <->
  exists compressed,
    decrypt_with (getBackupKey (env w)) encrypted = Ok compressed /\
    gunzip compressed = Some dbBuffer /\
    (forall m, metadata = Some m -> sha256 dbBuffer = checksum m) /\
    take 15 dbBuffer = list_byte_of_string "SQLite format 3".
Proof.
  unfold decodeBackup. unfold bind at 1. rewrite decrypt_run.
  destruct (decrypt_with _ encrypted) as [compressed|e].
  2:{ cbn [fst]. split; [discriminate|]. intros (c & Hc & _). discriminate Hc. }
  unfold bind at 1, gunzip_promise.
  destruct (gunzip compressed) as [db|] eqn:Hg.
  2:{ cbn [throw fst]. split; [discriminate|].
      intros (c & [= <-] & Hc & _). congruence. }
  cbn [ret].
  assert (forall w1,
             fst ((if negb (startsWith (toString_utf8 (buf_slice 0 16 db))
                                       (js_lit "SQLite format 3"))
                   then throw InvalidSqliteFormat else ret db) w1)
             = Ok dbBuffer
             <-> db = dbBuffer /\
                 take 15 db = list_byte_of_string "SQLite format 3")
    as Hheader.
  { intros w1. rewrite <- sqlite_header_accepted_iff.
    destruct (startsWith _ _); cbn [negb throw ret fst].
    - split; [intros [= ->]; auto|intros [-> _]; reflexivity].
    - split; [discriminate|]. intros [_ Hc]. discriminate Hc. }
  destruct metadata as [m|].
  - unfold bind at 1.
    destruct (String.eqb_spec (sha256 db) (checksum m)) as [Hsum|Hsum];
      cbn [negb].
    + cbn [logger]. rewrite Hheader. split.
      * intros [-> Hmagic]. exists compressed. repeat split; auto.
        now intros m' [= <-].
      * intros (c & [= <-] & Hc & _ & Hmagic).
        rewrite Hg in Hc. injection Hc as ->. auto.
    + cbn [throw fst]. split; [discriminate|].
      intros (c & [= <-] & Hc & Hm & _).
      rewrite Hg in Hc. injection Hc as ->.
      destruct Hsum. now apply Hm.
  - unfold bind at 1. cbn [ret]. rewrite Hheader. split.
    + intros [-> Hmagic]. exists compressed. repeat split; auto.
      intros m' [=].
    + intros (c & [= <-] & Hc & _ & Hmagic).
      rewrite Hg in Hc. injection Hc as ->. auto.
Qed.

(** X5. For an artifact that decrypts and decompresses: metadata with a
    different checksum makes the decode step throw the checksum error
    without any effect, whatever the header is; with no metadata or a
    matching checksum, a buffer that does not begin with the magic text
    makes it throw the format error. *)
Theorem decodeBackup_rejections
        (encrypted compressed dbBuffer : bytes) (w : World) :
  decrypt_with (getBackupKey (env w)) encrypted = Ok compressed ->
  gunzip compressed = Some dbBuffer ->
  (forall m, sha256 dbBuffer <> checksum m ->
             decodeBackup encrypted (Some m) w = (Err ChecksumMismatch, w)) /\
  (forall metadata,
      (forall m, metadata = Some m -> sha256 dbBuffer = checksum m) ->
      take 15 dbBuffer <> list_byte_of_string "SQLite format 3" ->
      fst (decodeBackup encrypted metadata w) = Err InvalidSqliteFormat).
Proof.
  intros Hdec Hgunzip.
  assert (forall (k : bytes -> M bytes),
             bind (decrypt encrypted) k w = k compressed w) as Hstep1
    by (intros k; apply bind_ok; now rewrite decrypt_run, Hdec).
  assert (forall (k : bytes -> M bytes) w1,
             bind (gunzip_promise compressed) k w1 = k dbBuffer w1)
    as Hstep2
    by (intros k w1; apply bind_ok; unfold gunzip_promise;
        now rewrite Hgunzip).
  unfold decodeBackup. split.
  - intros m Hsum. rewrite Hstep1, Hstep2. unfold bind.
    apply String.eqb_neq in Hsum. now rewrite Hsum.
  - intros metadata Hsum Hmagic. rewrite Hstep1, Hstep2.
    assert (startsWith (toString_utf8 (buf_slice 0 16 dbBuffer))
                       (js_lit "SQLite format 3") = false) as Hhead.
    { destruct (startsWith _ _) eqn:Hs; [|reflexivity].
      apply sqlite_header_accepted_iff in Hs. contradiction. }
    destruct metadata as [m|]; unfold bind.
    + rewrite (Hsum m eq_refl), String.eqb_refl. cbn [negb logger].
      now rewrite Hhead.
    + cbn [ret]. now rewrite Hhead.
Qed.

End DecodeFacts.

Lemma decodeBackup_rejections_witness :
  (forall m, @sha256 Ref.lib Ref.notes <> checksum m ->
             @decodeBackup Ref.lib Ref.sealed_notes (Some m) Ref.world0
             = (Err ChecksumMismatch, Ref.world0)) /\
  fst (@decodeBackup Ref.lib Ref.sealed_notes None Ref.world0)
    = Err InvalidSqliteFormat.
Proof.
  destruct (@decodeBackup_rejections Ref.lib Ref.sealed_notes
              (Ref.deflate Ref.notes) Ref.notes Ref.world0)
    as [Hsum Hheader]; [vm_compute; reflexivity|reflexivity|].
  split; [exact Hsum|].
  apply Hheader; [intros m [=]|vm_compute; discriminate].
Defined.

(** ** Retention over time *)

Section RetentionFacts.
Context `{NodeLib}.

(** X6. Retention only expires: an artifact kept at some instant is kept
    at every earlier instant, an artifact that reached the age of 365
    days is deleted at every later instant, and an artifact younger than
    7 days is kept. *)
Theorem retention_only_expires (now later : Z) (blob : Blob) :
  now <= later ->
  (shouldKeep later blob = true -> shouldKeep now blob = true) /\
  (days 365 <= now - uploadedAt blob -> shouldKeep later blob = false) /\
  (later - uploadedAt blob < days 7 -> shouldKeep now blob = true).
Proof.
  intros Hle. repeat split.
  - rewrite !shouldKeep_iff. unfold keep_rule, days, MS_PER_DAY in *. cbv zeta. lia.
  - intros Hold. apply shouldKeep_false_iff. unfold keep_rule, days, MS_PER_DAY in *. cbv zeta. lia.
  - intros Hyoung. apply shouldKeep_iff. unfold keep_rule, days, MS_PER_DAY in *. cbv zeta. lia.
Qed.

End RetentionFacts.

Lemma retention_only_expires_witness :
  let now := Ref.noon_2026_03_15 in
  let blob := Ref.blob_at Ref.key1 (now - days 3) [] in
  (@shouldKeep Ref.lib (now + days 1) blob = true ->
   @shouldKeep Ref.lib now blob = true) /\
  @shouldKeep Ref.lib now blob = true.
Proof.
  intros now blob.
  destruct (@retention_only_expires Ref.lib now (now + days 1) blob)
    as (Hmono & _ & Hyoung); [unfold days, MS_PER_DAY; lia|].
  split; [exact Hmono|].
  apply Hyoung. vm_compute. reflexivity.
Defined.

(** ** Cleanup under failing deletes *)

Lemma pop_outcome_quiet (w : World) :
  oracle w = [] -> pop_outcome w = (Done, w).
Proof. intros Hq. unfold pop_outcome. now rewrite Hq. Qed.

Lemma in_del_blobs (b : Blob) (l : list string) (bs : list Blob) :
  In b (del_blobs l bs) <-> In b bs /\ ~ In (pathname b) l.
Proof.
  unfold del_blobs. rewrite filter_In, negb_true_iff.
  split; intros [Hin Hl]; (split; [exact Hin|]).
  - intros Hk. assert (existsb (String.eqb (pathname b)) l = true) as Hex;
      [|congruence].
    apply existsb_exists. exists (pathname b). split; [exact Hk|].
    apply String.eqb_refl.
  - destruct (existsb _ l) eqn:Hex; [|reflexivity].
    apply existsb_exists in Hex. destruct Hex as (y & Hy & Heq).
    apply String.eqb_eq in Heq. subst y. contradiction.
Qed.

(** The deletion loop under any pattern of failures: it never throws, it
    attempts one delete per key, in order, and the store loses the keys
    whose delete completed. *)
Lemma deleteAll_any (toDelete : list string) (w : World) :
  exists w' done evs,
    deleteAll toDelete w = (Ok tt, w') /\
    (forall k, In k done -> In k toDelete) /\
    blobs w' = del_blobs done (blobs w) /\
    files w' = files w /\ env w' = env w /\ clock w' = clock w /\
    trace w' = trace w ++ evs /\
    map ev_call evs = map CDel toDelete /\
    (oracle w = [] -> done = toDelete /\ oracle w' = []).
Proof.
  revert w. induction toDelete as [|p rest IH]; intros w.
  - exists w, [], []. rewrite del_blobs_nil, app_nil_r. split_and!; auto.
  - unfold deleteAll. cbn [for_of]. fold (deleteAll rest).
    destruct (next_done w) eqn:Hd.
    + set (w1 := with_logs (logs w ++ [(Info, "Deleted old backup")])
                   (record_call (CDel p) true
                      (with_blobs
                         (List.filter (fun b => negb (named p b)) (blobs w))
                         (advance w)))).
      destruct (IH w1)
        as (w' & done & evs & Hrun & Hsub & Hblobs & Hfiles & Henv & Hclock
            & Htrace & Hcalls & Hquiet).
      exists w', (p :: done), (call_ok (CDel p) :: evs).
      split_and!.
      * unfold bind at 1, try_catch.
        rewrite (bind_ok _ _ _ _ _ (blob_del_done p w Hd)). exact Hrun.
      * intros k [<-|Hk]; [now left|right; now apply Hsub].
      * rewrite Hblobs. apply del_blobs_cons.
      * exact Hfiles.
      * exact Henv.
      * exact Hclock.
      * rewrite Htrace. cbn [w1 trace with_logs record_call with_trace].
        now rewrite <- app_assoc.
      * cbn [map]. now rewrite Hcalls.
      * intros Hq. destruct Hquiet as [-> Hq']; [cbn; now rewrite Hq|].
        split; [reflexivity|exact Hq'].
    + set (w1 := with_logs (logs w ++ [(Warn, "Failed to delete backup")])
                   (record_call (CDel p) false (advance w))).
      destruct (IH w1)
        as (w' & done & evs & Hrun & Hsub & Hblobs & Hfiles & Henv & Hclock
            & Htrace & Hcalls & Hquiet).
      exists w', done, (call_failed (CDel p) :: evs).
      split_and!.
      * unfold bind at 1, try_catch.
        rewrite (bind_err _ _ _ _ _ (blob_del_fault p w Hd)). exact Hrun.
      * intros k Hk. right. now apply Hsub.
      * exact Hblobs.
      * exact Hfiles.
      * exact Henv.
      * exact Hclock.
      * rewrite Htrace. cbn [w1 trace with_logs record_call with_trace].
        now rewrite <- app_assoc.
      * cbn [map]. now rewrite Hcalls.
      * intros Hq. unfold next_done in Hd. rewrite Hq in Hd. discriminate.
Qed.

Section CleanupFacts.
Context `{NodeLib}.

(** What a cleanup run does once the token is present and the listing
    completed. *)
Lemma cleanupOldBackups_run (w : World) :
  token_missing (getBlobToken (env w)) = false ->
  next_done w = true ->
  exists w' done evs,
    cleanupOldBackups w = (Ok tt, w') /\
    (forall k, In k done ->
               In k (collectDeletions (clock w) (cleanup_listing w))) /\
    blobs w' = del_blobs done (blobs w) /\
    files w' = files w /\ env w' = env w /\ clock w' = clock w /\
    trace w' = trace w ++ call_ok (CList BACKUP_PREFIX) :: evs /\
    map ev_call evs
      = map CDel (collectDeletions (clock w) (cleanup_listing w)) /\
    (oracle w = [] ->
     done = collectDeletions (clock w) (cleanup_listing w) /\ oracle w' = []).
Proof.
  intros Htoken Hd.
  set (w1 := record_call (CList BACKUP_PREFIX) true (advance w)).
  destruct (deleteAll_any (collectDeletions (clock w) (cleanup_listing w)) w1)
    as (w' & done & evs & Hrun & Hsub & Hblobs & Hfiles & Henv & Hclock
        & Htrace & Hcalls & Hquiet).
  exists (with_logs (logs w' ++ [(Info, "Backup cleanup complete")]) w'),
         done, evs.
  split_and!; auto.
  - unfold cleanupOldBackups. unfold bind at 1. cbn [get_env].
    rewrite Htoken.
    rewrite (bind_ok _ _ _ _ _ (blob_list_done BACKUP_PREFIX w Hd)).
    cbv beta zeta. unfold bind at 1. cbn [Date_now].
    fold w1. change (clock w1) with (clock w).
    fold (cleanup_listing w).
    now rewrite (bind_ok _ _ _ _ _ Hrun).
  - cbn [trace with_logs]. rewrite Htrace. cbn [w1 trace record_call with_trace].
    now rewrite <- app_assoc.
  - intros Hq. cbn [oracle with_logs]. apply Hquiet. cbn. now rewrite Hq.
Qed.

Lemma cleanupOldBackups_listing_fault (w : World) :
  token_missing (getBlobToken (env w)) = false ->
  next_done w = false ->
  cleanupOldBackups w = failed (CList BACKUP_PREFIX) (advance w).
Proof.
  intros Htoken Hd. unfold cleanupOldBackups. unfold bind at 1.
  cbn [get_env]. rewrite Htoken.
  now rewrite (bind_err _ _ _ _ _ (blob_list_fault BACKUP_PREFIX w Hd)).
Qed.

(** Whatever fails, a cleanup removes nothing but keys of its deletion
    list, and adds nothing. *)
Lemma cleanupOldBackups_removes_listed_only (w : World) (b : Blob) :
  (In b (blobs (snd (cleanupOldBackups w))) -> In b (blobs w)) /\
  (In b (blobs w) ->
   ~ In (pathname b) (collectDeletions (clock w) (cleanup_listing w)) ->
   In b (blobs (snd (cleanupOldBackups w)))).
Proof.
  destruct (token_missing (getBlobToken (env w))) eqn:Htoken.
  { rewrite cleanupOldBackups_without_token by exact Htoken. cbn. tauto. }
  destruct (next_done w) eqn:Hd.
  - destruct (cleanupOldBackups_run w Htoken Hd)
      as (w' & done & evs & -> & Hsub & Hblobs & _).
    cbn [snd]. rewrite Hblobs, in_del_blobs. split; [tauto|].
    intros Hin Hnot. split; [exact Hin|]. intros Hk. apply Hnot, Hsub, Hk.
  - rewrite cleanupOldBackups_listing_fault by assumption. cbn. tauto.
Qed.

End CleanupFacts.

Section CleanupTheorems.
Context `{NodeLib}.

(** X7. With a token, [cleanupOldBackups] throws only when the listing
    fails, and then nothing else was called.  Once the listing completed
    it returns normally whatever deletes fail: it attempts exactly one
    delete for each key of the deletion list, in order, and touches no
    local file. *)
Theorem cleanupOldBackups_throws_only_on_listing (w : World) :
  token_missing (getBlobToken (env w)) = false ->
  (next_done w = true ->
   exists w' evs,
     cleanupOldBackups w = (Ok tt, w') /\
     trace w' = trace w ++ call_ok (CList BACKUP_PREFIX) :: evs /\
     map ev_call evs
       = map CDel (collectDeletions (clock w) (cleanup_listing w)) /\
     files w' = files w) /\
  (next_done w = false ->
   cleanupOldBackups w
     = (Err (CallFailed (CList BACKUP_PREFIX)),
        record_call (CList BACKUP_PREFIX) false (advance w))).
Proof.
  intros Htoken. split; intros Hd.
  - destruct (cleanupOldBackups_run w Htoken Hd)
      as (w' & done & evs & Hrun & _ & _ & Hfiles & _ & _ & Htrace & Hcalls
          & _).
    now exists w', evs.
  - now apply cleanupOldBackups_listing_fault.
Qed.

(** X8. An artifact that the retention rule keeps (every listed artifact
    under its key is kept) is still in the store after a cleanup, and so
    is its metadata record, whatever calls fail during the run. *)
Theorem cleanupOldBackups_spares_kept (w : World) (a : Blob) :
  In a (blobs w) ->
  is_meta a = false ->
  (forall a', In a' (cleanup_listing w) -> pathname a' = pathname a ->
              shouldKeep (clock w) a' = true) ->
  let w' := snd (cleanupOldBackups w) in
  In a (blobs w') /\
  forall m, In m (blobs w) ->
            pathname m = pathname a +:+ META_SUFFIX -> In m (blobs w').
Proof.
  intros Hin Hart Hkept w'. split.
  - apply cleanupOldBackups_removes_listed_only; [exact Hin|].
    rewrite collectDeletions_flat_map, in_marked.
    intros (a' & Ha' & Hdoomed & [Heq|Heq]).
    + rewrite (Hkept a' Ha') in Hdoomed by (now symmetry). discriminate.
    + unfold is_meta in Hart. rewrite Heq, endsWith_own_suffix in Hart.
      discriminate.
  - intros m Hm Hname.
    apply cleanupOldBackups_removes_listed_only; [exact Hm|].
    rewrite collectDeletions_flat_map, in_marked, Hname.
    intros (a' & Ha' & Hdoomed & [Heq|Heq]).
    + apply filter_In in Ha'. destruct Ha' as [_ Hnot].
      unfold is_meta in Hnot. rewrite <- Heq, endsWith_own_suffix in Hnot.
      discriminate.
    + apply string_app_inv_tail in Heq.
      rewrite (Hkept a' Ha') in Hdoomed by (now symmetry). discriminate.
Qed.

(** X9. A metadata record whose artifact key is not in the store is never
    deleted by a cleanup, whatever its age: orphaned metadata records are
    not reconciled. *)
Theorem cleanupOldBackups_leaves_orphans (w : World) (m : Blob) (k : string) :
  In m (blobs w) ->
  pathname m = k +:+ META_SUFFIX ->
  ~ stored k (blobs w) ->
  In m (blobs (snd (cleanupOldBackups w))).
Proof.
  intros Hm Hname Hgone.
  apply cleanupOldBackups_removes_listed_only; [exact Hm|].
  rewrite collectDeletions_flat_map, in_marked, Hname.
  intros (a & Ha & _ & [Heq|Heq]).
  - apply filter_In in Ha. destruct Ha as [_ Hnot].
    unfold is_meta in Hnot. rewrite <- Heq, endsWith_own_suffix in Hnot.
    discriminate.
  - apply string_app_inv_tail in Heq. apply Hgone. exists a.
    split; [|now symmetry].
    apply filter_In in Ha. destruct Ha as [Ha _].
    apply filter_In in Ha. tauto.
Qed.

(** X10. When no call fails, a second cleanup at the same instant deletes
    nothing: the store after the second run is the store after the
    first. *)
Theorem cleanupOldBackups_idempotent (w : World) :
  oracle w = [] ->
  let w1 := snd (cleanupOldBackups w) in
  fst (cleanupOldBackups w) = Ok tt /\
  fst (cleanupOldBackups w1) = Ok tt /\
  blobs (snd (cleanupOldBackups w1)) = blobs w1.
Proof.
  intros Hq w1. subst w1.
  destruct (token_missing (getBlobToken (env w))) eqn:Htoken.
  { rewrite cleanupOldBackups_without_token by exact Htoken. cbn [fst snd].
    rewrite cleanupOldBackups_without_token by exact Htoken. auto. }
  assert (forall w0, oracle w0 = [] -> next_done w0 = true) as Hdone
    by (intros w0 H0; unfold next_done; now rewrite H0).
  destruct (cleanupOldBackups_run w Htoken (Hdone w Hq))
    as (w1 & done & evs & Hrun & _ & Hblobs & _ & Henv & Hclock & _ & _
        & Hquiet).
  destruct (Hquiet Hq) as [-> Hq1]. rewrite Hrun. cbn [fst snd].
  rewrite <- Henv in Htoken.
  destruct (cleanupOldBackups_run w1 Htoken (Hdone w1 Hq1))
    as (w2 & done2 & evs2 & Hrun2 & _ & Hblobs2 & _ & _ & _ & _ & _
        & Hquiet2).
  destruct (Hquiet2 Hq1) as [-> _]. rewrite Hrun2. cbn [fst snd].
  split; [reflexivity|]. split; [reflexivity|].
  rewrite Hblobs2.
  assert (collectDeletions (clock w1) (cleanup_listing w1) = []) as ->;
    [|apply del_blobs_nil].
  rewrite collectDeletions_flat_map.
  destruct (flat_map _ _) as [|k rest] eqn:Hflat; [reflexivity|exfalso].
  assert (In k (flat_map (marked (clock w1)) (cleanup_listing w1))) as Hk
    by (rewrite Hflat; now left).
  apply in_marked in Hk. destruct Hk as (a & Ha & Hdoomed & _).
  unfold cleanup_listing in Ha. rewrite Hblobs in Ha.
  apply filter_In in Ha. destruct Ha as [Ha Hart].
  apply filter_In in Ha. destruct Ha as [Ha Hpre].
  apply in_del_blobs in Ha. destruct Ha as [Ha Hnot]. apply Hnot.
  rewrite collectDeletions_flat_map, in_marked. exists a.
  rewrite Hclock in Hdoomed. split; [|auto].
  unfold cleanup_listing. apply filter_In. split; [|exact Hart].
  apply filter_In. auto.
Qed.

End CleanupTheorems.

Lemma cleanupOldBackups_throws_only_on_listing_witness :
  exists w' evs,
    @cleanupOldBackups Ref.lib Ref.world_stale = (Ok tt, w') /\
    trace w' = trace Ref.world_stale ++ call_ok (CList BACKUP_PREFIX) :: evs /\
    map ev_call evs
      = map CDel (@collectDeletions Ref.lib (clock Ref.world_stale)
                    (cleanup_listing Ref.world_stale)) /\
    files w' = files Ref.world_stale.
Proof.
  destruct (@cleanupOldBackups_throws_only_on_listing Ref.lib Ref.world_stale)
    as [Hok _]; [reflexivity|].
  apply Hok. reflexivity.
Defined.

Lemma cleanupOldBackups_spares_kept_witness :
  let a := Ref.blob_at Ref.key1 (Ref.noon_2026_03_15 - MS_PER_DAY) Ref.garbage in
  let w' := snd (@cleanupOldBackups Ref.lib Ref.world_stale) in
  In a (blobs w') /\
  forall m, In m (blobs Ref.world_stale) ->
            pathname m = pathname a +:+ META_SUFFIX -> In m (blobs w').
Proof.
  intros a.
  apply (@cleanupOldBackups_spares_kept Ref.lib Ref.world_stale a).
  - right. right. now left.
  - reflexivity.
  - intros a' Ha' Hname.
    assert (@cleanup_listing Ref.world_stale
            = [Ref.blob_at Ref.key_old (Ref.noon_2026_03_15 - days 10)
                           Ref.garbage; a]) as Hlisting
      by (vm_compute; reflexivity).
    rewrite Hlisting in Ha'. destruct Ha' as [<-|[<-|[]]].
    + vm_compute in Hname. discriminate Hname.
    + vm_compute. reflexivity.
Defined.

Lemma cleanupOldBackups_leaves_orphans_witness :
  In (Ref.blob_at (Ref.key_gone +:+ META_SUFFIX)
                  (Ref.noon_2026_03_15 - days 64) [])
     (blobs (snd (@cleanupOldBackups Ref.lib Ref.world_stale))).
Proof.
  apply (@cleanupOldBackups_leaves_orphans Ref.lib Ref.world_stale _
           Ref.key_gone).
  - do 4 right. now left.
  - reflexivity.
  - rewrite stored_in_map.
    assert (map pathname (blobs Ref.world_stale)
            = [Ref.key_old; Ref.key_old +:+ META_SUFFIX; Ref.key1;
               Ref.key1 +:+ META_SUFFIX; Ref.key_gone +:+ META_SUFFIX])
      as -> by reflexivity.
    cbn [In]. intros [E|[E|[E|[E|[E|[]]]]]]; vm_compute in E; discriminate E.
Defined.

Lemma cleanupOldBackups_idempotent_witness :
  let w := with_oracle [] Ref.world_stale in
  let w1 := snd (@cleanupOldBackups Ref.lib w) in
  fst (@cleanupOldBackups Ref.lib w) = Ok tt /\
  fst (@cleanupOldBackups Ref.lib w1) = Ok tt /\
  blobs (snd (@cleanupOldBackups Ref.lib w1)) = blobs w1.
Proof.
  intros w.
  apply (@cleanupOldBackups_idempotent Ref.lib w). reflexivity.
Defined.

(** ** The temporary file of a snapshot *)

Lemma bind_inv {A B} (m : M A) (k : A -> M B) (w w' : World) (r : Res B) :
  bind m k w = (r, w') ->
  (exists a w1, m w = (Ok a, w1) /\ k a w1 = (r, w')) \/
  (exists e, m w = (Err e, w') /\ r = Err e).
Proof.
  unfold bind. destruct (m w) as [[a|e] w1].
  - intros Hk. left. now exists a, w1.
  - intros [= <- <-]. right. now exists e.
Qed.

Lemma bind_inv_ok {A B} (m : M A) (k : A -> M B) (w w' : World) (b : B) :
  bind m k w = (Ok b, w') ->
  exists a w1, m w = (Ok a, w1) /\ k a w1 = (Ok b, w').
Proof.
  intros Hrun. apply bind_inv in Hrun.
  destruct Hrun as [Hok|(e & _ & [=])]. exact Hok.
Qed.

Lemma fs_unlinkSync_result (p : string) (w : World) :
  (exists w', fs_unlinkSync p w = (Ok tt, w') /\ files w' !! p = None) \/
  (exists w', fs_unlinkSync p w = (Err (CallFailed (CUnlink p)), w') /\
              last (trace w') = Some (call_failed (CUnlink p))).
Proof.
  unfold fs_unlinkSync, failed. pop_oracle w. cbn [files with_oracle].
  destruct o, (files w !! p);
    try (right; eexists; split; [reflexivity|]; cbn; apply last_snoc).
  left. eexists. split; [reflexivity|]. cbn. apply lookup_delete_eq.
Qed.

Section SnapshotFacts.
Context `{NodeLib}.
Variable STORE_DIR : string.

#[local] Instance snapshot_frame_preorder : PreOrder (snapshot_frame STORE_DIR).
Proof.
  split.
  - intros w p Hp. auto.
  - intros a b c Hab Hbc p Hp.
    destruct (Hab p Hp) as [Hab1 Hab2], (Hbc p Hp) as [Hbc1 Hbc2].
    split.
    + intros Hlive. now rewrite Hbc1, Hab1.
    + intros d Hd. auto.
Qed.

Lemma snapshot_frame_same_files (w w' : World) :
  files w' = files w -> snapshot_frame STORE_DIR w w'.
Proof. intros Hf p Hp. rewrite Hf. auto. Qed.

Lemma logger_snapshot_frame lvl msg :
  keeps (snapshot_frame STORE_DIR) (logger lvl msg).
Proof. intros w. now apply snapshot_frame_same_files. Qed.

Lemma randomBytes_snapshot_frame n :
  keeps (snapshot_frame STORE_DIR) (randomBytes n).
Proof.
  intros w. apply snapshot_frame_same_files.
  unfold randomBytes. now destruct (entropy w).
Qed.

Lemma fs_readFileSync_snapshot_frame p :
  keeps (snapshot_frame STORE_DIR) (fs_readFileSync p).
Proof.
  intros w. apply snapshot_frame_same_files.
  unfold fs_readFileSync, failed. pop_oracle w. cbn [files with_oracle].
  now destruct o, (files w !! p).
Qed.

Lemma fs_unlinkSync_snapshot_frame :
  keeps (snapshot_frame STORE_DIR) (fs_unlinkSync (backupPath STORE_DIR)).
Proof.
  intros w p Hp. unfold fs_unlinkSync, failed. pop_oracle w.
  cbn [files with_oracle].
  destruct o, (files w !! backupPath STORE_DIR); cbn; auto.
  rewrite lookup_delete_ne by congruence. auto.
Qed.

Lemma sqlite_open_snapshot_frame :
  keeps (snapshot_frame STORE_DIR) (sqlite_open (dbPath STORE_DIR)).
Proof.
  intros w p Hp. unfold sqlite_open, failed. pop_oracle w.
  cbn [files with_oracle].
  destruct o, (files w !! dbPath STORE_DIR) eqn:Hlive; cbn; auto.
  split.
  - intros Hne. now rewrite lookup_insert_ne by congruence.
  - intros d Hd. rewrite lookup_insert_ne; [exact Hd|]. congruence.
Qed.

Lemma sqlite_vacuum_into_snapshot_frame :
  keeps (snapshot_frame STORE_DIR)
        (sqlite_vacuum_into (dbPath STORE_DIR) (backupPath STORE_DIR)).
Proof.
  intros w p Hp. unfold sqlite_vacuum_into, failed. pop_oracle w.
  cbn [files with_oracle].
  destruct (files w !! backupPath STORE_DIR) as [[|? ?]|],
           (files w !! dbPath STORE_DIR), o; cbn; auto;
    rewrite lookup_insert_ne by congruence; auto.
Qed.

Lemma createSafeBackup_snapshot_frame :
  keeps (snapshot_frame STORE_DIR) (createSafeBackup STORE_DIR).
Proof.
  pose proof logger_snapshot_frame. pose proof randomBytes_snapshot_frame.
  pose proof fs_readFileSync_snapshot_frame.
  pose proof fs_unlinkSync_snapshot_frame.
  pose proof sqlite_open_snapshot_frame.
  pose proof sqlite_vacuum_into_snapshot_frame.
  unfold createSafeBackup, encodeBackup, encrypt. repeat keeps_step.
Qed.

(** What the [catch] block of [createSafeBackup] leaves behind. *)
Lemma createSafeBackup_handler (err : Error) (w : World) :
  exists e w',
    (let* leftover := fs_existsSync (backupPath STORE_DIR) in
     let* _ := if leftover then fs_unlinkSync (backupPath STORE_DIR)
               else ret tt in
     @throw (bytes * BackupMetadata) err) w = (Err e, w') /\
    (files w' !! backupPath STORE_DIR = None \/
     last (trace w') = Some (call_failed (CUnlink (backupPath STORE_DIR)))).
Proof.
  unfold bind at 1. cbn [fs_existsSync].
  destruct (files w !! backupPath STORE_DIR) eqn:Htmp.
  - destruct (fs_unlinkSync_result (backupPath STORE_DIR) w)
      as [(w' & Hrun & Hgone)|(w' & Hrun & Hlast)].
    + rewrite (bind_ok _ _ _ _ _ Hrun). eexists _, _.
      split; [reflexivity|now left].
    + rewrite (bind_err _ _ _ _ _ Hrun). eexists _, _.
      split; [reflexivity|now right].
  - eexists _, _. split; [reflexivity|now left].
Qed.

(** X11. After [createSafeBackup], whether it returned or threw, the
    temporary snapshot file is gone, unless the run threw and the unlink
    in its catch block failed as the last call made.  Every other file
    that existed keeps its content (the live database included), no other
    path but the live database can appear, and the blob store is neither
    called nor changed. *)
Theorem createSafeBackup_temp_file (w : World) :
  let r := fst (createSafeBackup STORE_DIR w) in
  let w' := snd (createSafeBackup STORE_DIR w) in
  (files w' !! backupPath STORE_DIR = None \/
   (exists e, r = Err e) /\
   last (trace w') = Some (call_failed (CUnlink (backupPath STORE_DIR)))) /\
  (forall p, p <> backupPath STORE_DIR -> p <> dbPath STORE_DIR ->
             files w' !! p = files w !! p) /\
  (forall d, files w !! dbPath STORE_DIR = Some d ->
             files w' !! dbPath STORE_DIR = Some d) /\
  blobs w' = blobs w /\
  net_calls (trace w') = net_calls (trace w).
Proof.
  cbv zeta. split; [|split; [|split]].
  - unfold createSafeBackup at 1 2 3, try_catch.
    match goal with
    | |- context [match ?body w with _ => _ end] =>
        destruct (body w) as [[[encrypted metadata]|err] w1] eqn:Hbody
    end.
    + left. cbn [snd].
      apply bind_inv_ok in Hbody. destruct Hbody as ([] & w2 & _ & Hbody).
      apply bind_inv_ok in Hbody. destruct Hbody as ([] & w3 & _ & Hbody).
      apply bind_inv_ok in Hbody. destruct Hbody as (buf & w4 & _ & Hbody).
      apply bind_inv_ok in Hbody.
      destruct Hbody as ([enc meta] & w5 & _ & Hbody).
      apply bind_inv_ok in Hbody. destruct Hbody as ([] & w6 & Hunlink & Hbody).
      destruct (fs_unlinkSync_result (backupPath STORE_DIR) w5)
        as [(w6' & Hrun & Hgone)|(w6' & Hrun & _)];
        rewrite Hrun in Hunlink; [|discriminate].
      injection Hunlink as <-.
      cbn in Hbody. injection Hbody as _ _ <-. exact Hgone.
    + destruct (createSafeBackup_handler err w1) as (e & w' & -> & Hcase).
      cbn [fst snd]. destruct Hcase as [Hgone|Hlast]; [now left|].
      right. split; [now exists e|exact Hlast].
  - intros p Hp Hlive.
    now apply (createSafeBackup_snapshot_frame w p Hp).
  - intros d Hd.
    apply (createSafeBackup_snapshot_frame w (dbPath STORE_DIR)); [|exact Hd].
    unfold dbPath, backupPath, path_join. intros Heq.
    apply String.app_inj in Heq. apply String.app_inj in Heq.
    discriminate Heq.
  - destruct (createSafeBackup_offline STORE_DIR w) as (_ & Hblobs & _ & Hnet).
    auto.
Qed.

End SnapshotFacts.

(** ** What an upload leaves in the store *)

Lemma prefix_app (s t : string) : String.prefix s (s +:+ t) = true.
Proof.
  induction s as [|c s IH]; [now destruct t|].
  change (String c s +:+ t) with (String c (s +:+ t)).
  cbn [String.prefix]. destruct (ascii_dec c c); [exact IH|congruence].
Qed.

Section UploadFacts.
Context `{NodeLib}.
Variable STORE_DIR : string.

Lemma upload_key_is_daily_artifact (w : World) :
  String.prefix DAILY_PREFIX (upload_key w) = true /\
  endsWith (upload_key w) META_SUFFIX = false.
Proof.
  split.
  - unfold upload_key, DAILY_PREFIX.
    rewrite <- (string_app_assoc BACKUP_PREFIX "/daily/"). apply prefix_app.
  - unfold upload_key. rewrite <- !string_app_assoc. apply db_key_is_not_meta.
Qed.

(** X12. The key of an upload lies under the daily prefix and is not a
    metadata key.  When [uploadBackup] returns, the store is the old one
    with the artifact put under that key and then the metadata record
    under the key followed by .meta.json, by exactly those two calls.
    When it throws, the store is unchanged, unless it was the put of the
    metadata record that failed: then the artifact alone was added. *)
Theorem uploadBackup_store_effect (w : World) :
  let key := upload_key w in
  let w' := snd (uploadBackup STORE_DIR w) in
  String.prefix DAILY_PREFIX key = true /\
  endsWith key META_SUFFIX = false /\
  match fst (uploadBackup STORE_DIR w) with
  | Ok _ =>
      exists buffer metadata w1,
        createSafeBackup STORE_DIR w = (Ok (buffer, metadata), w1) /\
        blobs w' =
          put_blob (new_blob (key +:+ META_SUFFIX) (JSON_stringify metadata) w)
                   (put_blob (new_blob key buffer w) (blobs w)) /\
        net_calls (trace w') =
          net_calls (trace w)
          ++ [call_ok (CPut key); call_ok (CPut (key +:+ META_SUFFIX))]
  | Err e =>
      (blobs w' = blobs w /\
       (net_calls (trace w') = net_calls (trace w) \/
        net_calls (trace w') = net_calls (trace w) ++ [call_failed (CPut key)]))
      \/
      (e = CallFailed (CPut (key +:+ META_SUFFIX)) /\
       exists buffer, blobs w' = put_blob (new_blob key buffer w) (blobs w))
  end.
Proof.
  cbv zeta.
  destruct (upload_key_is_daily_artifact w) as [Hdaily Hart].
  split; [exact Hdaily|]. split; [exact Hart|].
  destruct (uploadBackup STORE_DIR w) as [r w'] eqn:Hrun. cbn [fst snd].
  revert Hrun. unfold uploadBackup.
  destruct (createSafeBackup STORE_DIR w) as [[[buffer metadata]|e] w1] eqn:Hc;
    pose proof (keeps_run _ _ _ _ _ (createSafeBackup_offline STORE_DIR) Hc)
      as (Henv & Hblobs & Hclock & Hnet).
  2:{ rewrite (bind_err _ _ _ _ _ Hc). intros [= <- <-]. left. auto. }
  rewrite (bind_ok _ _ _ _ _ Hc). cbv beta iota.
  unfold bind at 1. cbn [Date_now]. unfold bind at 1. cbn [Date_now].
  unfold bind at 1. cbn [get_env]. fold (upload_key w1).
  assert (upload_key w1 = upload_key w) as ->
    by (unfold upload_key; now rewrite Hclock).
  destruct (token_missing (getBlobToken (env w1))).
  { intros [= <- <-]. left. auto. }
  set (key := upload_key w).
  destruct (next_done w1) eqn:Hd1.
  2:{ rewrite (bind_err _ _ _ _ _ (blob_put_fault key buffer w1 Hd1)).
      intros [= <- <-].
      cbn [record_call blobs trace with_trace advance with_oracle].
      left. split; [exact Hblobs|]. right.
      now rewrite net_calls_app, Hnet. }
  rewrite (bind_ok _ _ _ _ _ (blob_put_done key buffer w1 Hd1)).
  set (w2 := record_call (CPut key) true _).
  assert (new_blob key buffer w1 = new_blob key buffer w) as Hnew1
    by (unfold new_blob; now rewrite Hclock).
  destruct (next_done w2) eqn:Hd2.
  - rewrite (bind_ok _ _ _ _ _
               (blob_put_done (key +:+ META_SUFFIX)
                              (JSON_stringify metadata) w2 Hd2)).
    cbn [logger]. intros [= <- <-]. exists buffer, metadata, w1.
    split; [reflexivity|].
    cbn [blobs trace with_logs record_call with_trace with_blobs w2 advance
         with_oracle].
    split.
    + assert (new_blob (key +:+ META_SUFFIX) (JSON_stringify metadata) w2
              = new_blob (key +:+ META_SUFFIX) (JSON_stringify metadata) w)
        as -> by (unfold new_blob; change (clock w2) with (clock w1);
                  now rewrite Hclock).
      now rewrite Hnew1, Hblobs.
    + rewrite !net_calls_app, Hnet, <- app_assoc. reflexivity.
  - rewrite (bind_err _ _ _ _ _
               (blob_put_fault (key +:+ META_SUFFIX)
                               (JSON_stringify metadata) w2 Hd2)).
    intros [= <- <-]. right. split; [reflexivity|]. exists buffer.
    cbn [blobs record_call with_trace with_blobs w2 advance with_oracle].
    now rewrite Hnew1, Hblobs.
Qed.

End UploadFacts.

(** ** Restore: what reaches the disk, and what never changes *)

#[global] Instance store_kept_preorder : PreOrder store_kept.
Proof.
  split.
  - intros w. unfold store_kept. tauto.
  - intros a b c (?&?) (?&?). unfold store_kept. split; congruence.
Qed.

Lemma store_writes_app (a b : list Event) :
  store_writes (a ++ b) = store_writes a ++ store_writes b.
Proof. apply List.filter_app. Qed.

Ltac store_kept_done :=
  split; cbn; rewrite ?store_writes_app; cbn; rewrite ?app_nil_r; reflexivity.

Lemma logger_store_kept lvl msg : keeps store_kept (logger lvl msg).
Proof. intros w. store_kept_done. Qed.

Lemma blob_list_store_kept pre : keeps store_kept (blob_list pre).
Proof.
  intros w. unfold blob_list, failed. pop_oracle w. destruct o; store_kept_done.
Qed.

Lemma fetch_store_kept u : keeps store_kept (fetch u).
Proof.
  intros w. unfold fetch, failed. pop_oracle w.
  destruct o; [|store_kept_done..].
  cbn [blobs with_oracle]. destruct (List.find _ _); store_kept_done.
Qed.

Lemma fs_copyFileSync_store_kept src dst :
  keeps store_kept (fs_copyFileSync src dst).
Proof.
  intros w. unfold fs_copyFileSync, failed. pop_oracle w.
  cbn [files with_oracle]. destruct o, (files w !! src); store_kept_done.
Qed.

Lemma fs_writeFileSync_store_kept p data :
  keeps store_kept (fs_writeFileSync p data).
Proof.
  intros w. unfold fs_writeFileSync, failed. pop_oracle w.
  destruct o; store_kept_done.
Qed.

Lemma fs_writeFileSync_ok (p : string) (data : bytes) (w w' : World) :
  fs_writeFileSync p data w = (Ok tt, w') -> files w' !! p = Some data.
Proof.
  unfold fs_writeFileSync, failed. pop_oracle w.
  destruct o; intros [= <-]. cbn. apply lookup_insert_eq.
Qed.

Section RestoreFacts.
Context `{NodeLib}.
Variable STORE_DIR : string.

Local Abbreviation live := (dbPath STORE_DIR).

(** What a successful decode tells about the artifact. *)
Lemma decodeBackup_ok_inv (encrypted : bytes) (metadata : option BackupMetadata)
      (w w' : World) (dbBuffer : bytes) :
  decodeBackup encrypted metadata w = (Ok dbBuffer, w') ->
  exists compressed,
    decrypt_with (getBackupKey (env w)) encrypted = Ok compressed /\
    gunzip compressed = Some dbBuffer /\
    (forall m, metadata = Some m -> sha256 dbBuffer = checksum m) /\
    take 15 dbBuffer = list_byte_of_string "SQLite format 3".
Proof.
  unfold decodeBackup. intros Hrun.
  apply bind_inv_ok in Hrun. destruct Hrun as (compressed & w1 & Hdec & Hrun).
  rewrite decrypt_run in Hdec. injection Hdec as Hdec <-.
  apply bind_inv_ok in Hrun. destruct Hrun as (db & w2 & Hgz & Hrun).
  unfold gunzip_promise in Hgz.
  destruct (gunzip compressed) as [db'|] eqn:Hg; [|discriminate].
  injection Hgz as -> <-.
  apply bind_inv_ok in Hrun. destruct Hrun as ([] & w3 & Hsum & Hrun).
  destruct (startsWith _ _) eqn:Hhead; [|discriminate].
  injection Hrun as <- <-.
  exists compressed. split; [exact Hdec|]. split; [exact Hg|].
  split; [|now apply sqlite_header_accepted_iff].
  intros m ->.
  destruct (String.eqb_spec (sha256 db) (checksum m)); [assumption|].
  discriminate Hsum.
Qed.

(** A decode that passes every check returns the decompressed buffer and
    makes no fallible call. *)
Lemma decodeBackup_ok_intro (encrypted compressed dbBuffer : bytes)
      (metadata : option BackupMetadata) (w : World) :
  decrypt_with (getBackupKey (env w)) encrypted = Ok compressed ->
  gunzip compressed = Some dbBuffer ->
  (forall m, metadata = Some m -> sha256 dbBuffer = checksum m) ->
  take 15 dbBuffer = list_byte_of_string "SQLite format 3" ->
  exists w',
    decodeBackup encrypted metadata w = (Ok dbBuffer, w') /\
    oracle w' = oracle w /\ files w' = files w /\ clock w' = clock w /\
    trace w' = trace w.
Proof.
  intros Hdec Hg Hsum Hmagic. apply sqlite_header_accepted in Hmagic.
  unfold decodeBackup.
  rewrite (bind_ok _ _ w w compressed) by (now rewrite decrypt_run, Hdec).
  rewrite (bind_ok _ _ w w dbBuffer)
    by (unfold gunzip_promise; now rewrite Hg).
  destruct metadata as [m|].
  - rewrite (Hsum m eq_refl), String.eqb_refl. cbn [negb].
    unfold bind. cbn [logger]. rewrite Hmagic. cbn [negb ret].
    eexists. split; [reflexivity|]. auto.
  - unfold bind. cbn [ret]. rewrite Hmagic. cbn [negb ret].
    eexists. split; [reflexivity|]. auto.
Qed.

Lemma installBackup_ok (dbBuffer : bytes) (w w' : World) :
  installBackup STORE_DIR dbBuffer w = (Ok tt, w') ->
  files w' !! live = Some dbBuffer.
Proof.
  unfold installBackup. intros Hrun.
  apply bind_inv_ok in Hrun. destruct Hrun as (present & w1 & _ & Hrun).
  apply bind_inv_ok in Hrun. destruct Hrun as ([] & w2 & _ & Hrun).
  apply bind_inv_ok in Hrun. destruct Hrun as ([] & w3 & Hwrite & Hrun).
  apply fs_writeFileSync_ok in Hwrite.
  cbn [logger] in Hrun. now injection Hrun as <-.
Qed.

(** Lines 261-271 when there is no live file: the write alone. *)
Lemma installBackup_fresh (dbBuffer : bytes) (w : World) :
  files w !! live = None ->
  exists r w',
    installBackup STORE_DIR dbBuffer w = (r, w') /\
    (oracle w = [] -> r = Ok tt) /\
    match r with
    | Ok _ =>
        fs_calls (trace w') = fs_calls (trace w) ++ [call_ok (CWrite live)] /\
        files w' = <[live := dbBuffer]> (files w)
    | Err e =>
        e = CallFailed (CWrite live) /\
        fs_calls (trace w') =
          fs_calls (trace w) ++ [call_failed (CWrite live)] /\
        forall q, q <> live -> files w' !! q = files w !! q
    end.
Proof.
  intros Hlive.
  destruct (installBackup STORE_DIR dbBuffer w) as [r w'] eqn:Hrun.
  exists r, w'. split; [reflexivity|]. revert Hrun.
  unfold installBackup.
  rewrite (bind_ok (fs_existsSync live) _ w w false)
    by (unfold fs_existsSync; now rewrite Hlive).
  cbv beta iota. rewrite (bind_ok (ret tt) _ w w tt) by reflexivity.
  destruct (fs_writeFileSync_spec live dbBuffer w)
    as (r2 & w2 & Hwrite & Hok2 & Hres2).
  destruct r2 as [[]|e2].
  - destruct Hres2 as [Htrace2 Hfiles2].
    rewrite (bind_ok _ _ _ _ _ Hwrite). cbn [logger].
    intros [= <- <-]. split; [reflexivity|].
    cbn [trace files with_logs]. rewrite Htrace2, Hfiles2, fs_calls_app. auto.
  - destruct Hres2 as (-> & Htrace2 & Hfiles2).
    rewrite (bind_err _ _ _ _ _ Hwrite). intros [= <- <-].
    split; [intros Hq; specialize (Hok2 Hq); discriminate|].
    split; [reflexivity|]. rewrite Htrace2, fs_calls_app. auto.
Qed.

(** X13. In a run of [restoreFromBackup] whose decode step succeeds while
    there is no live database file, no safety copy is made: the only
    file-system call is the write of the live path.  With no fault the
    run succeeds and the live path holds the decoded bytes; a failed
    write changes no other path. *)
Theorem restore_without_live_file
        (filename : option string) (w w1 w2 w3 : World) (target : string)
        (encrypted : bytes) (metadata : option BackupMetadata)
        (dbBuffer : bytes) :
  token_missing (getBlobToken (env w)) = false ->
  resolveTarget filename w = (Ok target, w1) ->
  downloadBackup target (snd (logger Info "Starting restore" w1))
    = (Ok (encrypted, metadata), w2) ->
  decodeBackup encrypted metadata w2 = (Ok dbBuffer, w3) ->
  files w !! live = None ->
  exists r w',
    restoreFromBackup STORE_DIR filename w = (r, w') /\
    (oracle w3 = [] -> r = Ok tt) /\
    match r with
    | Ok _ =>
        fs_calls (trace w') = fs_calls (trace w) ++ [call_ok (CWrite live)] /\
        files w' = <[live := dbBuffer]> (files w)
    | Err e =>
        e = CallFailed (CWrite live) /\
        fs_calls (trace w') =
          fs_calls (trace w) ++ [call_failed (CWrite live)] /\
        forall q, q <> live -> files w' !! q = files w !! q
    end.
Proof.
  intros Htoken Hresolve Hdownload Hdecode Hlive.
  assert (reads_only w w3) as (_ & Hfiles & _ & _ & Hcalls).
  { etransitivity;
      [eapply keeps_run; [apply resolveTarget_reads_only|exact Hresolve]|].
    etransitivity; [apply (logger_reads_only Info "Starting restore" w1)|].
    etransitivity;
      [eapply keeps_run; [apply downloadBackup_reads_only|exact Hdownload]|].
    eapply keeps_run; [apply decodeBackup_reads_only|exact Hdecode]. }
  destruct (installBackup_fresh dbBuffer w3) as (r & w' & Hrun & Hok & Hout);
    [now rewrite Hfiles|].
  exists r, w'. split; [|split; [exact Hok|]].
  - unfold restoreFromBackup. unfold bind at 1. cbn [get_env].
    rewrite Htoken.
    rewrite (bind_ok _ _ _ _ _ Hresolve).
    unfold bind at 1. cbn [logger]. cbn [logger snd] in Hdownload.
    rewrite (bind_ok _ _ _ _ _ Hdownload).
    now rewrite (bind_ok _ _ _ _ _ Hdecode).
  - rewrite Hfiles, Hcalls in Hout. exact Hout.
Qed.

Lemma decrypt_store_kept (encrypted : bytes) :
  keeps store_kept (decrypt encrypted).
Proof. unfold decrypt. repeat keeps_step. Qed.

Lemma restoreFromBackup_store_kept (filename : option string) :
  keeps store_kept (restoreFromBackup STORE_DIR filename).
Proof.
  pose proof logger_store_kept. pose proof blob_list_store_kept.
  pose proof fetch_store_kept. pose proof fs_copyFileSync_store_kept.
  pose proof fs_writeFileSync_store_kept. pose proof decrypt_store_kept.
  unfold restoreFromBackup, resolveTarget, downloadBackup, decodeBackup,
    installBackup, gunzip_promise.
  repeat keeps_step.
Qed.

(** X14. [restoreFromBackup] never changes the blob store: in every run,
    failed or not, the stored objects are the same afterwards, no put and
    no delete was called, and the configuration is untouched. *)
Theorem restoreFromBackup_never_writes_store
        (filename : option string) (w : World) :
  let w' := snd (restoreFromBackup STORE_DIR filename w) in
  blobs w' = blobs w /\
  store_writes (trace w') = store_writes (trace w) /\
  env w' = env w.
Proof.
  cbv zeta.
  destruct (restoreFromBackup_store_kept filename w) as [Hblobs Hwrites].
  split; [exact Hblobs|]. split; [exact Hwrites|].
  destruct (restoreFromBackup STORE_DIR filename w) as [r w'] eqn:Hrun.
  revert Hrun. unfold restoreFromBackup. unfold bind at 1. cbn [get_env].
  destruct (token_missing _); [now intros [= _ <-]|].
  intros Hrun. cbn [snd].
  apply bind_inv in Hrun.
  destruct Hrun as [(target & w1 & Hresolve & Hrun)|(e & Hresolve & _)].
  2:{ now destruct (keeps_run _ _ _ _ _ (resolveTarget_reads_only filename)
                              Hresolve) as (? & _). }
  destruct (keeps_run _ _ _ _ _ (resolveTarget_reads_only filename) Hresolve)
    as (Henv1 & _).
  unfold bind at 1 in Hrun. cbn [logger] in Hrun.
  apply bind_inv in Hrun.
  destruct Hrun as [([enc meta] & w2 & Hdl & Hrun)|(e & Hdl & _)];
    destruct (keeps_run _ _ _ _ _ (downloadBackup_reads_only target) Hdl)
      as (Henv2 & _); cbn [env with_logs] in Henv2; [|congruence].
  apply bind_inv in Hrun.
  destruct Hrun as [(db & w3 & Hdec & Hrun)|(e & Hdec & _)];
    destruct (keeps_run _ _ _ _ _ (decodeBackup_reads_only enc meta) Hdec)
      as (Henv3 & _); [|congruence].
  destruct (keeps_run _ _ _ _ _ (installBackup_offline STORE_DIR db) Hrun)
    as (Henv4 & _).
  congruence.
Qed.

(** X15. When [restoreFromBackup] returns normally, the live database
    path holds a buffer that begins with the SQLite magic text and that
    is the decompressed plaintext of the content of a stored object. *)
Theorem restore_installs_checked_sqlite
        (filename : option string) (w w' : World) :
  restoreFromBackup STORE_DIR filename w = (Ok tt, w') ->
  exists encrypted compressed dbBuffer,
    In encrypted (map content (blobs w)) /\
    decrypt_with (getBackupKey (env w)) encrypted = Ok compressed /\
    gunzip compressed = Some dbBuffer /\
    take 15 dbBuffer = list_byte_of_string "SQLite format 3" /\
    files w' !! live = Some dbBuffer.
Proof.
  unfold restoreFromBackup. unfold bind at 1. cbn [get_env].
  destruct (token_missing _); [discriminate|]. intros Hrun.
  apply bind_inv_ok in Hrun. destruct Hrun as (target & w1 & Hresolve & Hrun).
  destruct (keeps_run _ _ _ _ _ (resolveTarget_reads_only filename) Hresolve)
    as (Henv1 & _ & Hblobs1 & _).
  unfold bind at 1 in Hrun. cbn [logger] in Hrun.
  apply bind_inv_ok in Hrun.
  destruct Hrun as ([encrypted metadata] & w2 & Hdl & Hrun).
  destruct (keeps_run _ _ _ _ _ (downloadBackup_reads_only target) Hdl)
    as (Henv2 & _ & Hblobs2 & _). cbn [env blobs with_logs] in Henv2, Hblobs2.
  apply bind_inv_ok in Hrun. destruct Hrun as (dbBuffer & w3 & Hdec & Hrun).
  apply decodeBackup_ok_inv in Hdec.
  destruct Hdec as (compressed & Hdec & Hg & _ & Hmagic).
  apply installBackup_ok in Hrun.
  exists encrypted, compressed, dbBuffer.
  rewrite Henv2, Henv1 in Hdec. split; [|auto].
  (* the bytes were downloaded from a stored blob *)
  revert Hdl. unfold downloadBackup. intros Hdl.
  apply bind_inv_ok in Hdl. destruct Hdl as (listed & w4 & Hlist & Hdl).
  pose proof (keeps_run _ _ _ _ _ (blob_list_reads_only target) Hlist)
    as (_ & _ & Hblobs4 & _). cbn [blobs with_logs] in Hblobs4.
  destruct listed as [|backupBlob rest]; [discriminate|].
  apply bind_inv_ok in Hdl. destruct Hdl as (m & w5 & Hmeta & Hdl).
  assert (blobs w5 = blobs w4) as Hblobs5.
  { revert Hmeta.
    match goal with
    | |- ?fm w4 = _ -> _ =>
        assert (keeps reads_only fm) as Hkeep by repeat keeps_step;
        intros Hmeta;
        now destruct (keeps_run _ _ _ _ _ Hkeep Hmeta) as (_ & _ & ? & _)
    end. }
  apply bind_inv_ok in Hdl. destruct Hdl as (body & w6 & Hfetch & Hdl).
  injection Hdl as <- _ _.
  apply fetch_ok_body in Hfetch. unfold body_at in Hfetch.
  destruct (List.find _ (blobs w5)) as [b|] eqn:Hfind; [|discriminate].
  injection Hfetch as <-. apply find_some in Hfind.
  apply in_map. rewrite <- Hblobs1, <- Hblobs4, <- Hblobs5. tauto.
Qed.

End RestoreFacts.

Lemma restore_without_live_file_witness :
  exists w',
    @restoreFromBackup Ref.lib "store" None Ref.world_new_host
      = (Ok tt, w') /\
    fs_calls (trace w')
      = fs_calls (trace Ref.world_new_host)
        ++ [call_ok (CWrite "store/messages.db")] /\
    files w' = <["store/messages.db" := Ref.db0]> (files Ref.world_new_host).
Proof.
  pose (r1 := resolveTarget None Ref.world_new_host).
  pose (target := match fst r1 with Ok t => t | Err _ => EmptyString end).
  pose (r2 := @downloadBackup Ref.lib target
                (snd (logger Info "Starting restore" (snd r1)))).
  pose (encrypted := match fst r2 with Ok (e, _) => e | Err _ => [] end).
  pose (metadata := match fst r2 with Ok (_, m) => m | Err _ => None end).
  pose (w3 := snd (@decodeBackup Ref.lib encrypted metadata (snd r2))).
  destruct (@restore_without_live_file Ref.lib "store" None
              Ref.world_new_host (snd r1) (snd r2) w3 target encrypted
              metadata Ref.db0)
    as (r & w' & Hrun & Hok & Hout); try (vm_compute; reflexivity).
  assert (r = Ok tt) as -> by (apply Hok; vm_compute; reflexivity).
  exists w'. split; [exact Hrun|exact Hout].
Defined.

Lemma restore_installs_checked_sqlite_witness :
  exists encrypted compressed dbBuffer,
    In encrypted (map content (blobs Ref.world_uploaded)) /\
    @decrypt_with Ref.lib (getBackupKey (env Ref.world_uploaded)) encrypted
      = Ok compressed /\
    @gunzip Ref.lib compressed = Some dbBuffer /\
    take 15 dbBuffer = list_byte_of_string "SQLite format 3" /\
    files (snd (@restoreFromBackup Ref.lib "store" None Ref.world_uploaded))
      !! "store/messages.db" = Some dbBuffer.
Proof.
  apply (@restore_installs_checked_sqlite Ref.lib "store" None
           Ref.world_uploaded).
  vm_compute. reflexivity.
Defined.

(** ** Upload, then restore *)

Lemma next_done_quiet (w : World) : oracle w = [] -> next_done w = true.
Proof. intros Hq. unfold next_done. now rewrite Hq. Qed.

Lemma sqlite_open_done `{NodeLib} (p : string) (d : bytes) (w : World) :
  next_done w = true ->
  files w !! p = Some d ->
  sqlite_open p w = (Ok tt, record_call (CSqliteOpen p) true (advance w)).
Proof.
  intros Hd Hp. unfold sqlite_open. rewrite pop_outcome_done by exact Hd.
  cbn [advance files with_oracle]. now rewrite Hp.
Qed.

Lemma sqlite_vacuum_into_done `{NodeLib} (src dst : string) (d : bytes)
      (w : World) :
  next_done w = true ->
  files w !! dst = None ->
  files w !! src = Some d ->
  sqlite_vacuum_into src dst w =
    (Ok tt, record_call (CVacuumInto dst) true
              (with_files (<[dst := sqlite_image d]> (files w)) (advance w))).
Proof.
  intros Hd Hdst Hsrc. unfold sqlite_vacuum_into.
  rewrite pop_outcome_done by exact Hd.
  cbn [advance files with_oracle]. now rewrite Hdst, Hsrc.
Qed.

Lemma fs_readFileSync_done (p : string) (d : bytes) (w : World) :
  next_done w = true ->
  files w !! p = Some d ->
  fs_readFileSync p w = (Ok d, record_call (CRead p) true (advance w)).
Proof.
  intros Hd Hp. unfold fs_readFileSync. rewrite pop_outcome_done by exact Hd.
  cbn [advance files with_oracle]. now rewrite Hp.
Qed.

Lemma fs_unlinkSync_done (p : string) (d : bytes) (w : World) :
  next_done w = true ->
  files w !! p = Some d ->
  fs_unlinkSync p w =
    (Ok tt, record_call (CUnlink p) true
              (with_files (delete p (files w)) (advance w))).
Proof.
  intros Hd Hp. unfold fs_unlinkSync. rewrite pop_outcome_done by exact Hd.
  cbn [advance files with_oracle]. now rewrite Hp.
Qed.

Lemma store_url_inj (p q : string) : store_url p = store_url q -> p = q.
Proof. unfold store_url. apply String.app_inj. Qed.

Lemma filter_none {A} (P : A -> bool) (l : list A) :
  (forall x, In x l -> P x = false) -> List.filter P l = [].
Proof.
  intros Hall. induction l as [|x l IH]; [reflexivity|].
  cbn [List.filter]. rewrite (Hall x) by now left.
  apply IH. intros y Hy. apply Hall. now right.
Qed.

Lemma find_app_none {A} (P : A -> bool) (l l' : list A) :
  (forall x, In x l -> P x = false) ->
  List.find P (l ++ l') = List.find P l'.
Proof.
  intros Hall. induction l as [|x l IH]; [reflexivity|].
  cbn [app List.find]. rewrite (Hall x) by now left.
  apply IH. intros y Hy. apply Hall. now right.
Qed.

(** The store after the two puts of an upload: what was there under other
    keys, then the artifact, then its metadata record. *)
Lemma put_pair_shape (a m : Blob) (bs : list Blob) :
  pathname a <> pathname m ->
  exists rest,
    put_blob m (put_blob a bs) = rest ++ [a; m] /\
    forall x, In x rest ->
              In x bs /\ pathname x <> pathname a /\ pathname x <> pathname m.
Proof.
  intros Hne.
  exists (List.filter (fun b' => negb (named (pathname m) b'))
            (List.filter (fun b' => negb (named (pathname a) b')) bs)).
  split.
  - unfold put_blob. rewrite List.filter_app. cbn [List.filter].
    assert (negb (named (pathname m) a) = true) as ->
      by (unfold named; apply negb_true_iff; now apply String.eqb_neq).
    now rewrite <- app_assoc.
  - intros x Hx. apply filter_In in Hx. destruct Hx as [Hx Hm].
    apply filter_In in Hx. destruct Hx as [Hx Ha].
    unfold named in Hm, Ha. apply negb_true_iff, String.eqb_neq in Hm, Ha.
    auto.
Qed.

Lemma sqlite_vacuum_into_refused `{NodeLib} (src dst : string) (c : byte)
      (rest : bytes) (w : World) :
  files w !! dst = Some (c :: rest) ->
  sqlite_vacuum_into src dst w
    = (Err (CallFailed (CVacuumInto dst)),
       record_call (CVacuumInto dst) false (advance w)).
Proof.
  intros Hdst. unfold sqlite_vacuum_into, failed.
  destruct (pop_outcome_spec w) as (o & -> & _).
  cbn [files with_oracle]. now rewrite Hdst.
Qed.

Lemma js_sort_strict_newest_head (l : list Blob) (x : Blob) :
  In x l ->
  (forall y, In y l -> y = x \/ uploadedAt y < uploadedAt x) ->
  exists rest, js_sort newest_first l = x :: rest.
Proof.
  intros Hx Hnewest. destruct l as [|b0 others]; [destruct Hx|].
  destruct (js_sort_nonempty newest_first b0 others) as (latest & rest & Hsort).
  destruct (js_sort_head_newest _ _ _ Hsort) as [Hin Hmax].
  destruct (Hnewest latest Hin) as [->|Hlt]; [now exists rest|].
  specialize (Hmax x Hx). lia.
Qed.

Section EndToEnd.
Context `{NodeLib}.
Variable STORE_DIR : string.
Hypothesis ctr_involutive : gcm_ctr_involutive.
Hypothesis tag_full_length : gcm_tag_full_length.
Hypothesis gunzip_inverts_gzip9 : gunzip_gzip9.

Local Abbreviation live := (dbPath STORE_DIR).
Local Abbreviation tmp := (backupPath STORE_DIR).

Lemma tmp_is_not_live : tmp <> live.
Proof.
  unfold dbPath, backupPath, path_join. intros Heq.
  apply String.app_inj in Heq. apply String.app_inj in Heq.
  discriminate Heq.
Qed.

(** A snapshot with no failing call: the artifact decrypts to the gzip of
    the image, and only the trace, the log and the entropy moved. *)
Lemma createSafeBackup_quiet (w : World) (d : bytes) :
  length (getBackupKey (env w)) = 32%nat ->
  oracle w = [] ->
  files w !! live = Some d ->
  files w !! tmp = None ->
  exists artifact w1,
    createSafeBackup STORE_DIR w
      = (Ok (artifact, snapshot_metadata (clock w) (sqlite_image d)), w1) /\
    decrypt_with (getBackupKey (env w)) artifact
      = Ok (gzip9 (sqlite_image d)) /\
    env w1 = env w /\ blobs w1 = blobs w /\ clock w1 = clock w /\
    oracle w1 = [] /\ files w1 = files w.
Proof.
  intros Hkey Hq Hlive Htmp. pose proof tmp_is_not_live as Hne.
  set (image := sqlite_image d).
  set (wa := record_call (CSqliteOpen live) true (advance w)).
  set (wb := record_call (CVacuumInto tmp) true
               (with_files (<[tmp := image]> (files wa)) (advance wa))).
  set (wc := record_call (CRead tmp) true (advance wb)).
  destruct (encrypt_run (gzip9 image) wc) as (iv & Hiv & Hencrypt).
  destruct (decrypt_with_encrypt_with ctr_involutive tag_full_length
              (getBackupKey (env w)) iv (gzip9 image) Hkey Hiv)
    as (artifact & Henc & Hdec).
  change (env wc) with (env w) in Hencrypt. rewrite Henc in Hencrypt.
  set (wd := with_entropy (tail (entropy wc)) wc) in Hencrypt.
  set (we := record_call (CUnlink tmp) true
               (with_files (delete tmp (files wd)) (advance wd))).
  exists artifact,
    (with_logs (logs we ++ [(Info, "Backup created successfully")]) we).
  assert (forall w0, oracle w0 = [] -> next_done w0 = true) as Hdone
    by apply next_done_quiet.
  assert (oracle wa = []) as Hqa by (cbn; now rewrite Hq).
  assert (oracle wb = []) as Hqb by (cbn; now rewrite Hq).
  assert (oracle wc = []) as Hqc by (cbn; now rewrite Hq).
  assert (oracle wd = []) as Hqd by (cbn; now rewrite Hq).
  split; [|split; [exact Hdec|]].
  - unfold createSafeBackup, try_catch.
    rewrite (bind_ok _ _ _ _ _ (sqlite_open_done live d w (Hdone w Hq) Hlive)).
    fold wa.
    rewrite (bind_ok _ _ _ _ _
               (sqlite_vacuum_into_done live tmp d wa (Hdone wa Hqa)
                  Htmp Hlive)).
    fold image wb.
    assert (files wb !! tmp = Some image) as Hsnap
      by (cbn; apply lookup_insert_eq).
    rewrite (bind_ok _ _ _ _ _
               (fs_readFileSync_done tmp image wb (Hdone wb Hqb) Hsnap)).
    fold wc.
    assert (encodeBackup image wc
            = (Ok (artifact, snapshot_metadata (clock w) image), wd))
      as Hencode.
    { unfold encodeBackup. rewrite (bind_ok _ _ _ _ _ Hencrypt).
      reflexivity. }
    rewrite (bind_ok _ _ _ _ _ Hencode). cbv beta iota.
    assert (files wd !! tmp = Some image) as Hsnap' by exact Hsnap.
    rewrite (bind_ok _ _ _ _ _
               (fs_unlinkSync_done tmp image wd (Hdone wd Hqd) Hsnap')).
    fold we. reflexivity.
  - cbn [env blobs clock oracle files with_logs we record_call with_trace
         with_files advance with_oracle].
    rewrite Hqd. split_and!; try reflexivity.
    change (files wd) with (<[tmp := image]> (files w)).
    now apply delete_insert_id.
Qed.

(** An upload with no failing call. *)
Lemma uploadBackup_quiet (w : World) (d : bytes) :
  length (getBackupKey (env w)) = 32%nat ->
  token_missing (getBlobToken (env w)) = false ->
  oracle w = [] ->
  files w !! live = Some d ->
  files w !! tmp = None ->
  exists artifact w',
    uploadBackup STORE_DIR w = (Ok tt, w') /\
    decrypt_with (getBackupKey (env w)) artifact
      = Ok (gzip9 (sqlite_image d)) /\
    blobs w' =
      put_blob (new_blob (upload_key w +:+ META_SUFFIX)
                  (JSON_stringify
                     (snapshot_metadata (clock w) (sqlite_image d))) w)
               (put_blob (new_blob (upload_key w) artifact w) (blobs w)).
Proof.
  intros Hkey Htoken Hq Hlive Htmp.
  destruct (createSafeBackup_quiet w d Hkey Hq Hlive Htmp)
    as (artifact & w1 & Hsnap & Hdec & Henv & Hblobs & Hclock & Hq1 & _).
  set (key := upload_key w).
  set (w2 := record_call (CPut key) true
               (with_blobs (put_blob (new_blob key artifact w1) (blobs w1))
                           (advance w1))).
  assert (next_done w1 = true) as Hd1 by now apply next_done_quiet.
  assert (next_done w2 = true) as Hd2
    by (apply next_done_quiet; cbn; now rewrite Hq1).
  eexists artifact, _. split; [|split; [exact Hdec|]].
  - unfold uploadBackup. rewrite (bind_ok _ _ _ _ _ Hsnap). cbv beta iota.
    unfold bind at 1. cbn [Date_now]. unfold bind at 1. cbn [Date_now].
    unfold bind at 1. cbn [get_env]. rewrite Henv, Htoken.
    fold (upload_key w1).
    assert (upload_key w1 = key) as ->
      by (unfold key, upload_key; now rewrite Hclock).
    rewrite (bind_ok _ _ _ _ _ (blob_put_done key artifact w1 Hd1)).
    fold w2.
    rewrite (bind_ok _ _ _ _ _
               (blob_put_done (key +:+ META_SUFFIX) _ w2 Hd2)).
    cbn [logger]. reflexivity.
  - cbn [blobs with_logs record_call with_trace with_blobs advance
         with_oracle w2].
    unfold new_blob. change (clock w2) with (clock w1).
    now rewrite Hclock, Hblobs.
Qed.

(** The artifact and the metadata record of the latest upload are what a
    download of its key returns. *)
Lemma downloadBackup_uploaded (artifact json : bytes) (bs : list Blob)
      (key : string) (t : Z) (w : World) (m' : BackupMetadata) :
  let a := {| pathname := key; url := store_url key; uploadedAt := t;
              content := artifact |} in
  let m := {| pathname := key +:+ META_SUFFIX;
              url := store_url (key +:+ META_SUFFIX); uploadedAt := t;
              content := json |} in
  oracle w = [] ->
  blobs w = put_blob m (put_blob a bs) ->
  canonical_urls bs ->
  (forall b, In b bs -> has_prefix key b = false) ->
  JSON_parse json = Some (Some m') ->
  exists w',
    downloadBackup key w = (Ok (artifact, Some m'), w') /\
    env w' = env w /\ files w' = files w /\ oracle w' = [] /\
    clock w' = clock w.
Proof.
  intros a m Hq Hblobs Hcanon Hfresh Hparse.
  assert (pathname a <> pathname m) as Hne.
  { cbn. intros Heq. symmetry in Heq. revert Heq.
    apply string_app_longer. discriminate. }
  destruct (put_pair_shape a m bs Hne) as (rest & Hshape & Hrest).
  rewrite Hshape in Hblobs.
  assert (forall x, In x rest -> has_prefix key x = false) as Hrest_prefix
    by (intros x Hx; apply Hfresh; now apply Hrest).
  assert (forall u, (u = store_url key \/ u = store_url (key +:+ META_SUFFIX)) ->
                    forall x, In x rest -> String.eqb (url x) u = false)
    as Hrest_url.
  { intros u Hu x Hx. destruct (Hrest x Hx) as (Hin & Hna & Hnm).
    apply String.eqb_neq. rewrite (Hcanon x Hin). intros Heq.
    destruct Hu as [-> | ->]; apply store_url_inj in Heq; contradiction. }
  assert (List.filter (has_prefix key) (blobs w) = [a; m]) as Hlisted.
  { rewrite Hblobs, List.filter_app, (filter_none _ rest Hrest_prefix).
    cbn [app List.filter]. unfold has_prefix. cbn [pathname a m].
    rewrite prefix_app.
    rewrite <- (string_app_empty_r key) at 2. now rewrite prefix_app. }
  set (w1 := record_call (CList key) true (advance w)).
  set (w2 := record_call (CFetch (url m)) true (advance w1)).
  set (w3 := record_call (CFetch (url a)) true (advance w2)).
  assert (next_done w = true) as Hd by now apply next_done_quiet.
  assert (next_done w1 = true) as Hd1
    by (apply next_done_quiet; cbn; now rewrite Hq).
  assert (next_done w2 = true) as Hd2
    by (apply next_done_quiet; cbn; now rewrite Hq).
  assert (body_at w1 (url m) = Some json) as Hbody_m.
  { unfold body_at. change (blobs w1) with (blobs w).
    rewrite Hblobs, (find_app_none _ rest) by (apply Hrest_url; now right).
    cbn [List.find url a m].
    assert (String.eqb (store_url key) (store_url (key +:+ META_SUFFIX))
            = false) as ->.
    { apply String.eqb_neq. intros Heq. apply store_url_inj in Heq.
      now apply Hne. }
    now rewrite String.eqb_refl. }
  assert (body_at w2 (url a) = Some artifact) as Hbody_a.
  { unfold body_at. change (blobs w2) with (blobs w).
    rewrite Hblobs, (find_app_none _ rest) by (apply Hrest_url; now left).
    cbn [List.find url a]. now rewrite String.eqb_refl. }
  exists w3. split.
  - unfold downloadBackup.
    rewrite (bind_ok _ _ _ _ _ (blob_list_done key w Hd)).
    rewrite Hlisted. cbv beta iota zeta. fold w1.
    assert (List.find (named (key +:+ META_SUFFIX)) [a; m] = Some m) as ->.
    { cbn [List.find]. unfold named. cbn [pathname a m].
      assert (String.eqb key (key +:+ META_SUFFIX) = false) as ->
        by (apply String.eqb_neq; exact Hne).
      now rewrite String.eqb_refl. }
    rewrite bind_assoc.
    rewrite (bind_ok _ _ _ _ _ (fetch_done (url m) w1 json Hd1 Hbody_m)).
    fold w2. rewrite Hparse.
    rewrite (bind_ok (ret (Some m')) _ w2 w2 (Some m')) by reflexivity.
    rewrite (bind_ok _ _ _ _ _ (fetch_done (url a) w2 artifact Hd2 Hbody_a)).
    reflexivity.
  - cbn. now rewrite Hq.
Qed.


(** Without a key, a listed artifact strictly newer than every other one
    is the one chosen. *)
Lemma resolveTarget_newest (w : World) (x : Blob) :
  next_done w = true ->
  In x (daily_artifacts w) ->
  (forall y, In y (daily_artifacts w) ->
             y = x \/ uploadedAt y < uploadedAt x) ->
  resolveTarget None w
    = (Ok (pathname x), record_call (CList DAILY_PREFIX) true (advance w)).
Proof.
  intros Hd Hx Hnewest. unfold resolveTarget. fold DAILY_PREFIX.
  rewrite (bind_ok _ _ _ _ _ (blob_list_done DAILY_PREFIX w Hd)).
  cbv beta zeta. fold (daily_artifacts w).
  destruct (daily_artifacts w) as [|b0 others] eqn:Hdaily; [destruct Hx|].
  destruct (js_sort_nonempty newest_first b0 others) as (latest & rest & Hsort).
  rewrite Hsort.
  destruct (js_sort_head_newest _ _ _ Hsort) as [Hin Hmax].
  destruct (Hnewest latest Hin) as [->|Hlt]; [reflexivity|].
  specialize (Hmax x Hx). lia.
Qed.

(** X16. Upload, then restore.  After an upload during which no call
    fails, of a database whose snapshot begins with the SQLite magic
    text, into a store whose daily artifacts are all older and none of
    whose keys extends the new key, a restore of the latest artifact or
    of the new key, run with the same configuration on any host and with
    no failing call, succeeds and leaves the snapshot in the live
    path. *)
Theorem upload_then_restore
        (w : World) (d : bytes) (filename : option string) (w2 : World) :
  length (getBackupKey (env w)) = 32%nat ->
  token_missing (getBlobToken (env w)) = false ->
  oracle w = [] ->
  files w !! live = Some d ->
  files w !! tmp = None ->
  take 15 (sqlite_image d) = list_byte_of_string "SQLite format 3" ->
  reads_back (snapshot_metadata (clock w) (sqlite_image d)) ->
  canonical_urls (blobs w) ->
  (forall b, In b (blobs w) -> has_prefix (upload_key w) b = false) ->
  (forall b, In b (daily_artifacts w) -> uploadedAt b < clock w) ->
  filename = None \/ filename = Some (upload_key w) ->
  env w2 = env w ->
  blobs w2 = blobs (snd (uploadBackup STORE_DIR w)) ->
  oracle w2 = [] ->
  fst (uploadBackup STORE_DIR w) = Ok tt /\
  exists w3,
    restoreFromBackup STORE_DIR filename w2 = (Ok tt, w3) /\
    files w3 !! live = Some (sqlite_image d).
Proof.
  intros Hkey Htoken Hq Hlive Htmp Hmagic (m' & Hparse & Hsum) Hcanon Hfresh
         Hnewer Hfilename Henv2 Hblobs2 Hq2.
  destruct (uploadBackup_quiet w d Hkey Htoken Hq Hlive Htmp)
    as (artifact & w' & Hup & Hdec & Hblobs).
  rewrite Hup in *. cbn [fst snd] in *. split; [reflexivity|].
  rewrite Hblobs in Hblobs2. unfold new_blob in Hblobs2.
  set (key := upload_key w) in *.
  set (a := {| pathname := key; url := store_url key;
               uploadedAt := clock w; content := artifact |}) in *.
  set (m := {| pathname := key +:+ META_SUFFIX;
               url := store_url (key +:+ META_SUFFIX);
               uploadedAt := clock w;
               content := JSON_stringify
                            (snapshot_metadata (clock w) (sqlite_image d)) |})
    in *.
  destruct (upload_key_is_daily_artifact w) as [Hdaily Hart].
  fold key in Hdaily, Hart.
  assert (pathname a <> pathname m) as Hne.
  { cbn. intros Heq. symmetry in Heq. revert Heq.
    apply string_app_longer. discriminate. }
  (* the key the restore settles on *)
  assert (exists w2a, resolveTarget filename w2 = (Ok key, w2a) /\
                      env w2a = env w2 /\ blobs w2a = blobs w2 /\
                      files w2a = files w2 /\ oracle w2a = []) as Hresolve.
  { destruct Hfilename as [-> | ->].
    - eexists. split.
      + apply (resolveTarget_newest w2 a); [now apply next_done_quiet| |].
        * unfold daily_artifacts. rewrite Hblobs2.
          apply filter_In. split; [apply filter_In; split|].
          -- unfold put_blob. apply in_or_app. left. apply filter_In.
             split; [apply in_or_app; right; now left|].
             unfold named. apply negb_true_iff, String.eqb_neq. exact Hne.
          -- exact Hdaily.
          -- unfold is_meta. cbn [pathname a]. now rewrite Hart.
        * intros y Hy. unfold daily_artifacts in Hy. rewrite Hblobs2 in Hy.
          apply filter_In in Hy. destruct Hy as [Hy Hnot].
          apply filter_In in Hy. destruct Hy as [Hy Hpre].
          destruct (put_pair_shape a m (blobs w) Hne)
            as (rest & Hshape & Hrest).
          rewrite Hshape in Hy. apply in_app_or in Hy. destruct Hy as [Hy|[<-|[<-|[]]]].
          -- right. cbn [uploadedAt a]. apply Hnewer.
             unfold daily_artifacts. apply filter_In. split; [|exact Hnot].
             apply filter_In. split; [|exact Hpre]. now apply Hrest.
          -- now left.
          -- unfold is_meta in Hnot. cbn [pathname m] in Hnot.
             rewrite endsWith_own_suffix in Hnot. discriminate.
      + cbn. now rewrite Hq2.
    - exists w2. split; [|auto].
      unfold key, upload_key, BACKUP_PREFIX. reflexivity. }
  destruct Hresolve as (w2a & Hresolve & Henva & Hblobsa & Hfilesa & Hqa).
  set (w2b := with_logs (logs w2a ++ [(Info, "Starting restore")]) w2a).
  destruct (downloadBackup_uploaded artifact (content m) (blobs w) key
              (clock w) w2b m')
    as (w2c & Hdl & Henvc & Hfilesc & Hqc & _); auto.
  { cbn [blobs w2b with_logs]. now rewrite Hblobsa. }
  destruct (decodeBackup_ok_intro artifact (gzip9 (sqlite_image d))
              (sqlite_image d) (Some m') w2c)
    as (w2d & Hdecode & Hqd & Hfilesd & _).
  { rewrite Henvc. cbn [env w2b with_logs]. now rewrite Henva, Henv2. }
  { apply gunzip_inverts_gzip9. }
  { intros m0 [= <-]. now rewrite Hsum. }
  { exact Hmagic. }
  assert (exists w3,
             installBackup STORE_DIR (sqlite_image d) w2d = (Ok tt, w3))
    as (w3 & Hinstall).
  { rewrite Hqc in Hqd.
    destruct (files w2d !! live) as [old|] eqn:Hold.
    - destruct (installBackup_spec STORE_DIR (sqlite_image d) old w2d Hold)
        as (r & w3 & Hrun & _ & Hok).
      rewrite (Hok Hqd) in Hrun. now exists w3.
    - destruct (installBackup_fresh STORE_DIR (sqlite_image d) w2d Hold)
        as (r & w3 & Hrun & Hok & _).
      rewrite (Hok Hqd) in Hrun. now exists w3. }
  exists w3. split; [|eapply installBackup_ok; exact Hinstall].
  unfold restoreFromBackup. unfold bind at 1. cbn [get_env].
  rewrite Henv2, Htoken.
  rewrite (bind_ok _ _ _ _ _ Hresolve).
  unfold bind at 1. cbn [logger]. fold w2b.
  rewrite (bind_ok _ _ _ _ _ Hdl).
  now rewrite (bind_ok _ _ _ _ _ Hdecode).
Qed.

End EndToEnd.

Lemma upload_then_restore_witness :
  fst (@uploadBackup Ref.lib "store" Ref.world0) = Ok tt /\
  exists w3,
    @restoreFromBackup Ref.lib "store" None Ref.world_uploaded = (Ok tt, w3) /\
    files w3 !! "store/messages.db" = Some Ref.db0.
Proof.
  apply (@upload_then_restore Ref.lib "store" Ref_ctr_involutive
           Ref_tag_full_length Ref_gunzip_gzip9 Ref.world0 Ref.db0 None
           Ref.world_uploaded).
  - vm_compute. reflexivity.
  - vm_compute. reflexivity.
  - vm_compute. reflexivity.
  - vm_compute. reflexivity.
  - vm_compute. reflexivity.
  - vm_compute. reflexivity.
  - eexists. split; vm_compute; reflexivity.
  - intros b [].
  - intros b [].
  - intros b [].
  - now left.
  - vm_compute. reflexivity.
  - vm_compute. reflexivity.
  - vm_compute. reflexivity.
Defined.

Section AfterUpload.
Context `{NodeLib}.
Variable STORE_DIR : string.
Hypothesis ctr_involutive : gcm_ctr_involutive.
Hypothesis tag_full_length : gcm_tag_full_length.

Local Abbreviation live := (dbPath STORE_DIR).
Local Abbreviation tmp := (backupPath STORE_DIR).

(** X20. A non-empty temporary file left by an earlier run makes the next
    [createSafeBackup] fail in VACUUM INTO, but its catch block removes
    the file, so that the run after that one succeeds. *)
Theorem createSafeBackup_clears_stale_temp
        (w : World) (d : bytes) (c : byte) (rest : bytes) :
  length (getBackupKey (env w)) = 32%nat ->
  oracle w = [] ->
  files w !! live = Some d ->
  files w !! tmp = Some (c :: rest) ->
  exists w1,
    createSafeBackup STORE_DIR w = (Err (CallFailed (CVacuumInto tmp)), w1) /\
    files w1 = delete tmp (files w) /\
    exists artifact w2,
      createSafeBackup STORE_DIR w1
        = (Ok (artifact, snapshot_metadata (clock w) (sqlite_image d)), w2) /\
      files w2 = files w1.
Proof.
  intros Hkey Hq Hlive Htmp.
  set (wa := record_call (CSqliteOpen live) true (advance w)).
  set (wb := record_call (CVacuumInto tmp) false (advance wa)).
  set (w1 := record_call (CUnlink tmp) true
               (with_files (delete tmp (files wb)) (advance wb))).
  assert (oracle w1 = []) as Hq1 by (cbn; now rewrite Hq).
  exists w1. split; [|split; [reflexivity|]].
  - unfold createSafeBackup, try_catch.
    rewrite (bind_ok _ _ _ _ _
               (sqlite_open_done live d w (next_done_quiet w Hq) Hlive)).
    fold wa.
    rewrite (bind_err _ _ _ _ _
               (sqlite_vacuum_into_refused live tmp c rest wa Htmp)).
    fold wb.
    assert (next_done wb = true) as Hdb
      by (apply next_done_quiet; cbn; now rewrite Hq).
    assert (files wb !! tmp = Some (c :: rest)) as Htmp' by exact Htmp.
    rewrite (bind_ok (fs_existsSync tmp) _ wb wb true)
      by (unfold fs_existsSync; now rewrite Htmp').
    rewrite (bind_ok _ _ _ _ _
               (fs_unlinkSync_done tmp (c :: rest) wb Hdb Htmp')).
    reflexivity.
  - destruct (createSafeBackup_quiet STORE_DIR ctr_involutive tag_full_length
                w1 d)
      as (artifact & w2 & Hrun & _ & _ & _ & _ & _ & Hfiles); auto.
    + cbn. rewrite lookup_delete_ne; [exact Hlive|].
      apply tmp_is_not_live.
    + cbn. apply lookup_delete_eq.
    + now exists artifact, w2.
Qed.

(** X21. After an upload during which no call fails, into a store whose
    daily artifacts are all older, [verifyLatestBackup] answers true. *)
Theorem upload_then_verify (w : World) (d : bytes) (w2 : World) :
  length (getBackupKey (env w)) = 32%nat ->
  token_missing (getBlobToken (env w)) = false ->
  oracle w = [] ->
  files w !! live = Some d ->
  files w !! tmp = None ->
  canonical_urls (blobs w) ->
  (forall b, In b (daily_artifacts w) -> uploadedAt b < clock w) ->
  env w2 = env w ->
  blobs w2 = blobs (snd (uploadBackup STORE_DIR w)) ->
  oracle w2 = [] ->
  fst (verifyLatestBackup w2) = Ok true.
Proof.
  intros Hkey Htoken Hq Hlive Htmp Hcanon Hnewer Henv2 Hblobs2 Hq2.
  destruct (uploadBackup_quiet STORE_DIR ctr_involutive tag_full_length
              w d Hkey Htoken Hq Hlive Htmp)
    as (artifact & w' & Hup & Hdec & Hblobs).
  rewrite Hup in Hblobs2. cbn [snd] in Hblobs2.
  rewrite Hblobs in Hblobs2. unfold new_blob in Hblobs2.
  set (key := upload_key w) in *.
  set (a := {| pathname := key; url := store_url key;
               uploadedAt := clock w; content := artifact |}) in *.
  set (m := {| pathname := key +:+ META_SUFFIX;
               url := store_url (key +:+ META_SUFFIX);
               uploadedAt := clock w;
               content := JSON_stringify
                            (snapshot_metadata (clock w) (sqlite_image d)) |})
    in *.
  destruct (upload_key_is_daily_artifact w) as [Hdaily Hart].
  fold key in Hdaily, Hart.
  assert (pathname a <> pathname m) as Hne.
  { cbn. intros Heq. symmetry in Heq. revert Heq.
    apply string_app_longer. discriminate. }
  destruct (put_pair_shape a m (blobs w) Hne) as (rest & Hshape & Hrest).
  rewrite Hshape in Hblobs2.
  destruct (js_sort_strict_newest_head (daily_artifacts w2) a)
    as (others & Hsort).
  { unfold daily_artifacts. rewrite Hblobs2.
    apply filter_In. split; [apply filter_In; split|].
    - apply in_or_app. right. now left.
    - exact Hdaily.
    - unfold is_meta. cbn [pathname a]. now rewrite Hart. }
  { intros y Hy. unfold daily_artifacts in Hy. rewrite Hblobs2 in Hy.
    apply filter_In in Hy. destruct Hy as [Hy Hnot].
    apply filter_In in Hy. destruct Hy as [Hy Hpre].
    apply in_app_or in Hy. destruct Hy as [Hy|[<-|[<-|[]]]].
    - right. cbn [uploadedAt a]. apply Hnewer.
      unfold daily_artifacts. apply filter_In. split; [|exact Hnot].
      apply filter_In. split; [|exact Hpre]. now apply Hrest.
    - now left.
    - unfold is_meta in Hnot. cbn [pathname m] in Hnot.
      rewrite endsWith_own_suffix in Hnot. discriminate. }
  destruct (verifyLatestBackup_result w2) as (b & w3 & -> & Hiff).
  cbn [fst]. f_equal. apply Hiff. unfold verify_passes.
  rewrite Henv2. split; [exact Htoken|].
  split; [now apply next_done_quiet|].
  split; [apply next_done_quiet; cbn; now rewrite Hq2|].
  exists a, others, artifact, (gzip9 (sqlite_image d)).
  split; [exact Hsort|]. split; [|exact Hdec].
  unfold body_at. rewrite Hblobs2, find_app_none.
  - cbn [List.find url a]. now rewrite String.eqb_refl.
  - intros x Hx. destruct (Hrest x Hx) as (Hin & Hna & _).
    apply String.eqb_neq. rewrite (Hcanon x Hin). cbn [url a].
    intros Heq. apply store_url_inj in Heq. contradiction.
Qed.

End AfterUpload.

Lemma createSafeBackup_clears_stale_temp_witness :
  let w := with_files (<["store/messages.backup.tmp" := Ref.garbage]>
                         (files Ref.world0)) Ref.world0 in
  exists w1,
    @createSafeBackup Ref.lib "store" w
      = (Err (CallFailed (CVacuumInto "store/messages.backup.tmp")), w1) /\
    files w1 = delete "store/messages.backup.tmp" (files w) /\
    exists artifact w2,
      @createSafeBackup Ref.lib "store" w1
        = (Ok (artifact,
               @snapshot_metadata Ref.lib (clock w) Ref.db0), w2) /\
      files w2 = files w1.
Proof.
  intros w.
  apply (@createSafeBackup_clears_stale_temp Ref.lib "store"
           Ref_ctr_involutive Ref_tag_full_length w Ref.db0 x2a
           (replicate 47 x2a)); vm_compute; reflexivity.
Defined.

Lemma upload_then_verify_witness :
  fst (@verifyLatestBackup Ref.lib Ref.world_uploaded) = Ok true.
Proof.
  apply (@upload_then_verify Ref.lib "store" Ref_ctr_involutive
           Ref_tag_full_length Ref.world0 Ref.db0 Ref.world_uploaded).
  - vm_compute. reflexivity.
  - vm_compute. reflexivity.
  - vm_compute. reflexivity.
  - vm_compute. reflexivity.
  - vm_compute. reflexivity.
  - intros b [].
  - intros b [].
  - vm_compute. reflexivity.
  - vm_compute. reflexivity.
  - vm_compute. reflexivity.
Defined.

(** ** The scheduler *)

Lemma try_catch_never_throws (m : M unit) (h : Error -> M unit) :
  (forall e w, exists w', h e w = (Ok tt, w')) ->
  forall w, exists w', try_catch m h w = (Ok tt, w').
Proof.
  intros Hh w. unfold try_catch. destruct (m w) as [[[]|e] w1]; eauto.
Qed.

Section SchedulerFacts.
Context `{NodeLib} `{SchedulerDeps}.
Variable STORE_DIR : string.

Lemma sqliteBackupStep_never_throws (w : World) :
  exists w', sqliteBackupStep STORE_DIR w = (Ok tt, w').
Proof.
  apply try_catch_never_throws. intros e w0. unfold logger. eauto.
Qed.

Lemma gitBackupStep_never_throws (w : World) :
  exists w', gitBackupStep w = (Ok tt, w').
Proof.
  apply try_catch_never_throws. intros e w0. unfold logger. eauto.
Qed.

(** X17. [runFullBackup] throws only when reading the configuration
    throws; once the configuration is read it returns normally, whatever
    the upload, the cleanup and the git backup do. *)
Theorem runFullBackup_throws_only_from_config (w : World) :
  match getConfig w with
  | (Ok config, w0) => exists w', runFullBackup STORE_DIR w = (Ok tt, w')
  | (Err e, w0) => runFullBackup STORE_DIR w = (Err e, w0)
  end.
Proof.
  unfold runFullBackup.
  destruct (getConfig w) as [[config|e] w0] eqn:Hconfig.
  2:{ now rewrite (bind_err _ _ _ _ _ Hconfig). }
  rewrite (bind_ok _ _ _ _ _ Hconfig).
  unfold bind at 1. cbn [logger].
  set (w1 := with_logs _ w0).
  assert (exists w2, (if sqliteEnabled config then sqliteBackupStep STORE_DIR
                      else ret tt) w1 = (Ok tt, w2)) as (w2 & Hsqlite).
  { destruct (sqliteEnabled config);
      [apply sqliteBackupStep_never_throws|now exists w1]. }
  rewrite (bind_ok _ _ _ _ _ Hsqlite).
  assert (exists w3, (if gitEnabled config then gitBackupStep
                      else ret tt) w2 = (Ok tt, w3)) as (w3 & Hgit).
  { destruct (gitEnabled config);
      [apply gitBackupStep_never_throws|now exists w2]. }
  rewrite (bind_ok _ _ _ _ _ Hgit). cbn [logger]. eauto.
Qed.

(** X18. When the upload of a [runFullBackup] fails, the cleanup of that
    run is skipped: with the git half switched off, the run ends normally
    in the world the failed upload left, plus two log records. *)
Theorem runFullBackup_failed_upload_skips_cleanup
        (w w0 w1 : World) (config : BackupConfig) (e : Error) :
  getConfig w = (Ok config, w0) ->
  sqliteEnabled config = true ->
  gitEnabled config = false ->
  uploadBackup STORE_DIR (snd (logger Info "Starting full backup" w0))
    = (Err e, w1) ->
  exists w',
    runFullBackup STORE_DIR w = (Ok tt, w') /\
    trace w' = trace w1 /\ blobs w' = blobs w1 /\ files w' = files w1 /\
    logs w' = logs w1 ++ [(LogError, "SQLite backup failed");
                          (Info, "Full backup completed")].
Proof.
  intros Hconfig Hsqlite Hgit Hupload. cbn [logger snd] in Hupload.
  eexists. split.
  - unfold runFullBackup. rewrite (bind_ok _ _ _ _ _ Hconfig).
    unfold bind at 1. cbn [logger]. rewrite Hsqlite, Hgit.
    unfold sqliteBackupStep, try_catch.
    unfold bind at 1. rewrite (bind_err _ _ _ _ _ Hupload).
    cbn [logger]. unfold bind. cbn [ret logger]. reflexivity.
  - cbn. rewrite <- app_assoc. auto.
Qed.

(** X19. [getBackupStatus] reports the SQLite backup as verified exactly
    when it is enabled and [verifyLatestBackup] passes; with the git half
    switched off it always returns and changes neither the files nor the
    store. *)
Theorem getBackupStatus_verified
        (w w0 : World) (config : BackupConfig) :
  getConfig w = (Ok config, w0) ->
  (gitEnabled config = false ->
   exists status w',
     getBackupStatus w = (Ok status, w') /\
     files w' = files w0 /\ blobs w' = blobs w0) /\
  (forall status w',
      getBackupStatus w = (Ok status, w') ->
      sqlite_enabled (status_sqlite status) = sqliteEnabled config /\
      git_enabled (status_git status) = gitEnabled config /\
      (sqlite_verified (status_sqlite status) = true <->
       sqliteEnabled config = true /\ verify_passes w0)).
Proof.
  intros Hconfig.
  assert (exists verified w1,
             (if sqliteEnabled config then verifyLatestBackup else ret false) w0
             = (Ok verified, w1) /\
             files w1 = files w0 /\ blobs w1 = blobs w0 /\
             (verified = true <->
              sqliteEnabled config = true /\ verify_passes w0))
    as (verified & w1 & Hverify & Hfiles & Hblobs & Hiff).
  { destruct (sqliteEnabled config).
    - destruct (verifyLatestBackup_result w0) as (b & w1 & Hrun & Hiff).
      destruct (keeps_run _ _ _ _ _ verifyLatestBackup_reads_only Hrun)
        as (_ & Hfiles & Hblobs & _).
      exists b, w1. split_and!; auto. rewrite Hiff. tauto.
    - exists false, w0. split_and!; auto. split; [discriminate|].
      intros [? _]. discriminate. }
  split.
  - intros Hgit. eexists _, w1. split; [|auto].
    unfold getBackupStatus. rewrite (bind_ok _ _ _ _ _ Hconfig).
    rewrite (bind_ok _ _ _ _ _ Hverify). rewrite Hgit.
    unfold bind. cbn [ret]. reflexivity.
  - intros status w'. unfold getBackupStatus.
    rewrite (bind_ok _ _ _ _ _ Hconfig).
    rewrite (bind_ok _ _ _ _ _ Hverify).
    intros Hrun. apply bind_inv_ok in Hrun.
    destruct Hrun as ([changes commit] & w2 & _ & Hrun).
    injection Hrun as <- _. cbn. auto.
Qed.

End SchedulerFacts.

Lemma runFullBackup_failed_upload_skips_cleanup_witness :
  exists w',
    @runFullBackup Ref.lib Ref.deps "store" Ref.world_no_token = (Ok tt, w') /\
    map ev_call (trace w')
      = [CSqliteOpen "store/messages.db";
         CVacuumInto "store/messages.backup.tmp";
         CRead "store/messages.backup.tmp";
         CUnlink "store/messages.backup.tmp"] /\
    blobs w' = blobs Ref.world_no_token.
Proof.
  pose (w1 := snd (@uploadBackup Ref.lib "store"
                     (snd (logger Info "Starting full backup"
                             Ref.world_no_token)))).
  destruct (@runFullBackup_failed_upload_skips_cleanup Ref.lib Ref.deps
              "store" Ref.world_no_token Ref.world_no_token w1
              {| sqliteEnabled := true; sqliteIntervalMinutes := Some 60;
                 gitEnabled := false; gitIntervalMinutes := Some 30 |}
              TokenNotConfigured)
    as (w' & Hrun & Htrace & Hblobs & _).
  - vm_compute. reflexivity.
  - vm_compute. reflexivity.
  - vm_compute. reflexivity.
  - vm_compute. reflexivity.
  - exists w'. split; [exact Hrun|]. rewrite Htrace, Hblobs.
    split; vm_compute; reflexivity.
Defined.

Lemma getBackupStatus_verified_witness :
  exists status w',
    @getBackupStatus Ref.lib Ref.deps Ref.world_uploaded = (Ok status, w') /\
    files w' = files Ref.world_uploaded /\ blobs w' = blobs Ref.world_uploaded.
Proof.
  destruct (@getBackupStatus_verified Ref.lib Ref.deps Ref.world_uploaded
              Ref.world_uploaded
              {| sqliteEnabled := true; sqliteIntervalMinutes := Some 60;
                 gitEnabled := false; gitIntervalMinutes := Some 30 |})
    as [Hrun _].
  - vm_compute. reflexivity.
  - apply Hrun. reflexivity.
Defined.
